(** * Candle: gs_usb CAN adapter library and its OBD-II layer

    A shallow embedding of [usb_can_lib.c], the C library that drives a
    gs_usb adapter through libusb, and of the OBD-II helper methods of the
    managed wrapper class [UsbCanDevice].  Embedded are the transfer
    helpers and the exported functions [usb_can_cleanup],
    [usb_can_set_bitrate], [usb_can_start], [usb_can_stop],
    [usb_can_send_frame], [usb_can_receive_frame],
    [usb_can_purge_rx_queue] and [usb_can_read_obd_pid], and the methods
    [ReadObdPid], [GetEngineRpm] and [GetSupportedPids].

    Conventions of the embedding:
    - [uint8_t], [uint32_t] and [int] values are integers in [Z]; the
      wrap-around of unsigned arithmetic is written out with [mod];
    - a byte buffer is a [list Z] of byte values, its capacity is its length;
    - the [#pragma pack(1)] structures are laid out field after field with
      no padding; multi-byte fields use the byte order of the host, taken
      to be little-endian (the x86/ARM targets of the DLL);
    - a pointer argument is an [option]: [None] is the null pointer and
      [Some v] points to storage that currently holds [v];
    - the three globals of the library, the scripted answers of the USB
      stack and the trace of the libusb calls made so far form the [world]
      that every function threads through;
    - behaviour that C leaves undefined (division by zero, a [memcpy]
      outside its arrays, signed overflow) is the outcome [Undefined]. *)

From Stdlib Require Import ZArith List Bool Lia QArith Sorted.
Import ListNotations.
Local Open Scope Z_scope.

(** ** Machine integers *)

Definition UINT8_MOD : Z := 256.
Definition UINT32_MOD : Z := 4294967296.
Definition INT_MAX : Z := 2147483647.

Definition u8 (x : Z) : Z := x mod UINT8_MOD.
Definition u32 (x : Z) : Z := x mod UINT32_MOD.

Definition is_u8 (x : Z) : Prop := 0 <= x < UINT8_MOD.
Definition is_u32 (x : Z) : Prop := 0 <= x < UINT32_MOD.

(** ** USB and gs_usb constants *)

Definition USB_DIR_OUT : Z := 0.
Definition USB_DIR_IN : Z := 128.
Definition USB_TYPE_VENDOR : Z := Z.shiftl 2 5.
Definition USB_RECIP_INTERFACE : Z := 1.

Definition GS_USB_BREQ_HOST_FORMAT : Z := 0.
Definition GS_USB_BREQ_BITTIMING : Z := 1.
Definition GS_USB_BREQ_MODE : Z := 2.
Definition GS_USB_BREQ_BERR : Z := 3.
Definition GS_USB_BREQ_BT_CONST : Z := 4.
Definition GS_USB_BREQ_DEVICE_CONFIG : Z := 5.
Definition GS_USB_BREQ_TIMESTAMP : Z := 6.
Definition GS_USB_BREQ_IDENTIFY : Z := 7.

Definition GS_CAN_CONFIG_BYTE_ORDER : Z := 48879.

Definition GS_CAN_MODE_RESET : Z := 0.
Definition GS_CAN_MODE_START : Z := 1.

Definition GS_CAN_MODE_HW_TIMESTAMP_FLAG : Z := Z.shiftl 1 4.
Definition GS_CAN_MODE_LOOP_BACK_FLAG : Z := Z.shiftl 1 1.

Definition LIBUSB_ERROR_TIMEOUT : Z := -7.

(** ** The packed structures *)

Record gs_host_config := mk_host_config {
  byte_order : Z
}.

Record gs_device_config := mk_device_config {
  reserved1 : Z;
  reserved2 : Z;
  reserved3 : Z;
  icount : Z;
  sw_version : Z;
  hw_version : Z
}.

(** The field is [mode] in the source; [gs_device_mode] has the name. *)
Record gs_identify_mode := mk_identify_mode {
  identify : Z
}.

Record gs_device_bt_const := mk_bt_const {
  feature : Z;
  fclk_can : Z;
  tseg1_min : Z;
  tseg1_max : Z;
  tseg2_min : Z;
  tseg2_max : Z;
  sjw_max : Z;
  brp_min : Z;
  brp_max : Z;
  brp_inc : Z
}.

Record gs_device_bittiming := mk_bittiming {
  prop_seg : Z;
  phase_seg1 : Z;
  phase_seg2 : Z;
  sjw : Z;
  brp : Z
}.

Record gs_device_mode := mk_mode {
  mode : Z;
  flags : Z
}.

Record gs_host_frame := mk_frame {
  echo_id : Z;
  can_id : Z;
  can_dlc : Z;
  channel : Z;
  frame_flags : Z;
  reserved : Z;
  data : list Z;
  timestamp_us : Z
}.

Definition sizeof_host_config : nat := 4.
Definition sizeof_device_config : nat := 12.
Definition sizeof_identify_mode : nat := 4.
Definition sizeof_bt_const : nat := 40.
Definition sizeof_bittiming : nat := 20.
Definition sizeof_mode : nat := 8.
Definition sizeof_host_frame : nat := 24.

(** ** Memory representation of the structures *)

(** The four bytes of a 32-bit field, least significant first. *)
Definition le32 (x : Z) : list Z :=
  [ x mod 256; (x / 256) mod 256; (x / 65536) mod 256; (x / 16777216) mod 256 ].

(** Byte [i] of a buffer; storage that was zero-initialised and only
    partly overwritten reads as 0 past the bytes written. *)
Definition byte_at (buf : list Z) (i : nat) : Z := nth i buf 0.

(** The 32-bit field that starts at offset [off]. *)
Definition rd32 (buf : list Z) (off : nat) : Z :=
  byte_at buf off + 256 * byte_at buf (off + 1)
  + 65536 * byte_at buf (off + 2) + 16777216 * byte_at buf (off + 3).

(** The [n] bytes of an array field that starts at offset [off]. *)
Definition rd_bytes (buf : list Z) (off n : nat) : list Z :=
  map (byte_at buf) (seq off n).

Definition encode_host_config (c : gs_host_config) : list Z :=
  le32 (byte_order c).

Definition decode_host_config (buf : list Z) : gs_host_config :=
  mk_host_config (rd32 buf 0).

Definition encode_device_config (c : gs_device_config) : list Z :=
  [reserved1 c; reserved2 c; reserved3 c; icount c]
  ++ le32 (sw_version c) ++ le32 (hw_version c).

Definition decode_device_config (buf : list Z) : gs_device_config :=
  mk_device_config (byte_at buf 0) (byte_at buf 1) (byte_at buf 2) (byte_at buf 3)
                   (rd32 buf 4) (rd32 buf 8).

Definition encode_identify_mode (m : gs_identify_mode) : list Z :=
  le32 (identify m).

Definition decode_identify_mode (buf : list Z) : gs_identify_mode :=
  mk_identify_mode (rd32 buf 0).

Definition encode_bt_const (c : gs_device_bt_const) : list Z :=
  le32 (feature c) ++ le32 (fclk_can c) ++ le32 (tseg1_min c) ++ le32 (tseg1_max c)
  ++ le32 (tseg2_min c) ++ le32 (tseg2_max c) ++ le32 (sjw_max c)
  ++ le32 (brp_min c) ++ le32 (brp_max c) ++ le32 (brp_inc c).

Definition decode_bt_const (buf : list Z) : gs_device_bt_const :=
  mk_bt_const (rd32 buf 0) (rd32 buf 4) (rd32 buf 8) (rd32 buf 12) (rd32 buf 16)
              (rd32 buf 20) (rd32 buf 24) (rd32 buf 28) (rd32 buf 32) (rd32 buf 36).

Definition encode_bittiming (t : gs_device_bittiming) : list Z :=
  le32 (prop_seg t) ++ le32 (phase_seg1 t) ++ le32 (phase_seg2 t)
  ++ le32 (sjw t) ++ le32 (brp t).

Definition decode_bittiming (buf : list Z) : gs_device_bittiming :=
  mk_bittiming (rd32 buf 0) (rd32 buf 4) (rd32 buf 8) (rd32 buf 12) (rd32 buf 16).

Definition encode_mode (m : gs_device_mode) : list Z :=
  le32 (mode m) ++ le32 (flags m).

Definition decode_mode (buf : list Z) : gs_device_mode :=
  mk_mode (rd32 buf 0) (rd32 buf 4).

Definition encode_frame (f : gs_host_frame) : list Z :=
  le32 (echo_id f) ++ le32 (can_id f)
  ++ [can_dlc f; channel f; frame_flags f; reserved f]
  ++ data f ++ le32 (timestamp_us f).

Definition decode_frame (buf : list Z) : gs_host_frame :=
  mk_frame (rd32 buf 0) (rd32 buf 4)
           (byte_at buf 8) (byte_at buf 9) (byte_at buf 10) (byte_at buf 11)
           (rd_bytes buf 12 8) (rd32 buf 20).

(** Field values that fit their declared C types. *)
Definition valid_host_config (c : gs_host_config) : Prop :=
  is_u32 (byte_order c).

Definition valid_device_config (c : gs_device_config) : Prop :=
  is_u8 (reserved1 c) /\ is_u8 (reserved2 c) /\ is_u8 (reserved3 c)
  /\ is_u8 (icount c) /\ is_u32 (sw_version c) /\ is_u32 (hw_version c).

Definition valid_identify_mode (m : gs_identify_mode) : Prop :=
  is_u32 (identify m).

Definition valid_bt_const (c : gs_device_bt_const) : Prop :=
  is_u32 (feature c) /\ is_u32 (fclk_can c) /\ is_u32 (tseg1_min c)
  /\ is_u32 (tseg1_max c) /\ is_u32 (tseg2_min c) /\ is_u32 (tseg2_max c)
  /\ is_u32 (sjw_max c) /\ is_u32 (brp_min c) /\ is_u32 (brp_max c)
  /\ is_u32 (brp_inc c).

Definition valid_bittiming (t : gs_device_bittiming) : Prop :=
  is_u32 (prop_seg t) /\ is_u32 (phase_seg1 t) /\ is_u32 (phase_seg2 t)
  /\ is_u32 (sjw t) /\ is_u32 (brp t).

Definition valid_mode (m : gs_device_mode) : Prop :=
  is_u32 (mode m) /\ is_u32 (flags m).

Definition valid_frame (f : gs_host_frame) : Prop :=
  is_u32 (echo_id f) /\ is_u32 (can_id f) /\ is_u8 (can_dlc f)
  /\ is_u8 (channel f) /\ is_u8 (frame_flags f) /\ is_u8 (reserved f)
  /\ length (data f) = 8%nat /\ Forall is_u8 (data f)
  /\ is_u32 (timestamp_us f).

(** The object [gs_host_frame frame = { 0 }]. *)
Definition zero_frame : gs_host_frame :=
  mk_frame 0 0 0 0 0 0 (repeat 0 8) 0.

(** ** The world the library runs in *)

(** One scripted completion of a libusb transfer: the value the call
    returns, the count it stores through [transferred] (bulk transfers
    only) and the bytes the device delivers (IN transfers only). *)
Record usb_reply := mk_reply {
  rep_ret : Z;
  rep_transferred : Z;
  rep_data : list Z
}.

(** The libusb calls the embedded functions make, with the device handle
    they are made on.  [payload] is what an OUT transfer carries and is
    empty for an IN transfer. *)
Inductive usb_event :=
| LibusbClose (dev : nat)
| LibusbExit (ctx : nat)
| ControlTransfer (dev : nat) (bmRequestType bRequest : Z)
                  (payload : list Z) (wLength : nat) (ret : Z)
| BulkTransfer (dev : nat) (endpoint : Z)
               (payload : list Z) (length : nat) (ret : Z).

Record world := mk_world {
  usb_context : option nat;       (* static libusb_context* usb_context *)
  device_handle : option nat;     (* static libusb_device_handle* device_handle *)
  is_initialized : bool;          (* static int is_initialized *)
  usb_replies : list usb_reply;   (* completions the USB stack will deliver, in order *)
  stack_junk : list Z;            (* indeterminate content of uninitialised locals *)
  usb_log : list usb_event        (* libusb calls made so far, oldest first *)
}.

Definition set_usb_context (c : option nat) (w : world) : world :=
  mk_world c (device_handle w) (is_initialized w) (usb_replies w) (stack_junk w) (usb_log w).
Definition set_device_handle (h : option nat) (w : world) : world :=
  mk_world (usb_context w) h (is_initialized w) (usb_replies w) (stack_junk w) (usb_log w).
Definition set_is_initialized (b : bool) (w : world) : world :=
  mk_world (usb_context w) (device_handle w) b (usb_replies w) (stack_junk w) (usb_log w).
Definition set_usb_replies (rs : list usb_reply) (w : world) : world :=
  mk_world (usb_context w) (device_handle w) (is_initialized w) rs (stack_junk w) (usb_log w).
Definition log_event (e : usb_event) (w : world) : world :=
  mk_world (usb_context w) (device_handle w) (is_initialized w) (usb_replies w)
           (stack_junk w) (usb_log w ++ [e]).

(** ** Outcomes *)

Inductive fault :=
| DivisionByZero        (* unsigned division by zero *)
| OutOfBounds           (* memcpy past the end of its source or destination *)
| SignedOverflow        (* int incremented past INT_MAX *)
| ManagedException      (* an exception thrown by the managed runtime *)
| OutOfFuel.            (* the loop bound handed to the model was too small *)

Inductive result (A : Type) :=
| Ok (a : A) (w : world)
| Undefined (f : fault).
Arguments Ok {A} a w.
Arguments Undefined {A} f.

Definition M (A : Type) : Type := world -> result A.

Definition ret {A} (a : A) : M A := fun w => Ok a w.
Definition bind {A B} (m : M A) (k : A -> M B) : M B :=
  fun w => match m w with
           | Ok a w' => k a w'
           | Undefined f => Undefined f
           end.
Definition undefined {A} (f : fault) : M A := fun _ => Undefined f.
Definition gets {A} (p : world -> A) : M A := fun w => Ok (p w) w.
Definition modify (f : world -> world) : M unit := fun w => Ok tt (f w).

Notation "x <- m ;; k" := (bind m (fun x => k))
  (at level 61, m at next level, right associativity).
Notation "' p <- m ;; k" := (bind m (fun x => let p := x in k))
  (at level 61, p pattern, m at next level, right associativity).

(** ** Memory helpers *)

(** [new] written over the beginning of [old]. *)
Definition overlay (new old : list Z) : list Z :=
  new ++ skipn (length new) old.

(** [memcpy(dst, src, n)]: the new content of [dst], or nothing when the
    copy would leave either array. *)
Definition memcpy (dst src : list Z) (n : nat) : option (list Z) :=
  if (n <=? length src)%nat && (n <=? length dst)%nat
  then Some (firstn n src ++ skipn n dst)
  else None.

(** Storage of an automatic variable declared without initialiser. *)
Definition uninitialized (n : nat) : M (list Z) :=
  gets (fun w => firstn n (stack_junk w ++ repeat 0 n)).

Definition uninitialized_scalar : M Z :=
  gets (fun w => hd 0 (stack_junk w)).

(** ** libusb primitives *)

(** What a transfer yields once the script is exhausted: nothing is
    pending, the call times out. *)
Definition timeout_reply : usb_reply := mk_reply LIBUSB_ERROR_TIMEOUT 0 [].

Definition head_reply (w : world) : usb_reply := hd timeout_reply (usb_replies w).
Definition after_reply (w : world) : world := set_usb_replies (tl (usb_replies w)) w.

Definition next_reply : M usb_reply :=
  fun w => Ok (head_reply w) (after_reply w).

Definition is_in (x : Z) : bool := negb (Z.land x USB_DIR_IN =? 0).

(** [libusb_control_transfer]: returns the byte count or a negative
    error, and the content of the data buffer after the call. *)
Definition libusb_control_transfer (dev : nat) (bmRequestType bRequest : Z)
    (buf : list Z) (wLength : nat) : M (Z * list Z) :=
  r <- next_reply ;;
  if is_in bmRequestType then
    _ <- modify (log_event (ControlTransfer dev bmRequestType bRequest [] wLength (rep_ret r))) ;;
    ret (rep_ret r, overlay (firstn wLength (rep_data r)) buf)
  else
    _ <- modify (log_event (ControlTransfer dev bmRequestType bRequest
                              (firstn wLength buf) wLength (rep_ret r))) ;;
    ret (rep_ret r, buf).

(** [libusb_bulk_transfer]: returns the status, the value stored through
    [transferred], and the content of the data buffer after the call. *)
Definition libusb_bulk_transfer (dev : nat) (endpoint : Z)
    (buf : list Z) (length : nat) : M (Z * Z * list Z) :=
  r <- next_reply ;;
  if is_in endpoint then
    _ <- modify (log_event (BulkTransfer dev endpoint [] length (rep_ret r))) ;;
    ret (rep_ret r, rep_transferred r, overlay (firstn length (rep_data r)) buf)
  else
    _ <- modify (log_event (BulkTransfer dev endpoint (firstn length buf) length (rep_ret r))) ;;
    ret (rep_ret r, rep_transferred r, buf).

(** ** Helper functions of usb_can_lib.c *)

Definition control_in (handle : nat) (request : Z) (data : list Z) (size : nat)
  : M (Z * list Z) :=
  libusb_control_transfer handle
    (Z.lor (Z.lor USB_DIR_IN USB_TYPE_VENDOR) USB_RECIP_INTERFACE)
    request data size.

Definition control_out (handle : nat) (request : Z) (data : list Z) (size : nat)
  : M Z :=
  '(r, _) <- libusb_control_transfer handle
               (Z.lor (Z.lor USB_DIR_OUT USB_TYPE_VENDOR) USB_RECIP_INTERFACE)
               request data size ;;
  ret r.

Definition data_in (handle : nat) (data : list Z) (size : nat) : M (Z * list Z) :=
  '(r, transferred, buf) <- libusb_bulk_transfer handle 129 data size ;;
  ret (if 0 <=? r then transferred else r, buf).

Definition data_out (handle : nat) (data : list Z) (size : nat) : M Z :=
  '(r, transferred, _) <- libusb_bulk_transfer handle 2 data size ;;
  ret (if 0 <=? r then transferred else r).

(** ** Exported functions of usb_can_lib.c *)

Definition libusb_close (dev : nat) : M unit := modify (log_event (LibusbClose dev)).
Definition libusb_exit (ctx : nat) : M unit := modify (log_event (LibusbExit ctx)).

Definition usb_can_cleanup : M unit :=
  h <- gets device_handle ;;
  _ <- match h with
       | Some dev => _ <- libusb_close dev ;; modify (set_device_handle None)
       | None => ret tt
       end ;;
  c <- gets usb_context ;;
  _ <- match c with
       | Some ctx => _ <- libusb_exit ctx ;; modify (set_usb_context None)
       | None => ret tt
       end ;;
  modify (set_is_initialized false).

(** The "Calculate bit timing for given bitrate" block: the divisor is
    the 32-bit product [bitrate * 16]. *)
Definition calc_bit_timing (bt_const : gs_device_bt_const) (bitrate : Z)
  : option gs_device_bittiming :=
  let divisor := u32 (bitrate * 16) in
  if divisor =? 0 then None
  else Some (mk_bittiming 0 13 2 1 (fclk_can bt_const / divisor)).

Definition usb_can_set_bitrate (bitrate : Z) : M Z :=
  h <- gets device_handle ;;
  match h with
  | None => ret (-1)
  | Some handle =>
      bt_const <- uninitialized sizeof_bt_const ;;
      '(r, bt_const) <- control_in handle GS_USB_BREQ_BT_CONST bt_const sizeof_bt_const ;;
      if r <? 0 then ret r else
      match calc_bit_timing (decode_bt_const bt_const) bitrate with
      | None => undefined DivisionByZero
      | Some bit_timing =>
          control_out handle GS_USB_BREQ_BITTIMING
                      (encode_bittiming bit_timing) sizeof_bittiming
      end
  end.

Definition usb_can_start (enable_loopback : Z) : M Z :=
  h <- gets device_handle ;;
  match h with
  | None => ret (-1)
  | Some handle =>
      let m := mk_mode GS_CAN_MODE_START
                 (if enable_loopback =? 0 then GS_CAN_MODE_HW_TIMESTAMP_FLAG
                  else Z.lor GS_CAN_MODE_HW_TIMESTAMP_FLAG GS_CAN_MODE_LOOP_BACK_FLAG) in
      control_out handle GS_USB_BREQ_MODE (encode_mode m) sizeof_mode
  end.

Definition usb_can_stop : M Z :=
  h <- gets device_handle ;;
  match h with
  | None => ret (-1)
  | Some handle =>
      let m := mk_mode GS_CAN_MODE_RESET 0 in
      control_out handle GS_USB_BREQ_MODE (encode_mode m) sizeof_mode
  end.

Definition usb_can_send_frame (can_id : Z) (data : option (list Z)) (length : Z)
  : M Z :=
  h <- gets device_handle ;;
  match h, data with
  | Some handle, Some bytes =>
      if 8 <? length then ret (-1) else
      match memcpy (repeat 0 8) bytes (Z.to_nat length) with
      | None => undefined OutOfBounds
      | Some frame_data =>
          let frame := mk_frame 0 can_id length 0 0 0 frame_data 0 in
          data_out handle (encode_frame frame) sizeof_host_frame
      end
  | _, _ => ret (-1)
  end.

(** The four output pointers of [usb_can_receive_frame] and what they
    point to. *)
Record rx_out := mk_rx_out {
  rx_can_id : option Z;
  rx_data : option (list Z);
  rx_length : option Z;
  rx_timestamp : option Z
}.

Definition usb_can_receive_frame (out : rx_out) : M (Z * rx_out) :=
  h <- gets device_handle ;;
  match h, rx_can_id out, rx_data out, rx_length out, rx_timestamp out with
  | Some handle, Some _, Some buf, Some _, Some _ =>
      '(r, raw) <- data_in handle (encode_frame zero_frame) sizeof_host_frame ;;
      if r <? 0 then ret (r, out) else
      let frame := decode_frame raw in
      match memcpy buf (data frame) (Z.to_nat (can_dlc frame)) with
      | None => undefined OutOfBounds
      | Some buf' =>
          ret (0, mk_rx_out (Some (can_id frame)) (Some buf')
                            (Some (can_dlc frame)) (Some (timestamp_us frame)))
      end
  | _, _, _, _, _ => ret (-1, out)
  end.

(** The do-while loop of [usb_can_purge_rx_queue]; [fuel] bounds the
    number of iterations. *)
Fixpoint purge_loop (fuel : nat) (handle : nat) (purged : Z) : M Z :=
  match fuel with
  | O => undefined OutOfFuel
  | S fuel' =>
      frame <- uninitialized sizeof_host_frame ;;
      '(r, _) <- data_in handle frame sizeof_host_frame ;;
      if 0 <=? r then
        if purged <? INT_MAX then purge_loop fuel' handle (purged + 1)
        else undefined SignedOverflow
      else ret purged
  end.

Definition usb_can_purge_rx_queue (fuel : nat) : M Z :=
  h <- gets device_handle ;;
  match h with
  | None => ret (-1)
  | Some handle => purge_loop fuel handle 0
  end.

(** Value a local variable holds, read back through the pointer that was
    passed for it. *)
Definition deref {A} (d : A) (p : option A) : A :=
  match p with Some v => v | None => d end.

Definition obd_request (pid : Z) : list Z := [2; 1; pid; 85; 85; 85; 85; 85].

Definition usb_can_read_obd_pid (pid : Z)
    (response_data : option (list Z)) (response_length : option Z)
  : M (Z * (option (list Z) * option Z)) :=
  h <- gets device_handle ;;
  match h, response_data, response_length with
  | Some _, Some resp, Some _ =>
      let request_data := obd_request pid in
      r <- usb_can_send_frame 2015 (Some request_data) 8 ;;
      if r <? 0 then ret (r, (response_data, response_length)) else
      can_id0 <- uninitialized_scalar ;;
      timestamp0 <- uninitialized_scalar ;;
      data0 <- uninitialized 8 ;;
      length0 <- uninitialized_scalar ;;
      let locals := mk_rx_out (Some can_id0) (Some data0) (Some length0) (Some timestamp0) in
      '(r, locals) <- usb_can_receive_frame locals ;;
      if r <? 0 then ret (r, (response_data, response_length)) else
      '(r, locals) <- usb_can_receive_frame locals ;;
      if r <? 0 then ret (r, (response_data, response_length)) else
      let data := deref [] (rx_data locals) in
      let length := deref 0 (rx_length locals) in
      if (3 <=? length) && (byte_at data 1 =? 65) && (byte_at data 2 =? pid) then
        let n := u8 (length - 3) in
        match memcpy resp (skipn 3 data) (Z.to_nat n) with
        | None => undefined OutOfBounds
        | Some resp' => ret (0, (Some resp', Some n))
        end
      else ret (-1, (response_data, response_length))
  | _, _, _ => ret (-1, (response_data, response_length))
  end.

(** ** OBD-II helper methods of the managed wrapper (UsbCanDevice) *)

Record UsbCanDevice := mk_device {
  IsConnected : bool
}.

Definition ReadObdPid (this : UsbCanDevice) (pid : Z) : M (option (list Z)) :=
  if negb (IsConnected this) then ret None else
  let responseData := repeat 0 8 in
  '(result, (responseData, responseLength)) <-
      usb_can_read_obd_pid pid (Some responseData) (Some 0) ;;
  if 0 <=? result then
    let n := Z.to_nat (deref 0 responseLength) in
    let source := deref [] responseData in
    (* Array.Copy throws when asked for more than the source holds *)
    if (n <=? Datatypes.length source)%nat then ret (Some (firstn n source))
    else undefined ManagedException
  else ret None.

(** [((data[0] << 8) + data[1]) / 4.0f]: the numerator is an integer
    below 65536 and the divisor a power of two, so the single-precision
    quotient is exact and a rational represents it. *)
Definition GetEngineRpm (this : UsbCanDevice) : M Q :=
  data <- ReadObdPid this 12 ;;
  match data with
  | Some d =>
      if (2 <=? Datatypes.length d)%nat
      then ret (Qmake (Z.shiftl (byte_at d 0) 8 + byte_at d 1) 4)
      else ret (inject_Z (-1))
  | None => ret (inject_Z (-1))
  end.

(** The test [(data[i / 8] & (0x80 >> (i & 7))) != 0]. *)
Definition pid_bit (data : list Z) (i : nat) : bool :=
  negb (Z.land (byte_at data (i / 8)) (Z.shiftr 128 (Z.land (Z.of_nat i) 7)) =? 0).

(** The inner loop over [i = 0 .. 31]: the PIDs it appends. *)
Definition decode_supported (baseId : Z) (data : list Z) : list Z :=
  map (fun i => baseId + Z.of_nat i) (filter (pid_bit data) (seq 0 32)).

(** The outer loop [for (baseId = 0; baseId < 96; baseId += 32)]. *)
Fixpoint supported_pids_loop (fuel : nat) (this : UsbCanDevice)
    (baseId : Z) (supportedPids : list Z) : M (list Z) :=
  match fuel with
  | O => undefined OutOfFuel
  | S fuel' =>
      if baseId <? 96 then
        data <- ReadObdPid this (u8 baseId) ;;
        let supportedPids :=
          match data with
          | Some d =>
              if (4 <=? Datatypes.length d)%nat
              then supportedPids ++ decode_supported baseId d
              else supportedPids
          | None => supportedPids
          end in
        supported_pids_loop fuel' this (baseId + 32) supportedPids
      else ret supportedPids
  end.

Definition GetSupportedPids (fuel : nat) (this : UsbCanDevice) : M (list Z) :=
  supported_pids_loop fuel this 0 [].

(** ** Ghost views of a world, used only in statements *)

(** The session is running when the device handle is open and the last
    mode command the device accepted was a start. *)
Definition is_mode_command (e : usb_event) : bool :=
  match e with
  | ControlTransfer _ t req _ _ r =>
      negb (is_in t) && (req =? GS_USB_BREQ_MODE) && (0 <=? r)
  | _ => false
  end.

Definition commands_start (e : usb_event) : bool :=
  match e with
  | ControlTransfer _ _ _ payload _ _ => rd32 payload 0 =? GS_CAN_MODE_START
  | _ => false
  end.

Definition last_mode_command (log : list usb_event) : option usb_event :=
  hd_error (rev (filter is_mode_command log)).

Definition session_running (w : world) : bool :=
  match device_handle w, last_mode_command (usb_log w) with
  | Some _, Some e => commands_start e
  | _, _ => false
  end.

(** Number of times [libusb_close] ran. *)
Definition is_close (e : usb_event) : bool :=
  match e with LibusbClose _ => true | _ => false end.

Definition close_count (w : world) : nat :=
  Datatypes.length (filter is_close (usb_log w)).

(** Number of handles currently open: what [libusb_close] is still owed. *)
Definition open_handles (w : world) : nat :=
  match device_handle w with Some _ => 1%nat | None => 0%nat end.

(** The CAN frames sent so far: identifier, dlc and data of every
    bulk-out transfer. *)
Definition sent_frame (e : usb_event) : option gs_host_frame :=
  match e with
  | BulkTransfer _ ep payload _ _ =>
      if is_in ep then None else Some (decode_frame payload)
  | _ => None
  end.

Fixpoint sent_frames (log : list usb_event) : list gs_host_frame :=
  match log with
  | [] => []
  | e :: log' =>
      match sent_frame e with
      | Some f => f :: sent_frames log'
      | None => sent_frames log'
      end
  end.

(** The PIDs asked for so far: byte 2 of every frame sent. *)
Definition queried_pids (w : world) : list Z :=
  map (fun f => byte_at (data f) 2) (sent_frames (usb_log w)).

(** ** Derived notions used in the statements *)

(** What [data_in] and [data_out] return for a completion. *)
Definition xfer_ret (r : usb_reply) : Z :=
  if 0 <=? rep_ret r then rep_transferred r else rep_ret r.

(** The frame object after a bulk-in completion was written over the
    zero-initialised [frame]. *)
Definition received (r : usb_reply) : gs_host_frame :=
  decode_frame (overlay (firstn sizeof_host_frame (rep_data r)) (encode_frame zero_frame)).

Definition bulk_in_event (h : nat) (r : usb_reply) : usb_event :=
  BulkTransfer h 129 [] sizeof_host_frame (rep_ret r).

Definition bulk_out_event (h : nat) (f : gs_host_frame) (r : usb_reply) : usb_event :=
  BulkTransfer h 2 (encode_frame f) sizeof_host_frame (rep_ret r).

(** The frame [usb_can_send_frame] builds. *)
Definition frame_to_send (can_id : Z) (bytes : list Z) (length : Z) : gs_host_frame :=
  mk_frame 0 can_id length 0 0 0
           (firstn (Z.to_nat length) bytes ++ skipn (Z.to_nat length) (repeat 0 8)) 0.

Definition request_frame (pid : Z) : gs_host_frame :=
  mk_frame 0 2015 8 0 0 0 (obd_request pid) 0.

(** The validity test of [usb_can_read_obd_pid] on the frame received
    second. *)
Definition obd_response_ok (pid : Z) (f : gs_host_frame) : bool :=
  (3 <=? can_dlc f) && (byte_at (data f) 1 =? 65) && (byte_at (data f) 2 =? pid).

(** Payload bytes 3 .. dlc-1 of a frame. *)
Definition obd_value (f : gs_host_frame) : list Z :=
  firstn (Z.to_nat (can_dlc f) - 3) (skipn 3 (data f)).

(** The world after the request for [pid] was handed to the transport,
    and the world after one more bulk-in transfer. *)
Definition after_send (h : nat) (pid : Z) (w : world) : world :=
  log_event (bulk_out_event h (request_frame pid) (head_reply w)) (after_reply w).

Definition after_receive (h : nat) (w : world) : world :=
  log_event (bulk_in_event h (head_reply w)) (after_reply w).

(** The constraints structure as [usb_can_set_bitrate] sees it after its
    control-in transfer. *)
Definition bt_const_read (w : world) : gs_device_bt_const :=
  decode_bt_const
    (overlay (firstn sizeof_bt_const (rep_data (head_reply w)))
             (firstn sizeof_bt_const (stack_junk w ++ repeat 0 sizeof_bt_const))).

Definition bt_const_event (h : nat) (r : usb_reply) : usb_event :=
  ControlTransfer h 193 GS_USB_BREQ_BT_CONST [] sizeof_bt_const (rep_ret r).

Definition bittiming_event (h : nat) (t : gs_device_bittiming) (r : usb_reply) : usb_event :=
  ControlTransfer h 65 GS_USB_BREQ_BITTIMING (encode_bittiming t) sizeof_bittiming (rep_ret r).

(** Whether a prescaler satisfies the min/max/increment the device
    reports. *)
Definition brp_allowed (c : gs_device_bt_const) (p : Z) : bool :=
  (brp_min c <=? p) && (p <=? brp_max c)
  && ((brp_inc c =? 0) || ((p - brp_min c) mod brp_inc c =? 0)).

Definition reset_event (h : nat) (r : usb_reply) : usb_event :=
  ControlTransfer h 65 GS_USB_BREQ_MODE (encode_mode (mk_mode GS_CAN_MODE_RESET 0))
                  sizeof_mode (rep_ret r).

(** [n] successive calls of [usb_can_cleanup]. *)
Fixpoint cleanup_times (n : nat) : M unit :=
  match n with
  | O => ret tt
  | S n' => _ <- usb_can_cleanup ;; cleanup_times n'
  end.

(** A caller of the library: any sequence of calls of the embedded
    exported functions. *)
Inductive api_call :=
| CallCleanup
| CallSetBitrate (bitrate : Z)
| CallStart (enable_loopback : Z)
| CallStop
| CallSendFrame (can_id : Z) (data : option (list Z)) (length : Z)
| CallReceiveFrame (out : rx_out)
| CallPurgeRxQueue (fuel : nat)
| CallReadObdPid (pid : Z) (response_data : option (list Z)) (response_length : option Z).

Definition world_after {A} (r : result A) : option world :=
  match r with
  | Ok _ w => Some w
  | Undefined _ => None
  end.

Definition run_call (c : api_call) (w : world) : option world :=
  match c with
  | CallCleanup => world_after (usb_can_cleanup w)
  | CallSetBitrate b => world_after (usb_can_set_bitrate b w)
  | CallStart l => world_after (usb_can_start l w)
  | CallStop => world_after (usb_can_stop w)
  | CallSendFrame i d n => world_after (usb_can_send_frame i d n w)
  | CallReceiveFrame out => world_after (usb_can_receive_frame out w)
  | CallPurgeRxQueue fuel => world_after (usb_can_purge_rx_queue fuel w)
  | CallReadObdPid pid d n => world_after (usb_can_read_obd_pid pid d n w)
  end.

Fixpoint run_calls (cs : list api_call) (w : world) : option world :=
  match cs with
  | [] => Some w
  | c :: cs' =>
      match run_call c w with
      | Some w' => run_calls cs' w'
      | None => None
      end
  end.

(** A computation that neither changes the device handle nor closes
    anything. *)
Definition keeps_handle {A} (m : M A) : Prop :=
  forall (w w' : world) (a : A),
    m w = Ok a w' ->
    device_handle w' = device_handle w /\ close_count w' = close_count w.

(** Number of completions at the head of the script on which [data_in]
    returns a nonnegative value. *)
Fixpoint pending_frames (rs : list usb_reply) : nat :=
  match rs with
  | [] => O
  | r :: rs' => if 0 <=? xfer_ret r then S (pending_frames rs') else O
  end.

(** The four bytes of a bitmap read as one big-endian 32-bit value. *)
Definition be32 (d : list Z) : Z :=
  Z.lor (Z.shiftl (byte_at d 0) 24)
        (Z.lor (Z.shiftl (byte_at d 1) 16)
               (Z.lor (Z.shiftl (byte_at d 2) 8) (byte_at d 3))).

(** What one iteration of the outer loop appends for the answer of its
    query. *)
Definition supported_in (baseId : Z) (answer : option (list Z)) : list Z :=
  match answer with
  | Some d => if (4 <=? Datatypes.length d)%nat then decode_supported baseId d else []
  | None => []
  end.

(** A completion whose dlc byte, if it is read as a frame, is at most 8. *)
Definition dlc_ok (r : usb_reply) : Prop := 0 <= byte_at (rep_data r) 8 <= 8.

(** ** Stubbed transports used as concrete instances *)

(** A session whose library is initialised and whose device is open, with
    nothing logged yet and the given completions pending. *)
Definition opened_world (script : list usb_reply) : world :=
  mk_world (Some 0%nat) (Some 1%nat) true script [] [].

(** A completed 24-byte bulk-out transfer. *)
Definition sent_reply : usb_reply := mk_reply 0 24 [].

(** A completed bulk-in transfer that delivers frame [f] in full. *)
Definition frame_reply (f : gs_host_frame) : usb_reply :=
  mk_reply 0 24 (encode_frame f).

(** The echo of the request for [pid]. *)
Definition echo_of (pid : Z) : gs_host_frame :=
  mk_frame 0 2015 8 0 0 0 [2; 1; pid; 85; 85; 85; 85; 85] 0.

(** The RPM response of the test scenario, with the given [can_dlc]. *)
Definition rpm_response (dlc : Z) : gs_host_frame :=
  mk_frame 4294967295 2024 dlc 0 0 0 [4; 65; 12; 26; 248; 0; 0; 0] 0.

Definition rpm_world (dlc : Z) : world :=
  opened_world [sent_reply; frame_reply (echo_of 12); frame_reply (rpm_response dlc)].

(** A frame as a CAN-FD capable or faulty adapter may deliver it: dlc 9. *)
Definition dlc9_frame : gs_host_frame :=
  mk_frame 4294967295 2024 9 0 0 0 [1; 2; 3; 4; 5; 6; 7; 8] 0.

(** Twenty bytes, the size of a gs_usb frame without its timestamp. *)
Definition short_reply : usb_reply :=
  mk_reply 0 20 (firstn 20 (encode_frame (rpm_response 5))).

(** A device that reports a 48 MHz clock and prescalers 1 .. 1024. *)
Definition candle_bt_const : gs_device_bt_const :=
  mk_bt_const 0 48000000 1 16 1 8 4 1 1024 1.

Definition bitrate_world : world :=
  opened_world [mk_reply 40 0 (encode_bt_const candle_bt_const); mk_reply 20 0 []].

(** The world a successful [usb_can_start(0)] leaves behind. *)
Definition started_world (script : list usb_reply) : world :=
  match usb_can_start 0 (opened_world (mk_reply 8 0 [] :: script)) with
  | Ok _ w => w
  | Undefined _ => opened_world script
  end.

(** Two frames pending, then an I/O error (LIBUSB_ERROR_IO = -1), then
    more traffic. *)
Definition purge_world : world :=
  opened_world [frame_reply (echo_of 12); frame_reply (rpm_response 5);
                mk_reply (-1) 0 []; frame_reply (rpm_response 5)].

(** A response carrying an all-ones bitmap for [pid]. *)
Definition bitmap_response (pid : Z) : gs_host_frame :=
  mk_frame 4294967295 2024 8 0 0 0 [6; 65; pid; 255; 255; 255; 255; 0] 0.

(** A vehicle that answers the queries for all six base PIDs in turn. *)
Definition six_ranges_world : world :=
  opened_world
    (flat_map (fun pid => [sent_reply; frame_reply (echo_of pid);
                           frame_reply (bitmap_response pid)])
              [0; 32; 64; 96; 128; 160]).

(** ** Further exported functions of usb_can_lib.c *)

Definition GS_CAN_IDENTIFY_OFF : Z := 0.
Definition GS_CAN_IDENTIFY_ON : Z := 1.

Definition LIBUSB_SUCCESS : Z := 0.

(** The libusb calls that are not transfers take their answers as
    inputs of the function that makes them. *)

(** [libusb_init]: its return value and the context it creates. *)
Record init_answer := mk_init_answer {
  init_ret : Z;
  init_ctx : nat
}.

(** The context is stored through the pointer only on success. *)
Definition libusb_init (ans : init_answer) : M Z :=
  if init_ret ans =? LIBUSB_SUCCESS
  then _ <- modify (set_usb_context (Some (init_ctx ans))) ;; ret (init_ret ans)
  else ret (init_ret ans).

Definition usb_can_init (ans : init_answer) : M Z :=
  i <- gets is_initialized ;;
  if i then ret 0 else
  r <- libusb_init ans ;;
  if r <? 0 then ret r else
  _ <- modify (set_is_initialized true) ;;
  ret 0.

(** One entry of the list [libusb_get_device_list] returns: what
    [libusb_get_device_descriptor] answers for it (return value and the
    two identifiers of the descriptor) and what [libusb_open] answers
    (return value and the handle stored on success). *)
Record usb_device := mk_usb_device {
  desc_ret : Z;
  idVendor : Z;
  idProduct : Z;
  open_ret : Z;
  open_handle : nat
}.

(** The loop [for (int i = 0; devs[i]; ++i)]; the value is [found]. *)
Fixpoint scan_devices (devs : list usb_device) : M bool :=
  match devs with
  | [] => ret false
  | d :: devs' =>
      if desc_ret d <? 0 then scan_devices devs'
      else if (idVendor d =? 7504) && (idProduct d =? 24687) then
        if open_ret d =? LIBUSB_SUCCESS
        then _ <- modify (set_device_handle (Some (open_handle d))) ;; ret true
        else scan_devices devs'
      else scan_devices devs'
  end.

(** [cnt] is what [libusb_get_device_list] returns and [devs] the list
    it stores. *)
Definition usb_can_open_device (cnt : Z) (devs : list usb_device) : M Z :=
  i <- gets is_initialized ;;
  if negb i then ret (-1) else
  if cnt <? 0 then ret cnt else
  found <- scan_devices devs ;;
  ret (if found : bool then 0 else -1).

(** The return values of [libusb_get_config_descriptor],
    [libusb_set_configuration], [libusb_claim_interface] and
    [libusb_set_interface_alt_setting]. *)
Record configure_answers := mk_configure_answers {
  get_config_ret : Z;
  set_configuration_ret : Z;
  claim_interface_ret : Z;
  set_alt_setting_ret : Z
}.

Definition usb_can_configure_device (ans : configure_answers) : M Z :=
  h <- gets device_handle ;;
  match h with
  | None => ret (-1)
  | Some handle =>
      if get_config_ret ans <? 0 then ret (get_config_ret ans) else
      if set_configuration_ret ans <? 0 then ret (set_configuration_ret ans) else
      if claim_interface_ret ans <? 0 then ret (claim_interface_ret ans) else
      if set_alt_setting_ret ans <? 0 then ret (set_alt_setting_ret ans) else
      let host_config := mk_host_config GS_CAN_CONFIG_BYTE_ORDER in
      r <- control_out handle GS_USB_BREQ_HOST_FORMAT
                       (encode_host_config host_config) sizeof_host_config ;;
      if r <? 0 then ret r else ret 0
  end.

Definition usb_can_get_device_info (p_hw_version p_sw_version : option Z)
  : M (Z * (option Z * option Z)) :=
  h <- gets device_handle ;;
  match h, p_hw_version, p_sw_version with
  | Some handle, Some _, Some _ =>
      device_config <- uninitialized sizeof_device_config ;;
      '(r, device_config) <- control_in handle GS_USB_BREQ_DEVICE_CONFIG
                                        device_config sizeof_device_config ;;
      if r <? 0 then ret (r, (p_hw_version, p_sw_version)) else
      let c := decode_device_config device_config in
      ret (0, (Some (hw_version c), Some (sw_version c)))
  | _, _, _ => ret (-1, (p_hw_version, p_sw_version))
  end.

Definition usb_can_identify (enable : Z) : M Z :=
  h <- gets device_handle ;;
  match h with
  | None => ret (-1)
  | Some handle =>
      let m := mk_identify_mode
                 (if enable =? 0 then GS_CAN_IDENTIFY_OFF else GS_CAN_IDENTIFY_ON) in
      control_out handle GS_USB_BREQ_IDENTIFY (encode_identify_mode m) sizeof_identify_mode
  end.

(** ** Further methods of the managed wrapper (UsbCanDevice) *)

(** The whole object: the connection flag the OBD-II helpers read, the
    two version properties and the dispose flag. *)
Record UsbCanObject := mk_object {
  connection : UsbCanDevice;
  HardwareVersion : Z;
  SoftwareVersion : Z;
  _disposed : bool
}.

Definition set_connected (b : bool) (o : UsbCanObject) : UsbCanObject :=
  mk_object (mk_device b) (HardwareVersion o) (SoftwareVersion o) (_disposed o).

(** The constructor: throws when [usb_can_init] fails. *)
Definition new_UsbCanDevice (ans : init_answer) : M UsbCanObject :=
  result <- usb_can_init ans ;;
  if result <? 0 then undefined ManagedException
  else ret (mk_object (mk_device false) 0 0 false).

(** All the libusb answers one [Connect] may need. *)
Record connect_answers := mk_connect_answers {
  list_ret : Z;
  list_devs : list usb_device;
  configure : configure_answers
}.

Definition Connect (this : UsbCanObject) (ans : connect_answers)
  : M (bool * UsbCanObject) :=
  if IsConnected (connection this) then ret (true, this) else
  result <- usb_can_open_device (list_ret ans) (list_devs ans) ;;
  if result <? 0 then ret (false, this) else
  result <- usb_can_configure_device (configure ans) ;;
  if result <? 0 then ret (false, this) else
  '(result, (hw_version, sw_version)) <- usb_can_get_device_info (Some 0) (Some 0) ;;
  if result <? 0 then ret (false, this) else
  ret (true, mk_object (mk_device true) (deref 0 hw_version) (deref 0 sw_version)
                       (_disposed this)).

Definition Disconnect (this : UsbCanObject) : M UsbCanObject :=
  if IsConnected (connection this)
  then _ <- usb_can_stop ;; ret (set_connected false this)
  else ret this.

Definition SetIdentify (this : UsbCanDevice) (enable : bool) : M bool :=
  if negb (IsConnected this) then ret false else
  r <- usb_can_identify (if enable then 1 else 0) ;;
  ret (0 <=? r).

Definition SetBitrate (this : UsbCanDevice) (bitrate : Z) : M bool :=
  if negb (IsConnected this) then ret false else
  r <- usb_can_set_bitrate bitrate ;;
  ret (0 <=? r).

Definition StartCan (this : UsbCanDevice) (enableLoopback : bool) : M bool :=
  if negb (IsConnected this) then ret false else
  r <- usb_can_start (if enableLoopback then 1 else 0) ;;
  ret (0 <=? r).

Definition StopCan (this : UsbCanDevice) : M bool :=
  if negb (IsConnected this) then ret false else
  r <- usb_can_stop ;;
  ret (0 <=? r).

Definition SendFrame (this : UsbCanDevice) (canId : Z) (data : option (list Z))
  : M bool :=
  match data with
  | None => ret false
  | Some bytes =>
      if negb (IsConnected this) || (8 <? Datatypes.length bytes)%nat then ret false else
      r <- usb_can_send_frame canId data (u8 (Z.of_nat (Datatypes.length bytes))) ;;
      ret (0 <=? r)
  end.

(** What [ReceiveFrame] hands back: its return value and the three
    [out] parameters. *)
Record received_frame := mk_received_frame {
  rf_ok : bool;
  rf_canId : Z;
  rf_data : option (list Z);
  rf_timestamp : Z
}.

Definition ReceiveFrame (this : UsbCanDevice) : M received_frame :=
  if negb (IsConnected this) then ret (mk_received_frame false 0 None 0) else
  let buffer := repeat 0 8 in
  '(result, out) <-
      usb_can_receive_frame (mk_rx_out (Some 0) (Some buffer) (Some 0) (Some 0)) ;;
  let canId := deref 0 (rx_can_id out) in
  let timestamp := deref 0 (rx_timestamp out) in
  if 0 <=? result then
    let n := Z.to_nat (deref 0 (rx_length out)) in
    let source := deref [] (rx_data out) in
    (* Array.Copy throws when asked for more than the source holds *)
    if (n <=? Datatypes.length source)%nat
    then ret (mk_received_frame true canId (Some (firstn n source)) timestamp)
    else undefined ManagedException
  else ret (mk_received_frame false canId None timestamp).

Definition PurgeReceiveQueue (fuel : nat) (this : UsbCanDevice) : M Z :=
  if negb (IsConnected this) then ret (-1) else usb_can_purge_rx_queue fuel.

Definition GetVehicleSpeed (this : UsbCanDevice) : M Z :=
  data <- ReadObdPid this 13 ;;
  match data with
  | Some d => if (1 <=? Datatypes.length d)%nat then ret (byte_at d 0) else ret (-1)
  | None => ret (-1)
  end.

Definition GetThrottlePosition (this : UsbCanDevice) : M Z :=
  data <- ReadObdPid this 17 ;;
  match data with
  | Some d =>
      if (1 <=? Datatypes.length d)%nat then ret (byte_at d 0 * 100 / 255) else ret (-1)
  | None => ret (-1)
  end.

(** [Dispose(bool disposing)]; [Dispose()] passes [true] and the
    finalizer [false]. *)
Definition Dispose_bool (disposing : bool) (this : UsbCanObject) : M UsbCanObject :=
  if _disposed this then ret this else
  this <- (if disposing then Disconnect this else ret this) ;;
  _ <- usb_can_cleanup ;;
  ret (mk_object (connection this) (HardwareVersion this) (SoftwareVersion this) true).

Definition Dispose (this : UsbCanObject) : M UsbCanObject := Dispose_bool true this.

(** ** Derived notions for the further properties *)

(** A device the scan accepts: its descriptor can be read, it carries
    the gs_usb identifiers and it can be opened. *)
Definition usable (d : usb_device) : bool :=
  (0 <=? desc_ret d) && (idVendor d =? 7504) && (idProduct d =? 24687)
  && (open_ret d =? LIBUSB_SUCCESS).

(** A caller of the whole library. *)
Inductive library_call :=
| Embedded (c : api_call)
| CallInit (ans : init_answer)
| CallOpenDevice (cnt : Z) (devs : list usb_device)
| CallConfigureDevice (ans : configure_answers)
| CallGetDeviceInfo (p_hw_version p_sw_version : option Z)
| CallIdentify (enable : Z).

Definition run_library_call (c : library_call) (w : world) : option world :=
  match c with
  | Embedded c' => run_call c' w
  | CallInit ans => world_after (usb_can_init ans w)
  | CallOpenDevice cnt devs => world_after (usb_can_open_device cnt devs w)
  | CallConfigureDevice ans => world_after (usb_can_configure_device ans w)
  | CallGetDeviceInfo hw sw => world_after (usb_can_get_device_info hw sw w)
  | CallIdentify enable => world_after (usb_can_identify enable w)
  end.

Fixpoint run_library_calls (cs : list library_call) (w : world) : option world :=
  match cs with
  | [] => Some w
  | c :: cs' =>
      match run_library_call c w with
      | Some w' => run_library_calls cs' w'
      | None => None
      end
  end.

Definition is_open_call (c : library_call) : bool :=
  match c with CallOpenDevice _ _ => true | _ => false end.

(** A device the scan opens, with the handle [libusb_open] stores. *)
Definition gs_usb_device (handle : nat) : usb_device :=
  mk_usb_device 0 7504 24687 0 handle.

(** A device of another kind, and a gs_usb device that is busy. *)
Definition other_device : usb_device := mk_usb_device 0 1133 49271 0 7%nat.
Definition busy_device : usb_device := mk_usb_device 0 7504 24687 (-6) 8%nat.

(** An initialised library that holds no device handle. *)
Definition initialised_world (script : list usb_reply) : world :=
  mk_world (Some 0%nat) None true script [] [].

(** A completion that delivers bytes. *)
Definition bytes_ok (r : usb_reply) : Prop := Forall is_u8 (rep_data r).

(** A response to the throttle query with the given reading. *)
Definition throttle_world (reading : Z) : world :=
  opened_world [sent_reply; frame_reply (echo_of 17);
                frame_reply (mk_frame 4294967295 2024 4 0 0 0
                                      [3; 65; 17; reading; 0; 0; 0; 0] 0)].

(** The [libusb_close] calls made so far, oldest first. *)
Definition closed_handles (w : world) : list usb_event := filter is_close (usb_log w).

(** The four libusb set-up steps of [usb_can_configure_device] all
    succeeded. *)
Definition steps_ok (ans : configure_answers) : bool :=
  (0 <=? get_config_ret ans) && (0 <=? set_configuration_ret ans)
  && (0 <=? claim_interface_ret ans) && (0 <=? set_alt_setting_ret ans).

(** The two control transfers of a [Connect]. *)
Definition host_format_event (h : nat) (r : usb_reply) : usb_event :=
  ControlTransfer h 65 GS_USB_BREQ_HOST_FORMAT [239; 190; 0; 0] 4 (rep_ret r).

Definition device_config_event (h : nat) (r : usb_reply) : usb_event :=
  ControlTransfer h 193 GS_USB_BREQ_DEVICE_CONFIG [] 12 (rep_ret r).

(** One adapter on the bus, every set-up step succeeding. *)
Definition one_adapter (handle : nat) : connect_answers :=
  mk_connect_answers 1 [gs_usb_device handle] (mk_configure_answers 0 0 0 0).

(** One adapter whose interface another program has claimed
    (LIBUSB_ERROR_BUSY = -6). *)
Definition claimed_adapter (handle : nat) : connect_answers :=
  mk_connect_answers 1 [gs_usb_device handle] (mk_configure_answers 0 0 (-6) 0).

(** A device-config record: hardware version 1, software version 2. *)
Definition candle_config : gs_device_config := mk_device_config 0 0 0 0 2 1.

(** The completions of the two control transfers of a [Connect]. *)
Definition connect_script : list usb_reply :=
  [mk_reply 4 0 []; mk_reply 12 0 (encode_device_config candle_config)].

(** The object the constructor returns, and a connected one. *)
Definition fresh_object : UsbCanObject := mk_object (mk_device false) 0 0 false.
Definition connected_object : UsbCanObject := mk_object (mk_device true) 1 2 false.

(** Every method of the wrapper that talks to the device fails on
    [other] in [w], and none makes a transfer or changes anything. *)
Definition wrapper_fails (other : UsbCanDevice) (w : world) : Prop :=
  (forall enable, SetIdentify other enable w = Ok false w)
  /\ (forall bitrate, SetBitrate other bitrate w = Ok false w)
  /\ (forall enableLoopback, StartCan other enableLoopback w = Ok false w)
  /\ StopCan other w = Ok false w
  /\ (forall canId bytes, SendFrame other canId bytes w = Ok false w)
  /\ ReceiveFrame other w = Ok (mk_received_frame false 0 None 0) w
  /\ (forall fuel, PurgeReceiveQueue fuel other w = Ok (-1) w)
  /\ (forall pid, ReadObdPid other pid w = Ok None w)
  /\ GetVehicleSpeed other w = Ok (-1) w
  /\ GetThrottlePosition other w = Ok (-1) w
  /\ GetEngineRpm other w = Ok (inject_Z (-1)) w.

(** * Properties *)

(** ** Codec lemmas *)

Lemma le32_sum (x : Z) :
  is_u32 x ->
  x mod 256 + 256 * ((x / 256) mod 256) + 65536 * ((x / 65536) mod 256)
  + 16777216 * ((x / 16777216) mod 256) = x.
Proof.
  unfold is_u32, UINT32_MOD. intros Hx.
  replace (x / 65536) with (x / 256 / 256) by (rewrite Z.div_div by lia; reflexivity).
  replace (x / 16777216) with (x / 256 / 256 / 256)
    by (rewrite !Z.div_div by lia; reflexivity).
  pose proof (Z.div_mod x 256 ltac:(lia)) as H0.
  pose proof (Z.div_mod (x / 256) 256 ltac:(lia)) as H1.
  pose proof (Z.div_mod (x / 256 / 256) 256 ltac:(lia)) as H2.
  pose proof (Z.div_mod (x / 256 / 256 / 256) 256 ltac:(lia)) as H3.
  assert (x / 256 / 256 / 256 / 256 = 0) as H4.
  { rewrite !Z.div_div by lia. apply Z.div_small. lia. }
  lia.
Qed.

Lemma rd32_le32 (x : Z) (rest : list Z) :
  is_u32 x -> rd32 (le32 x ++ rest) 0 = x.
Proof.
  intros Hx. unfold rd32, byte_at, le32. cbn [nth app Nat.add].
  rewrite <- (le32_sum x Hx) at 5. ring.
Qed.

Lemma rd32_skip_le32 (x : Z) (buf : list Z) (off : nat) :
  rd32 (le32 x ++ buf) (4 + off) = rd32 buf off.
Proof. reflexivity. Qed.

Lemma le32_length (x : Z) : Datatypes.length (le32 x) = 4%nat.
Proof. reflexivity. Qed.

Lemma decode_encode_bittiming (t : gs_device_bittiming) :
  valid_bittiming t -> decode_bittiming (encode_bittiming t) = t.
Proof.
  destruct t as [a b c d e]. unfold valid_bittiming. cbn [prop_seg phase_seg1 phase_seg2 sjw brp].
  intros (Ha & Hb & Hc & Hd & He).
  unfold decode_bittiming, encode_bittiming. cbn [prop_seg phase_seg1 phase_seg2 sjw brp].
  change 16%nat with (4 + (4 + (4 + (4 + 0))))%nat.
  change 12%nat with (4 + (4 + (4 + 0)))%nat.
  change 8%nat with (4 + (4 + 0))%nat.
  change 4%nat with (4 + 0)%nat.
  rewrite !rd32_skip_le32, !rd32_le32 by assumption.
  rewrite <- (app_nil_r (le32 e)), rd32_le32 by assumption.
  reflexivity.
Qed.

Lemma rd32_le32_last (x : Z) : is_u32 x -> rd32 (le32 x) 0 = x.
Proof.
  intros Hx. rewrite <- (app_nil_r (le32 x)). now apply rd32_le32.
Qed.

Lemma decode_encode_host_config (c : gs_host_config) :
  valid_host_config c -> decode_host_config (encode_host_config c) = c.
Proof.
  destruct c as [a]. unfold valid_host_config. cbn [byte_order]. intros Ha.
  unfold decode_host_config, encode_host_config. cbn [byte_order].
  now rewrite rd32_le32_last.
Qed.

Lemma decode_encode_identify_mode (m : gs_identify_mode) :
  valid_identify_mode m -> decode_identify_mode (encode_identify_mode m) = m.
Proof.
  destruct m as [a]. unfold valid_identify_mode. cbn [identify]. intros Ha.
  unfold decode_identify_mode, encode_identify_mode. cbn [identify].
  now rewrite rd32_le32_last.
Qed.

Lemma decode_encode_device_config (c : gs_device_config) :
  valid_device_config c -> decode_device_config (encode_device_config c) = c.
Proof.
  destruct c as [r1 r2 r3 n sv hv]. unfold valid_device_config.
  cbn [reserved1 reserved2 reserved3 icount sw_version hw_version].
  intros (_ & _ & _ & _ & Hs & Hh).
  unfold decode_device_config, encode_device_config.
  cbn [reserved1 reserved2 reserved3 icount sw_version hw_version].
  change (rd32 ([r1; r2; r3; n] ++ le32 sv ++ le32 hv) 4)
    with (rd32 (le32 sv ++ le32 hv) 0).
  change (rd32 ([r1; r2; r3; n] ++ le32 sv ++ le32 hv) 8)
    with (rd32 (le32 hv) 0).
  rewrite rd32_le32, rd32_le32_last by assumption.
  reflexivity.
Qed.

Lemma decode_encode_mode (m : gs_device_mode) :
  valid_mode m -> decode_mode (encode_mode m) = m.
Proof.
  destruct m as [a b]. unfold valid_mode. cbn [mode flags]. intros (Ha & Hb).
  unfold decode_mode, encode_mode. cbn [mode flags].
  rewrite rd32_le32 by assumption.
  change (rd32 (le32 a ++ le32 b) 4) with (rd32 (le32 b) 0).
  rewrite rd32_le32_last by assumption.
  reflexivity.
Qed.

Lemma decode_encode_bt_const (c : gs_device_bt_const) :
  valid_bt_const c -> decode_bt_const (encode_bt_const c) = c.
Proof.
  destruct c as [f0 f1 f2 f3 f4 f5 f6 f7 f8 f9]. unfold valid_bt_const.
  cbn [feature fclk_can tseg1_min tseg1_max tseg2_min tseg2_max sjw_max
       brp_min brp_max brp_inc].
  intros (H0 & H1 & H2 & H3 & H4 & H5 & H6 & H7 & H8 & H9).
  unfold decode_bt_const, encode_bt_const.
  cbn [feature fclk_can tseg1_min tseg1_max tseg2_min tseg2_max sjw_max
       brp_min brp_max brp_inc].
  repeat match goal with
  | |- context [rd32 (le32 ?x ++ ?buf) (S (S (S (S ?n))))] =>
      change (rd32 (le32 x ++ buf) (S (S (S (S n))))) with (rd32 buf n)
  end.
  rewrite !rd32_le32 by assumption.
  rewrite rd32_le32_last by assumption.
  reflexivity.
Qed.

Lemma decode_encode_frame (f : gs_host_frame) :
  valid_frame f -> decode_frame (encode_frame f) = f.
Proof.
  destruct f as [e i dlc ch fl rs d ts]. unfold valid_frame.
  cbn [echo_id can_id can_dlc channel frame_flags reserved data timestamp_us].
  intros (He & Hi & _ & _ & _ & _ & Hlen & _ & Hts).
  do 9 (destruct d as [|? d]; try discriminate Hlen). clear Hlen.
  unfold decode_frame, encode_frame.
  cbn [echo_id can_id can_dlc channel frame_flags reserved data timestamp_us].
  rewrite rd32_le32 by assumption.
  match goal with
  | |- context [rd32 (le32 e ++ ?buf) 4] =>
      change (rd32 (le32 e ++ buf) 4) with (rd32 buf 0)
  end.
  rewrite rd32_le32 by assumption.
  match goal with
  | |- context [rd32 ?buf 20] => change (rd32 buf 20) with (rd32 (le32 ts) 0)
  end.
  rewrite rd32_le32_last by assumption.
  reflexivity.
Qed.

(** Validity of a concrete record. *)
Ltac solve_valid :=
  unfold valid_frame, valid_bittiming, valid_bt_const, valid_mode,
         valid_host_config, valid_device_config, valid_identify_mode,
         is_u32, is_u8, UINT32_MOD, UINT8_MOD;
  cbn;
  repeat (split; try lia);
  repeat (constructor; try (cbv beta; lia)).

Lemma encode_frame_length (f : gs_host_frame) :
  Datatypes.length (data f) = 8%nat ->
  Datatypes.length (encode_frame f) = sizeof_host_frame.
Proof.
  intros H. unfold encode_frame. rewrite !length_app, !le32_length, H. reflexivity.
Qed.

(** ** Equations of the transfer helpers *)

Lemma data_in_eq (h : nat) (buf : list Z) (size : nat) (w : world) :
  data_in h buf size w =
  Ok (xfer_ret (head_reply w), overlay (firstn size (rep_data (head_reply w))) buf)
     (log_event (BulkTransfer h 129 [] size (rep_ret (head_reply w))) (after_reply w)).
Proof. reflexivity. Qed.

Lemma data_out_eq (h : nat) (buf : list Z) (size : nat) (w : world) :
  data_out h buf size w =
  Ok (xfer_ret (head_reply w))
     (log_event (BulkTransfer h 2 (firstn size buf) size (rep_ret (head_reply w)))
                (after_reply w)).
Proof. reflexivity. Qed.

Lemma control_out_eq (h : nat) (req : Z) (buf : list Z) (size : nat) (w : world) :
  control_out h req buf size w =
  Ok (rep_ret (head_reply w))
     (log_event (ControlTransfer h 65 req (firstn size buf) size (rep_ret (head_reply w)))
                (after_reply w)).
Proof. reflexivity. Qed.

Lemma control_in_eq (h : nat) (req : Z) (buf : list Z) (size : nat) (w : world) :
  control_in h req buf size w =
  Ok (rep_ret (head_reply w), overlay (firstn size (rep_data (head_reply w))) buf)
     (log_event (ControlTransfer h 193 req [] size (rep_ret (head_reply w)))
                (after_reply w)).
Proof. reflexivity. Qed.

Lemma bind_eq {A B} (m : M A) (k : A -> M B) (w w' : world) (a : A) :
  m w = Ok a w' -> bind m k w = k a w'.
Proof. intros H. unfold bind. now rewrite H. Qed.

Lemma firstn_encode_frame (f : gs_host_frame) :
  Datatypes.length (data f) = 8%nat ->
  firstn sizeof_host_frame (encode_frame f) = encode_frame f.
Proof.
  intros H. apply firstn_all2. rewrite encode_frame_length by exact H. apply Nat.le_refl.
Qed.

(** ** Bytes of a partly overwritten zero buffer *)

Lemma nth_repeat_zero (n i : nat) : nth i (repeat 0 n) 0 = 0.
Proof.
  revert i. induction n as [|n IH]; intros [|i]; cbn; auto.
Qed.

Lemma nth_skipn_zero (n k i : nat) : nth i (skipn k (repeat 0 n)) 0 = 0.
Proof.
  rewrite nth_skipn. apply nth_repeat_zero.
Qed.

Lemma byte_at_overlay_zero (new : list Z) (n i : nat) :
  byte_at (overlay new (repeat 0 n)) i = byte_at new i.
Proof.
  unfold byte_at, overlay.
  destruct (Nat.lt_ge_cases i (Datatypes.length new)) as [Hlt | Hge].
  - now rewrite app_nth1.
  - rewrite app_nth2 by exact Hge. rewrite nth_skipn_zero.
    symmetry. now apply nth_overflow.
Qed.

Lemma byte_at_firstn (buf : list Z) (n i : nat) :
  (i < n)%nat -> byte_at (firstn n buf) i = byte_at buf i.
Proof.
  unfold byte_at. revert buf i. induction n as [|n IH]; intros buf i Hi; [lia|].
  destruct buf as [|b buf]; [now destruct i|].
  destruct i as [|i]; cbn; [reflexivity|]. apply IH. lia.
Qed.

Lemma zero_frame_bytes : encode_frame zero_frame = repeat 0 24.
Proof. reflexivity. Qed.

(** A received field is the corresponding byte of what the device
    delivered, and 0 where the transfer fell short. *)
Lemma received_byte (r : usb_reply) (i : nat) :
  (i < 24)%nat ->
  byte_at (overlay (firstn sizeof_host_frame (rep_data r)) (encode_frame zero_frame)) i
  = byte_at (rep_data r) i.
Proof.
  intros Hi. rewrite zero_frame_bytes, byte_at_overlay_zero.
  now apply byte_at_firstn.
Qed.

Lemma received_can_dlc (r : usb_reply) :
  can_dlc (received r) = byte_at (rep_data r) 8.
Proof. unfold received, decode_frame. cbn [can_dlc]. apply received_byte. lia. Qed.

Lemma received_data_length (r : usb_reply) :
  Datatypes.length (data (received r)) = 8%nat.
Proof. reflexivity. Qed.

(** ** Equations of send_frame and receive_frame *)

Lemma memcpy_ok (dst src : list Z) (n : nat) :
  (n <= Datatypes.length src)%nat -> (n <= Datatypes.length dst)%nat ->
  memcpy dst src n = Some (firstn n src ++ skipn n dst).
Proof.
  intros Hs Hd. unfold memcpy.
  apply Nat.leb_le in Hs. apply Nat.leb_le in Hd. now rewrite Hs, Hd.
Qed.

Lemma memcpy_overrun (dst src : list Z) (n : nat) :
  (Datatypes.length src < n)%nat -> memcpy dst src n = None.
Proof.
  intros Hs. unfold memcpy.
  apply Nat.leb_gt in Hs. now rewrite Hs.
Qed.

Lemma frame_to_send_data_length (can_id : Z) (bytes : list Z) (len : Z) :
  0 <= len <= 8 -> (Z.to_nat len <= Datatypes.length bytes)%nat ->
  Datatypes.length (data (frame_to_send can_id bytes len)) = 8%nat.
Proof.
  intros Hl Hb. cbn [frame_to_send data].
  rewrite length_app, length_firstn, length_skipn, repeat_length. lia.
Qed.

Lemma send_frame_null_handle (can_id : Z) (bytes : option (list Z)) (len : Z) (w : world) :
  device_handle w = None -> usb_can_send_frame can_id bytes len w = Ok (-1) w.
Proof.
  intros Hh. unfold usb_can_send_frame, bind, gets. now rewrite Hh.
Qed.

Lemma send_frame_null_data (can_id len : Z) (w : world) :
  usb_can_send_frame can_id None len w = Ok (-1) w.
Proof.
  unfold usb_can_send_frame, bind, gets. now destruct (device_handle w).
Qed.

Lemma send_frame_too_long (can_id : Z) (bytes : option (list Z)) (len : Z) (w : world) :
  8 < len -> usb_can_send_frame can_id bytes len w = Ok (-1) w.
Proof.
  intros Hl. unfold usb_can_send_frame, bind, gets.
  destruct (device_handle w); [|reflexivity].
  destruct bytes; [|reflexivity].
  apply Z.ltb_lt in Hl. now rewrite Hl.
Qed.

Lemma send_frame_eq (can_id : Z) (bytes : list Z) (len : Z) (w : world) (h : nat) :
  device_handle w = Some h ->
  0 <= len <= 8 -> (Z.to_nat len <= Datatypes.length bytes)%nat ->
  usb_can_send_frame can_id (Some bytes) len w =
  Ok (xfer_ret (head_reply w))
     (log_event (bulk_out_event h (frame_to_send can_id bytes len) (head_reply w))
                (after_reply w)).
Proof.
  intros Hh Hl Hb. unfold usb_can_send_frame, bind at 1, gets. rewrite Hh.
  assert ((8 <? len) = false) as -> by (apply Z.ltb_ge; lia).
  rewrite memcpy_ok by (rewrite ?repeat_length; lia).
  rewrite data_out_eq. unfold bulk_out_event.
  change (mk_frame 0 can_id len 0 0 0 _ 0) with (frame_to_send can_id bytes len).
  rewrite firstn_encode_frame by (now apply frame_to_send_data_length).
  reflexivity.
Qed.

Lemma receive_frame_null_handle (out : rx_out) (w : world) :
  device_handle w = None -> usb_can_receive_frame out w = Ok (-1, out) w.
Proof.
  intros Hh. unfold usb_can_receive_frame, bind, gets. now rewrite Hh.
Qed.

Lemma receive_frame_eq (a b c : Z) (buf : list Z) (w : world) (h : nat) :
  device_handle w = Some h ->
  usb_can_receive_frame (mk_rx_out (Some a) (Some buf) (Some b) (Some c)) w =
  let r := head_reply w in
  let w' := log_event (bulk_in_event h r) (after_reply w) in
  if xfer_ret r <? 0 then Ok (xfer_ret r, mk_rx_out (Some a) (Some buf) (Some b) (Some c)) w'
  else match memcpy buf (data (received r)) (Z.to_nat (can_dlc (received r))) with
       | None => Undefined OutOfBounds
       | Some buf' =>
           Ok (0, mk_rx_out (Some (can_id (received r))) (Some buf')
                            (Some (can_dlc (received r)))
                            (Some (timestamp_us (received r)))) w'
       end.
Proof.
  intros Hh. unfold usb_can_receive_frame, bind at 1, gets. rewrite Hh.
  cbn [rx_can_id rx_data rx_length rx_timestamp].
  unfold bind. rewrite data_in_eq. cbv zeta.
  fold (received (head_reply w)). fold (bulk_in_event h (head_reply w)).
  destruct (xfer_ret (head_reply w) <? 0); [reflexivity|].
  destruct (memcpy buf _ _); reflexivity.
Qed.

(** ** Equation of read_obd_pid on a completed exchange *)

Lemma byte_at_app_firstn (src rest : list Z) (n i : nat) :
  (i < n)%nat -> (n <= Datatypes.length src)%nat ->
  byte_at (firstn n src ++ rest) i = byte_at src i.
Proof.
  intros Hi Hn. unfold byte_at.
  rewrite app_nth1 by (rewrite length_firstn; lia).
  now apply byte_at_firstn.
Qed.

Lemma firstn_skipn_app_firstn (src rest : list Z) (n k : nat) :
  (k <= n)%nat -> (n <= Datatypes.length src)%nat ->
  firstn (n - k) (skipn k (firstn n src ++ rest)) = firstn (n - k) (skipn k src).
Proof.
  intros Hk Hn.
  rewrite skipn_app, length_firstn.
  replace (k - Nat.min n (Datatypes.length src))%nat with 0%nat by lia.
  rewrite skipn_firstn_comm. cbn [skipn].
  rewrite firstn_app, length_firstn, length_skipn.
  replace (n - k - Nat.min (n - k) (Datatypes.length src - k))%nat with 0%nat by lia.
  cbn [firstn]. rewrite app_nil_r.
  rewrite firstn_firstn. now rewrite Nat.min_id.
Qed.

Lemma after_send_fields (h : nat) (pid : Z) (w : world) :
  usb_replies (after_send h pid w) = tl (usb_replies w)
  /\ usb_log (after_send h pid w)
     = usb_log w ++ [bulk_out_event h (request_frame pid) (head_reply w)]
  /\ device_handle (after_send h pid w) = device_handle w.
Proof. repeat split. Qed.

Lemma after_receive_fields (h : nat) (w : world) :
  usb_replies (after_receive h w) = tl (usb_replies w)
  /\ usb_log (after_receive h w) = usb_log w ++ [bulk_in_event h (head_reply w)]
  /\ device_handle (after_receive h w) = device_handle w.
Proof. repeat split. Qed.

(** The three completions an exchange meets when the script starts with
    them. *)
Lemma exchange_heads (h : nat) (pid : Z) (w : world)
    (r_out r_echo r_resp : usb_reply) (rest : list usb_reply) :
  usb_replies w = r_out :: r_echo :: r_resp :: rest ->
  head_reply w = r_out
  /\ head_reply (after_send h pid w) = r_echo
  /\ head_reply (after_receive h (after_send h pid w)) = r_resp
  /\ usb_replies (after_receive h (after_receive h (after_send h pid w))) = rest.
Proof.
  intros Hs.
  destruct (after_send_fields h pid w) as (R1 & _).
  destruct (after_receive_fields h (after_send h pid w)) as (R2 & _).
  destruct (after_receive_fields h (after_receive h (after_send h pid w))) as (R3 & _).
  unfold head_reply. rewrite R3, R2, R1, Hs. cbn [tl hd]. repeat split.
Qed.

Section Exchange.

Variables (w : world) (h : nat) (pid : Z) (resp : list Z) (len0 : Z).

Hypothesis handle_open : device_handle w = Some h.

Lemma exchange_send :
  usb_can_send_frame 2015 (Some (obd_request pid)) 8 w
  = Ok (xfer_ret (head_reply w)) (after_send h pid w).
Proof.
  rewrite (send_frame_eq _ _ _ _ h handle_open) by (cbn; lia). reflexivity.
Qed.

(** The frames the two receives meet, if they are reached, are CAN
    frames, and the caller's buffer has room for a value. *)
Hypothesis echo_dlc :
  0 <= can_dlc (received (head_reply (after_send h pid w))) <= 8.
Hypothesis resp_dlc :
  0 <= can_dlc (received (head_reply (after_receive h (after_send h pid w)))) <= 8.
Hypothesis resp_room : (5 <= Datatypes.length resp)%nat.

Lemma read_obd_pid_eq :
  let w1 := after_send h pid w in
  let w2 := after_receive h w1 in
  let w3 := after_receive h w2 in
  let f := received (head_reply w2) in
  usb_can_read_obd_pid pid (Some resp) (Some len0) w =
  if xfer_ret (head_reply w) <? 0
  then Ok (xfer_ret (head_reply w), (Some resp, Some len0)) w1
  else if xfer_ret (head_reply w1) <? 0
  then Ok (xfer_ret (head_reply w1), (Some resp, Some len0)) w2
  else if xfer_ret (head_reply w2) <? 0
  then Ok (xfer_ret (head_reply w2), (Some resp, Some len0)) w3
  else if obd_response_ok pid f
  then Ok (0, (Some (obd_value f ++ skipn (Z.to_nat (can_dlc f) - 3) resp),
               Some (can_dlc f - 3))) w3
  else Ok (-1, (Some resp, Some len0)) w3.
Proof.
  set (r0 := head_reply w).
  set (w1 := after_send h pid w) in *. set (r1 := head_reply w1) in *.
  set (w2 := after_receive h w1) in *. set (r2 := head_reply w2) in *.
  set (w3 := after_receive h w2). cbv zeta.
  unfold usb_can_read_obd_pid, bind at 1, gets. rewrite handle_open.
  rewrite (bind_eq _ _ _ _ _ exchange_send). fold r0 w1.
  destruct (xfer_ret r0 <? 0); [reflexivity|].
  unfold uninitialized_scalar, uninitialized.
  repeat (unfold bind at 1, gets).
  set (junk := firstn 8 (stack_junk w1 ++ repeat 0 8)).
  assert (Datatypes.length junk = 8%nat) as Hjunk.
  { unfold junk. rewrite length_firstn, length_app, repeat_length. lia. }
  assert (device_handle w1 = Some h) as Hh1 by exact handle_open.
  assert (device_handle w2 = Some h) as Hh2 by exact handle_open.
  rewrite (receive_frame_eq _ _ _ _ _ h Hh1). cbv zeta.
  fold r1. fold (after_receive h w1). fold w2.
  destruct (xfer_ret r1 <? 0) eqn:E1; [cbv beta iota; rewrite E1; reflexivity|].
  rewrite memcpy_ok by (rewrite ?received_data_length, ?Hjunk; lia).
  cbv beta iota.
  assert ((0 <? 0) = false) as -> by reflexivity.
  set (buf1 := firstn _ (data (received r1)) ++ skipn _ junk).
  assert (Datatypes.length buf1 = 8%nat) as Hbuf1.
  { unfold buf1. rewrite length_app, length_firstn, length_skipn,
      received_data_length, Hjunk. lia. }
  rewrite (receive_frame_eq _ _ _ _ _ h Hh2). cbv zeta.
  fold r2. fold (after_receive h w2). fold w3.
  destruct (xfer_ret r2 <? 0) eqn:E2; [cbv beta iota; rewrite E2; reflexivity|].
  rewrite memcpy_ok by (rewrite ?received_data_length, ?Hbuf1; lia).
  cbv beta iota.
  assert ((0 <? 0) = false) as -> by reflexivity.
  cbn [deref rx_data rx_length].
  set (f := received r2) in *.
  set (n := Z.to_nat (can_dlc f)).
  unfold obd_response_ok.
  destruct (3 <=? can_dlc f) eqn:Hlen; [|reflexivity].
  apply Z.leb_le in Hlen.
  rewrite !byte_at_app_firstn by (subst n f; rewrite ?received_data_length; lia).
  destruct (byte_at (data f) 1 =? 65); [|reflexivity].
  destruct (byte_at (data f) 2 =? pid); [|reflexivity].
  cbn [andb].
  assert (u8 (can_dlc f - 3) = can_dlc f - 3) as ->.
  { unfold u8, UINT8_MOD. apply Z.mod_small. lia. }
  replace (Z.to_nat (can_dlc f - 3)) with (n - 3)%nat by (subst n; lia).
  rewrite memcpy_ok.
  - rewrite firstn_skipn_app_firstn
      by (subst n f; rewrite ?received_data_length; lia).
    reflexivity.
  - rewrite length_skipn, length_app, length_firstn, length_skipn, Hbuf1.
    subst n f. rewrite received_data_length. lia.
  - subst n f. lia.
Qed.

End Exchange.

(** ** C1: the OBD-II query exchange *)

(** C1. With the device open, valid output buffers and a transport on
    which the send and both receives complete with CAN frames (dlc at
    most 8), [usb_can_read_obd_pid pid] performs exactly three transfers:
    one bulk-out of the frame with identifier 0x7DF, dlc 8 and payload
    [2, 1, pid, 0x55 x 5], then two bulk-ins.  The first frame received
    plays no part in the result.  The call returns 0 exactly when the
    second frame has length at least 3, byte 1 equal to 0x41 and byte 2
    equal to [pid]; it then stores payload bytes 3 .. length-1 and the
    length minus 3.  Otherwise it returns -1 and leaves both output
    buffers as they were. *)
Theorem read_obd_pid_exchange
    (w : world) (h : nat) (pid : Z) (resp : list Z) (len0 : Z)
    (r_out r_echo r_resp : usb_reply) (rest : list usb_reply) :
  device_handle w = Some h ->
  usb_replies w = r_out :: r_echo :: r_resp :: rest ->
  0 <= xfer_ret r_out -> 0 <= xfer_ret r_echo -> 0 <= xfer_ret r_resp ->
  0 <= can_dlc (received r_echo) <= 8 ->
  0 <= can_dlc (received r_resp) <= 8 ->
  (5 <= Datatypes.length resp)%nat ->
  let f := received r_resp in
  exists (code : Z) (outs : option (list Z) * option Z) (w' : world),
    usb_can_read_obd_pid pid (Some resp) (Some len0) w = Ok (code, outs) w'
    /\ usb_log w' =
       usb_log w ++
       [ BulkTransfer h 2
           (encode_frame (mk_frame 0 2015 8 0 0 0 [2; 1; pid; 85; 85; 85; 85; 85] 0))
           24 (rep_ret r_out);
         BulkTransfer h 129 [] 24 (rep_ret r_echo);
         BulkTransfer h 129 [] 24 (rep_ret r_resp) ]
    /\ (code = 0 <->
        3 <= can_dlc f /\ byte_at (data f) 1 = 65 /\ byte_at (data f) 2 = pid)
    /\ (code = 0 ->
        outs = (Some (firstn (Z.to_nat (can_dlc f) - 3) (skipn 3 (data f))
                      ++ skipn (Z.to_nat (can_dlc f) - 3) resp),
                Some (can_dlc f - 3)))
    /\ (code <> 0 -> code = -1 /\ outs = (Some resp, Some len0)).
Proof.
  intros Hh Hs Ho He Hr Hed Hrd Hroom f.
  destruct (exchange_heads h pid w r_out r_echo r_resp rest Hs) as (H0 & H1 & H2 & _).
  pose proof (read_obd_pid_eq w h pid resp len0 Hh) as Heq.
  cbv zeta in Heq. rewrite H0, H1, H2 in Heq.
  specialize (Heq Hed Hrd Hroom).
  assert ((xfer_ret r_out <? 0) = false) as E0 by (apply Z.ltb_ge; lia).
  assert ((xfer_ret r_echo <? 0) = false) as E1 by (apply Z.ltb_ge; lia).
  assert ((xfer_ret r_resp <? 0) = false) as E2 by (apply Z.ltb_ge; lia).
  rewrite E0, E1, E2 in Heq.
  fold f in Heq. unfold obd_response_ok in Heq.
  assert (usb_log (after_receive h (after_receive h (after_send h pid w)))
          = usb_log w ++
            [ BulkTransfer h 2 (encode_frame (request_frame pid)) 24 (rep_ret r_out);
              BulkTransfer h 129 [] 24 (rep_ret r_echo);
              BulkTransfer h 129 [] 24 (rep_ret r_resp) ]) as Hlog.
  { destruct (after_receive_fields h (after_receive h (after_send h pid w))) as (_ & L3 & _).
    destruct (after_receive_fields h (after_send h pid w)) as (_ & L2 & _).
    destruct (after_send_fields h pid w) as (_ & L1 & _).
    rewrite L3, L2, L1, H0, H1, H2, <- !app_assoc. reflexivity. }
  destruct (3 <=? can_dlc f) eqn:E3;
    [apply Z.leb_le in E3 | apply Z.leb_gt in E3];
  (destruct (byte_at (data f) 1 =? 65) eqn:E4;
    [apply Z.eqb_eq in E4 | apply Z.eqb_neq in E4]);
  (destruct (byte_at (data f) 2 =? pid) eqn:E5;
    [apply Z.eqb_eq in E5 | apply Z.eqb_neq in E5]);
  cbn [andb] in Heq;
  eexists; eexists; eexists; (split; [exact Heq|]); (split; [exact Hlog|]);
  repeat split; intros; try reflexivity; try lia; try tauto; try discriminate.
Qed.

(** C1, instance: the request for PID 0x0C answered by a 5-byte response. *)
Lemma read_obd_pid_exchange_witness :
  exists (code : Z) (outs : option (list Z) * option Z) (w' : world),
    usb_can_read_obd_pid 12 (Some (repeat 0 8)) (Some 0) (rpm_world 5)
    = Ok (code, outs) w'
    /\ code = 0 /\ outs = (Some [26; 248; 0; 0; 0; 0; 0; 0], Some 2).
Proof.
  destruct (read_obd_pid_exchange (rpm_world 5) 1 12 (repeat 0 8) 0
              sent_reply (frame_reply (echo_of 12)) (frame_reply (rpm_response 5)) []
              eq_refl eq_refl
              ltac:(vm_compute; discriminate) ltac:(vm_compute; discriminate)
              ltac:(vm_compute; discriminate)
              ltac:(vm_compute; split; discriminate)
              ltac:(vm_compute; split; discriminate)
              ltac:(vm_compute; lia))
    as (code & outs & w' & Hrun & _ & Hiff & Hok & _).
  exists code, outs, w'.
  assert (code = 0) as Hc by (apply Hiff; vm_compute; repeat split; discriminate).
  split; [exact Hrun|]. split; [exact Hc|]. exact (Hok Hc).
Defined.

(** ** C6: frame length at the public interface *)

Lemma received_eq_decode (r : usb_reply) :
  received r = decode_frame (firstn sizeof_host_frame (rep_data r)).
Proof.
  unfold received. rewrite zero_frame_bytes.
  unfold decode_frame, rd32, rd_bytes.
  rewrite !byte_at_overlay_zero.
  f_equal. apply map_ext. intros i. apply byte_at_overlay_zero.
Qed.

(** [usb_can_send_frame] never hands a frame longer than 8 bytes (or a
    null data pointer) to the transport. *)
Lemma send_frame_rejects (can_id : Z) (bytes : option (list Z)) (len : Z) (w : world) :
  bytes = None \/ 8 < len ->
  usb_can_send_frame can_id bytes len w = Ok (-1) w.
Proof.
  intros [-> | Hl].
  - apply send_frame_null_data.
  - now apply send_frame_too_long.
Qed.

(** A received frame whose dlc is at most 8 is returned with that length,
    and only its first dlc data bytes are copied. *)
Lemma receive_frame_in_range (a b c : Z) (buf : list Z) (w : world) (h : nat) :
  device_handle w = Some h ->
  0 <= xfer_ret (head_reply w) ->
  0 <= can_dlc (received (head_reply w)) <= 8 ->
  (8 <= Datatypes.length buf)%nat ->
  let f := received (head_reply w) in
  let n := Z.to_nat (can_dlc f) in
  usb_can_receive_frame (mk_rx_out (Some a) (Some buf) (Some b) (Some c)) w =
  Ok (0, mk_rx_out (Some (can_id f)) (Some (firstn n (data f) ++ skipn n buf))
                   (Some (can_dlc f)) (Some (timestamp_us f)))
     (log_event (bulk_in_event h (head_reply w)) (after_reply w)).
Proof.
  intros Hh Hr Hd Hb f n.
  rewrite (receive_frame_eq _ _ _ _ _ h Hh). cbv zeta.
  assert ((xfer_ret (head_reply w) <? 0) = false) as -> by (apply Z.ltb_ge; lia).
  rewrite memcpy_ok by (rewrite ?received_data_length; lia).
  reflexivity.
Qed.

(** A received frame whose dlc exceeds 8 makes [memcpy] run past the
    8-byte array [frame.data]. *)
Lemma receive_frame_overrun (a b c : Z) (buf : list Z) (w : world) (h : nat) :
  device_handle w = Some h ->
  0 <= xfer_ret (head_reply w) ->
  8 < can_dlc (received (head_reply w)) ->
  usb_can_receive_frame (mk_rx_out (Some a) (Some buf) (Some b) (Some c)) w =
  Undefined OutOfBounds.
Proof.
  intros Hh Hr Hd.
  rewrite (receive_frame_eq _ _ _ _ _ h Hh). cbv zeta.
  assert ((xfer_ret (head_reply w) <? 0) = false) as -> by (apply Z.ltb_ge; lia).
  rewrite memcpy_overrun by (rewrite received_data_length; lia).
  reflexivity.
Qed.

(** C6. Evaluation at the failing input: the device delivers a complete
    24-byte frame whose dlc byte is 9.  [usb_can_receive_frame] does not
    clamp the length to 8: its [memcpy] of 9 bytes leaves [frame.data] and
    the caller's 8-byte buffer. *)
Theorem receive_frame_dlc9_out_of_bounds :
  usb_can_receive_frame (mk_rx_out (Some 0) (Some (repeat 0 8)) (Some 0) (Some 0))
                        (opened_world [frame_reply dlc9_frame])
  = Undefined OutOfBounds.
Proof. reflexivity. Qed.

(** ** C5: the codec and the size of a transfer *)

(** C5, counterexample. A bulk-in transfer that delivers only 20 of the 24
    bytes of a frame is not rejected: [usb_can_receive_frame] returns 0
    and reports a frame. *)
Lemma short_transfer_accepted :
  (Datatypes.length (rep_data short_reply) < sizeof_host_frame)%nat
  /\ exists w',
      usb_can_receive_frame
        (mk_rx_out (Some 0) (Some (repeat 0 8)) (Some 0) (Some 0))
        (opened_world [short_reply])
      = Ok (0, mk_rx_out (Some 2024) (Some [4; 65; 12; 26; 248; 0; 0; 0])
                         (Some 5) (Some 0)) w'.
Proof.
  split; [vm_compute; lia|]. eexists. reflexivity.
Qed.

(** C5, as amended. Every frame and register record with valid field
    values is recovered from its memory representation.  No length is
    checked on the way in: whatever the number of bytes a successful
    bulk-in transfer delivers, [usb_can_receive_frame] returns 0 with the
    fields of the delivered bytes, those past the end of the transfer
    reading as zero. *)
Theorem codec_round_trip_without_size_check
    (f : gs_host_frame) (t : gs_device_bittiming) (k : gs_device_bt_const)
    (m : gs_device_mode) (hc : gs_host_config) (dc : gs_device_config)
    (im : gs_identify_mode) :
  valid_frame f -> valid_bittiming t -> valid_bt_const k -> valid_mode m ->
  valid_host_config hc -> valid_device_config dc -> valid_identify_mode im ->
  (decode_frame (encode_frame f) = f
   /\ decode_bittiming (encode_bittiming t) = t
   /\ decode_bt_const (encode_bt_const k) = k
   /\ decode_mode (encode_mode m) = m
   /\ decode_host_config (encode_host_config hc) = hc
   /\ decode_device_config (encode_device_config dc) = dc
   /\ decode_identify_mode (encode_identify_mode im) = im)
  /\ forall (w : world) (h : nat) (r : usb_reply) (rs : list usb_reply)
            (a b c : Z) (buf : list Z),
       device_handle w = Some h ->
       usb_replies w = r :: rs ->
       0 <= xfer_ret r ->
       0 <= byte_at (rep_data r) 8 <= 8 ->
       (8 <= Datatypes.length buf)%nat ->
       let g := decode_frame (firstn sizeof_host_frame (rep_data r)) in
       exists w',
         usb_can_receive_frame (mk_rx_out (Some a) (Some buf) (Some b) (Some c)) w
         = Ok (0, mk_rx_out (Some (can_id g))
                            (Some (firstn (Z.to_nat (can_dlc g)) (data g)
                                   ++ skipn (Z.to_nat (can_dlc g)) buf))
                            (Some (can_dlc g)) (Some (timestamp_us g))) w'.
Proof.
  intros Hf Ht Hk Hm Hhc Hdc Him. split.
  - repeat split.
    + now apply decode_encode_frame.
    + now apply decode_encode_bittiming.
    + now apply decode_encode_bt_const.
    + now apply decode_encode_mode.
    + now apply decode_encode_host_config.
    + now apply decode_encode_device_config.
    + now apply decode_encode_identify_mode.
  - intros w h r rs a b c buf Hh Hs Hr Hd Hb g.
    assert (head_reply w = r) as Hhead by (unfold head_reply; now rewrite Hs).
    pose proof (receive_frame_in_range a b c buf w h Hh) as Heq.
    rewrite Hhead in Heq.
    assert (0 <= can_dlc (received r) <= 8) as Hd'
      by (now rewrite received_can_dlc).
    specialize (Heq Hr Hd' Hb). cbv zeta in Heq.
    rewrite received_eq_decode in Heq.
    eexists. exact Heq.
Qed.

(** C5, instance: the RPM response frame, delivered in full and cut
    short after 20 bytes. *)
Lemma codec_round_trip_without_size_check_witness :
  decode_frame (encode_frame (rpm_response 5)) = rpm_response 5
  /\ exists w',
      usb_can_receive_frame
        (mk_rx_out (Some 0) (Some (repeat 0 8)) (Some 0) (Some 0))
        (opened_world [short_reply])
      = Ok (0, mk_rx_out (Some 2024) (Some [4; 65; 12; 26; 248; 0; 0; 0])
                         (Some 5) (Some 0)) w'.
Proof.
  destruct (codec_round_trip_without_size_check
              (rpm_response 5) (mk_bittiming 0 13 2 1 6) candle_bt_const (mk_mode 1 16)
              (mk_host_config 48879) (mk_device_config 0 0 0 0 2 1)
              (mk_identify_mode 1))
    as ((Hrt & _) & Hrx).
  - solve_valid.
  - solve_valid.
  - solve_valid.
  - solve_valid.
  - solve_valid.
  - solve_valid.
  - solve_valid.
  - split; [exact Hrt|].
    destruct (Hrx (opened_world [short_reply]) 1%nat short_reply [] 0 0 0 (repeat 0 8)
                eq_refl eq_refl
                ltac:(vm_compute; discriminate)
                ltac:(vm_compute; split; discriminate)
                ltac:(vm_compute; lia)) as (w' & Hw').
    exists w'. exact Hw'.
Defined.

(** ** C2 and C3: set_bitrate *)

Lemma set_bitrate_null_handle (bitrate : Z) (w : world) :
  device_handle w = None -> usb_can_set_bitrate bitrate w = Ok (-1) w.
Proof.
  intros Hh. unfold usb_can_set_bitrate, bind, gets. now rewrite Hh.
Qed.

Lemma set_bitrate_eq (bitrate : Z) (w : world) (h : nat) :
  device_handle w = Some h ->
  usb_can_set_bitrate bitrate w =
  let w1 := log_event (bt_const_event h (head_reply w)) (after_reply w) in
  if rep_ret (head_reply w) <? 0 then Ok (rep_ret (head_reply w)) w1
  else match calc_bit_timing (bt_const_read w) bitrate with
       | None => Undefined DivisionByZero
       | Some t =>
           Ok (rep_ret (head_reply w1))
              (log_event (bittiming_event h t (head_reply w1)) (after_reply w1))
       end.
Proof.
  intros Hh. unfold usb_can_set_bitrate, bind at 1, gets. rewrite Hh.
  unfold uninitialized, bind at 1, gets.
  unfold bind at 1. rewrite control_in_eq.
  fold (bt_const_read w). cbv zeta.
  change (ControlTransfer h 193 GS_USB_BREQ_BT_CONST [] sizeof_bt_const (rep_ret (head_reply w)))
    with (bt_const_event h (head_reply w)).
  destruct (rep_ret (head_reply w) <? 0); [reflexivity|].
  destruct (calc_bit_timing (bt_const_read w) bitrate) as [t|]; [|reflexivity].
  rewrite control_out_eq. reflexivity.
Qed.

Lemma calc_bit_timing_no_wrap (c : gs_device_bt_const) (bitrate : Z) :
  0 < bitrate -> bitrate * 16 < UINT32_MOD ->
  calc_bit_timing c bitrate = Some (mk_bittiming 0 13 2 1 (fclk_can c / (bitrate * 16))).
Proof.
  intros Hpos Hfit. unfold calc_bit_timing, u32.
  rewrite Z.mod_small by lia.
  assert ((bitrate * 16 =? 0) = false) as -> by (apply Z.eqb_neq; lia).
  reflexivity.
Qed.

(** C2. With the device open and the constraints read successfully, for
    every bitrate above 0 for which the computation is defined (the 32-bit
    product [bitrate * 16] is not 0), [usb_can_set_bitrate] next writes
    the bit-timing register with prop_seg 0, phase_seg1 13, phase_seg2 2,
    sjw 1 and brp the truncated quotient of the reported clock by that
    product, and returns the result of that write.  Whenever
    [bitrate * 16] fits 32 bits the product is exact and brp is
    [fclk_can / (bitrate * 16)]; a 48 MHz clock and 500000 bit/s give
    brp 6. *)
Theorem set_bitrate_writes_fixed_timing (w : world) (h : nat) (bitrate : Z) :
  device_handle w = Some h ->
  0 <= rep_ret (head_reply w) ->
  is_u32 (fclk_can (bt_const_read w)) ->
  0 < bitrate < UINT32_MOD ->
  u32 (bitrate * 16) <> 0 ->
  let t := mk_bittiming 0 13 2 1
             (Z.quot (fclk_can (bt_const_read w)) (u32 (bitrate * 16))) in
  (exists (code : Z) (w' : world),
     usb_can_set_bitrate bitrate w = Ok code w'
     /\ usb_log w' =
        usb_log w ++
        [ ControlTransfer h 193 GS_USB_BREQ_BT_CONST [] 40 (rep_ret (head_reply w));
          ControlTransfer h 65 GS_USB_BREQ_BITTIMING (encode_bittiming t) 20 code ])
  /\ decode_bittiming (encode_bittiming t) = t
  /\ (bitrate * 16 < UINT32_MOD ->
      brp t = Z.quot (fclk_can (bt_const_read w)) (bitrate * 16))
  /\ (fclk_can (bt_const_read w) = 48000000 -> bitrate = 500000 -> brp t = 6).
Proof.
  intros Hh Hr Hclk Hpos Hdiv t.
  assert (0 < u32 (bitrate * 16) < UINT32_MOD) as Hrange.
  { unfold u32 in *. pose proof (Z.mod_pos_bound (bitrate * 16) UINT32_MOD).
    unfold UINT32_MOD in *. lia. }
  assert (Z.quot (fclk_can (bt_const_read w)) (u32 (bitrate * 16))
          = fclk_can (bt_const_read w) / u32 (bitrate * 16)) as Hq
    by (apply Z.quot_div_nonneg; unfold is_u32 in Hclk; lia).
  split; [|split; [|split]].
  - rewrite (set_bitrate_eq bitrate w h Hh). cbv zeta.
    assert ((rep_ret (head_reply w) <? 0) = false) as -> by (apply Z.ltb_ge; lia).
    unfold calc_bit_timing.
    assert ((u32 (bitrate * 16) =? 0) = false) as -> by (now apply Z.eqb_neq).
    eexists. eexists. split; [reflexivity|].
    unfold t. rewrite Hq. cbn. rewrite <- app_assoc. reflexivity.
  - apply decode_encode_bittiming. unfold t, valid_bittiming, is_u32, UINT32_MOD in *.
    cbn [prop_seg phase_seg1 phase_seg2 sjw brp]. rewrite Hq. repeat split; try lia.
    + apply Z.div_pos; lia.
    + apply Z.div_lt_upper_bound; nia.
  - intros Hfit. unfold t. cbn [brp]. unfold u32.
    rewrite Z.mod_small by lia. reflexivity.
  - intros Hc Hb. unfold t. cbn [brp]. rewrite Hc, Hb. reflexivity.
Qed.

(** C2, instance: 500000 bit/s on a device with a 48 MHz clock. *)
Lemma set_bitrate_writes_fixed_timing_witness :
  exists (code : Z) (w' : world),
    usb_can_set_bitrate 500000 bitrate_world = Ok code w'
    /\ usb_log w' =
       [ ControlTransfer 1 193 4 [] 40 40;
         ControlTransfer 1 65 1 (encode_bittiming (mk_bittiming 0 13 2 1 6)) 20 code ].
Proof.
  destruct (set_bitrate_writes_fixed_timing bitrate_world 1 500000 eq_refl
              ltac:(vm_compute; discriminate)
              ltac:(vm_compute; split; [discriminate | reflexivity])
              ltac:(unfold UINT32_MOD; lia) ltac:(vm_compute; discriminate))
    as ((code & w' & Hrun & Hlog) & _ & _).
  exists code, w'. split; [exact Hrun|]. exact Hlog.
Defined.

(** At bitrate 0 the divisor is 0: the division is undefined and no
    error code is returned. *)
Lemma set_bitrate_zero_undefined (w : world) (h : nat) :
  device_handle w = Some h ->
  0 <= rep_ret (head_reply w) ->
  usb_can_set_bitrate 0 w = Undefined DivisionByZero.
Proof.
  intros Hh Hr. rewrite (set_bitrate_eq 0 w h Hh). cbv zeta.
  assert ((rep_ret (head_reply w) <? 0) = false) as -> by (apply Z.ltb_ge; lia).
  reflexivity.
Qed.

(** C3, counterexample. The device reports prescalers 1 .. 1024 and a
    48 MHz clock; at 4 Mbit/s the computed prescaler is 0, outside the
    constraints, yet the register is transmitted and the call returns the
    nonnegative result of the transfer. *)
Lemma set_bitrate_sends_disallowed_brp :
  brp_allowed (bt_const_read bitrate_world) 0 = false
  /\ exists w',
      usb_can_set_bitrate 4000000 bitrate_world = Ok 20 w'
      /\ usb_log w' =
         [ ControlTransfer 1 193 4 [] 40 40;
           ControlTransfer 1 65 1 (encode_bittiming (mk_bittiming 0 13 2 1 0)) 20 20 ].
Proof.
  split; [reflexivity|]. eexists. split; reflexivity.
Qed.

(** C3, as amended. [usb_can_set_bitrate] validates neither the bitrate
    nor the prescaler.  With the device open, the constraints read
    successfully and a nonzero 32-bit divisor [bitrate * 16], it always
    transmits the bit-timing register, with brp the quotient of the
    reported clock by that divisor whether or not it satisfies the
    reported min/max/increment, and it returns what the transfer
    returns. *)
Theorem set_bitrate_unvalidated (w : world) (h : nat) (bitrate : Z) (allowed : bool) :
  device_handle w = Some h ->
  0 <= rep_ret (head_reply w) ->
  u32 (bitrate * 16) <> 0 ->
  let p := fclk_can (bt_const_read w) / u32 (bitrate * 16) in
  brp_allowed (bt_const_read w) p = allowed ->
  let w1 := log_event (bt_const_event h (head_reply w)) (after_reply w) in
  usb_can_set_bitrate bitrate w =
  Ok (rep_ret (head_reply w1))
     (log_event (bittiming_event h (mk_bittiming 0 13 2 1 p) (head_reply w1))
                (after_reply w1)).
Proof.
  intros Hh Hr Hd p _ w1.
  rewrite (set_bitrate_eq bitrate w h Hh). cbv zeta.
  assert ((rep_ret (head_reply w) <? 0) = false) as -> by (apply Z.ltb_ge; lia).
  unfold calc_bit_timing.
  apply Z.eqb_neq in Hd. rewrite Hd. reflexivity.
Qed.

(** C3, instance: 4 Mbit/s on a device whose prescaler starts at 1. *)
Lemma set_bitrate_unvalidated_witness :
  exists w',
    usb_can_set_bitrate 4000000 bitrate_world = Ok 20 w'
    /\ usb_log w' =
       [ ControlTransfer 1 193 4 [] 40 40;
         ControlTransfer 1 65 1 (encode_bittiming (mk_bittiming 0 13 2 1 0)) 20 20 ].
Proof.
  eexists. split.
  - apply (set_bitrate_unvalidated bitrate_world 1 4000000 false eq_refl).
    + vm_compute. discriminate.
    + vm_compute. discriminate.
    + reflexivity.
  - reflexivity.
Defined.

(** ** C4: what the session operations check *)

Lemma stop_eq (w : world) (h : nat) :
  device_handle w = Some h ->
  usb_can_stop w =
  Ok (rep_ret (head_reply w)) (log_event (reset_event h (head_reply w)) (after_reply w)).
Proof.
  intros Hh. unfold usb_can_stop, bind, gets. rewrite Hh. reflexivity.
Qed.

Lemma stop_null_handle (w : world) :
  device_handle w = None -> usb_can_stop w = Ok (-1) w.
Proof.
  intros Hh. unfold usb_can_stop, bind, gets. now rewrite Hh.
Qed.

(** C4, counterexample. (1) A session that was never started is not
    running, yet [usb_can_send_frame] transmits and returns the 24 bytes
    transferred.  (2) A running session accepts [usb_can_set_bitrate].
    (3) In a session that is not running, [usb_can_stop] is not a no-op:
    it issues the reset command, and fails when that transfer fails. *)
Lemma session_state_not_enforced :
  (session_running (opened_world [sent_reply]) = false
   /\ exists w',
       usb_can_send_frame 2015 (Some (obd_request 12)) 8 (opened_world [sent_reply])
       = Ok 24 w')
  /\ (session_running (started_world (usb_replies bitrate_world)) = true
      /\ exists w',
          usb_can_set_bitrate 500000 (started_world (usb_replies bitrate_world))
          = Ok 20 w')
  /\ (session_running (opened_world []) = false
      /\ usb_can_stop (opened_world [])
         = Ok LIBUSB_ERROR_TIMEOUT
              (log_event (reset_event 1 timeout_reply) (after_reply (opened_world [])))).
Proof.
  repeat split; try reflexivity; eexists; vm_compute; reflexivity.
Qed.

(** C4, as amended. The library keeps no record of a running state; the
    only state the four operations test is the device handle.  With a
    null handle each returns -1 and does nothing.  With an open handle,
    whether the session is running or not, [usb_can_send_frame] (given
    data and a length of at most 8) and [usb_can_receive_frame] (given
    its four buffers and a frame of at most 8 bytes) perform their bulk
    transfer and return its outcome, [usb_can_set_bitrate] performs its
    transfers, and [usb_can_stop] issues the reset mode command and
    returns the result of that control transfer. *)
Theorem session_ops_check_handle_only
    (w : world) (handle : option nat) (running : bool) :
  device_handle w = handle ->
  session_running w = running ->
  match handle with
  | None =>
      (forall can_id bytes len, usb_can_send_frame can_id bytes len w = Ok (-1) w)
      /\ (forall out, usb_can_receive_frame out w = Ok (-1, out) w)
      /\ (forall bitrate, usb_can_set_bitrate bitrate w = Ok (-1) w)
      /\ usb_can_stop w = Ok (-1) w
  | Some h =>
      let r := head_reply w in
      (forall can_id bytes len,
         0 <= len <= 8 -> (Z.to_nat len <= Datatypes.length bytes)%nat ->
         usb_can_send_frame can_id (Some bytes) len w =
         Ok (xfer_ret r)
            (log_event (bulk_out_event h (frame_to_send can_id bytes len) r)
                       (after_reply w)))
      /\ (forall a b c buf,
            0 <= can_dlc (received r) <= 8 -> (8 <= Datatypes.length buf)%nat ->
            exists out,
              usb_can_receive_frame (mk_rx_out (Some a) (Some buf) (Some b) (Some c)) w =
              Ok (if xfer_ret r <? 0 then xfer_ret r else 0, out)
                 (log_event (bulk_in_event h r) (after_reply w)))
      /\ (forall bitrate,
            let w1 := log_event (bt_const_event h r) (after_reply w) in
            usb_can_set_bitrate bitrate w =
            if rep_ret r <? 0 then Ok (rep_ret r) w1
            else match calc_bit_timing (bt_const_read w) bitrate with
                 | None => Undefined DivisionByZero
                 | Some t =>
                     Ok (rep_ret (head_reply w1))
                        (log_event (bittiming_event h t (head_reply w1)) (after_reply w1))
                 end)
      /\ usb_can_stop w = Ok (rep_ret r) (log_event (reset_event h r) (after_reply w))
  end.
Proof.
  intros Hh _. destruct handle as [h|].
  - cbv zeta. split; [|split; [|split]].
    + intros can_id bytes len Hl Hb. now apply send_frame_eq.
    + intros a b c buf Hd Hb.
      rewrite (receive_frame_eq _ _ _ _ _ h Hh). cbv zeta.
      destruct (xfer_ret (head_reply w) <? 0); [eexists; reflexivity|].
      rewrite memcpy_ok by (rewrite ?received_data_length; lia).
      eexists. reflexivity.
    + intros bitrate. now apply set_bitrate_eq.
    + now apply stop_eq.
  - split; [|split; [|split]].
    + intros. now apply send_frame_null_handle.
    + intros. now apply receive_frame_null_handle.
    + intros. now apply set_bitrate_null_handle.
    + now apply stop_null_handle.
Qed.

(** C4, instance: a session that was opened and never started. *)
Lemma session_ops_check_handle_only_witness :
  session_running (opened_world [sent_reply]) = false
  /\ usb_can_send_frame 2015 (Some (obd_request 12)) 8 (opened_world [sent_reply])
     = Ok 24 (log_event (bulk_out_event 1 (request_frame 12) sent_reply)
                        (after_reply (opened_world [sent_reply])))
  /\ usb_can_stop (opened_world [sent_reply])
     = Ok 0 (log_event (reset_event 1 sent_reply) (after_reply (opened_world [sent_reply]))).
Proof.
  pose proof (session_ops_check_handle_only (opened_world [sent_reply]) (Some 1%nat)
                false eq_refl eq_refl) as (Hsend & _ & _ & Hstop).
  split; [reflexivity|]. split.
  - apply (Hsend 2015 (obd_request 12) 8); cbn; lia.
  - exact Hstop.
Defined.

(** ** What the transfers leave alone *)

Lemma keeps_handle_ret {A} (a : A) : keeps_handle (ret a).
Proof. intros w w' a' [= _ <-]. now split. Qed.

Lemma keeps_handle_undefined {A} (f : fault) : keeps_handle (@undefined A f).
Proof. intros w w' a H. discriminate H. Qed.

Lemma keeps_handle_gets {A} (p : world -> A) : keeps_handle (gets p).
Proof. intros w w' a [= _ <-]. now split. Qed.

Lemma keeps_handle_bind {A B} (m : M A) (k : A -> M B) :
  keeps_handle m -> (forall a, keeps_handle (k a)) -> keeps_handle (bind m k).
Proof.
  intros Hm Hk w w' b. unfold bind.
  destruct (m w) as [a w1|] eqn:E; [|discriminate].
  intros Hrun. destruct (Hm _ _ _ E) as (H1 & C1).
  destruct (Hk a _ _ _ Hrun) as (H2 & C2).
  split; congruence.
Qed.

Lemma keeps_handle_control_transfer (dev : nat) (t req : Z) (buf : list Z) (n : nat) :
  keeps_handle (libusb_control_transfer dev t req buf n).
Proof.
  intros w w' a. unfold libusb_control_transfer, bind, next_reply, modify, ret.
  destruct (is_in t); intros [= _ <-]; unfold close_count; cbn;
    rewrite filter_app, length_app; cbn; (split; [reflexivity | lia]).
Qed.

Lemma keeps_handle_bulk_transfer (dev : nat) (ep : Z) (buf : list Z) (n : nat) :
  keeps_handle (libusb_bulk_transfer dev ep buf n).
Proof.
  intros w w' a. unfold libusb_bulk_transfer, bind, next_reply, modify, ret.
  destruct (is_in ep); intros [= _ <-]; unfold close_count; cbn;
    rewrite filter_app, length_app; cbn; (split; [reflexivity | lia]).
Qed.

(** Decomposes a computation along its binds and case distinctions. *)
Ltac keeps_handle_step :=
  first
    [ apply keeps_handle_ret
    | apply keeps_handle_undefined
    | apply keeps_handle_gets
    | apply keeps_handle_control_transfer
    | apply keeps_handle_bulk_transfer
    | apply keeps_handle_bind; [|intros ?]
    | match goal with
      | |- keeps_handle (match ?x with _ => _ end) => destruct x
      | |- keeps_handle (if ?b then _ else _) => destruct b
      end ].

Lemma keeps_handle_set_bitrate (bitrate : Z) : keeps_handle (usb_can_set_bitrate bitrate).
Proof.
  unfold usb_can_set_bitrate, uninitialized, control_in, control_out.
  repeat keeps_handle_step.
Qed.

Lemma keeps_handle_start (l : Z) : keeps_handle (usb_can_start l).
Proof. unfold usb_can_start, control_out. repeat keeps_handle_step. Qed.

Lemma keeps_handle_stop : keeps_handle usb_can_stop.
Proof. unfold usb_can_stop, control_out. repeat keeps_handle_step. Qed.

Lemma keeps_handle_send_frame (i : Z) (d : option (list Z)) (n : Z) :
  keeps_handle (usb_can_send_frame i d n).
Proof. unfold usb_can_send_frame, data_out. repeat keeps_handle_step. Qed.

Lemma keeps_handle_receive_frame (out : rx_out) :
  keeps_handle (usb_can_receive_frame out).
Proof. unfold usb_can_receive_frame, data_in. repeat keeps_handle_step. Qed.

Lemma keeps_handle_purge_loop (fuel : nat) (h : nat) (purged : Z) :
  keeps_handle (purge_loop fuel h purged).
Proof.
  revert purged. induction fuel as [|fuel IH]; intros purged; cbn [purge_loop].
  - apply keeps_handle_undefined.
  - unfold uninitialized, data_in. repeat keeps_handle_step. apply IH.
Qed.

Lemma keeps_handle_purge_rx_queue (fuel : nat) :
  keeps_handle (usb_can_purge_rx_queue fuel).
Proof.
  unfold usb_can_purge_rx_queue. repeat keeps_handle_step.
  apply keeps_handle_purge_loop.
Qed.

Lemma keeps_handle_read_obd_pid (pid : Z) (d : option (list Z)) (n : option Z) :
  keeps_handle (usb_can_read_obd_pid pid d n).
Proof.
  unfold usb_can_read_obd_pid, uninitialized, uninitialized_scalar.
  repeat first [ apply keeps_handle_send_frame
               | apply keeps_handle_receive_frame
               | keeps_handle_step ].
Qed.

(** ** C9: cleanup *)

Lemma cleanup_total (w : world) :
  exists w1,
    usb_can_cleanup w = Ok tt w1
    /\ device_handle w1 = None /\ usb_context w1 = None /\ is_initialized w1 = false
    /\ close_count w1 =
       (close_count w + match device_handle w with Some _ => 1 | None => 0 end)%nat.
Proof.
  destruct w as [c dh i rs j l]. unfold close_count.
  destruct dh as [d|], c as [x|]; eexists; (split; [reflexivity|]); cbn;
    rewrite ?filter_app, ?length_app; cbn; repeat split; lia.
Qed.

Lemma cleanup_fixed_point (w : world) :
  device_handle w = None -> usb_context w = None -> is_initialized w = false ->
  usb_can_cleanup w = Ok tt w.
Proof.
  destruct w as [c dh i rs j l]. cbn. intros -> -> ->. reflexivity.
Qed.

Lemma cleanup_times_fixed_point (n : nat) (w : world) :
  device_handle w = None -> usb_context w = None -> is_initialized w = false ->
  cleanup_times n w = Ok tt w.
Proof.
  intros Hh Hc Hi. induction n as [|n IH]; [reflexivity|].
  cbn [cleanup_times]. unfold bind.
  rewrite cleanup_fixed_point by assumption. exact IH.
Qed.

(** Every call keeps the sum of the closes made and the handles still
    open; none opens a handle. *)
Lemma run_call_balance (c : api_call) (w w' : world) :
  run_call c w = Some w' ->
  (close_count w' + open_handles w' = close_count w + open_handles w)%nat
  /\ (device_handle w = None -> device_handle w' = None).
Proof.
  assert (forall A (m : M A), keeps_handle m ->
            world_after (m w) = Some w' ->
            (close_count w' + open_handles w' = close_count w + open_handles w)%nat
            /\ (device_handle w = None -> device_handle w' = None)) as Hkeep.
  { intros A m Hm Hrun. destruct (m w) as [a w1|] eqn:E; [|discriminate].
    cbn in Hrun. injection Hrun as ->.
    destruct (Hm _ _ _ E) as (Hh & Hc). unfold open_handles.
    rewrite Hh, Hc. split; [reflexivity | auto]. }
  destruct c; cbn [run_call].
  - intros Hrun. destruct (cleanup_total w) as (w1 & E & Hh & _ & _ & Hc).
    rewrite E in Hrun. cbn in Hrun. injection Hrun as <-.
    unfold open_handles. rewrite Hh, Hc. split; [lia | auto].
  - apply Hkeep, keeps_handle_set_bitrate.
  - apply Hkeep, keeps_handle_start.
  - apply Hkeep, keeps_handle_stop.
  - apply Hkeep, keeps_handle_send_frame.
  - apply Hkeep, keeps_handle_receive_frame.
  - apply Hkeep, keeps_handle_purge_rx_queue.
  - apply Hkeep, keeps_handle_read_obd_pid.
Qed.

Lemma run_calls_balance (cs : list api_call) :
  forall (w w' : world),
    run_calls cs w = Some w' ->
    (close_count w' + open_handles w' = close_count w + open_handles w)%nat
    /\ (device_handle w = None -> device_handle w' = None).
Proof.
  induction cs as [|c cs IH]; intros w w'; cbn [run_calls].
  - intros [= <-]. now split.
  - destruct (run_call c w) as [w1|] eqn:E; [|discriminate].
    intros Hrun. destruct (run_call_balance c w w1 E) as (B1 & N1).
    destruct (IH w1 w' Hrun) as (B2 & N2). split; [lia | auto].
Qed.

(** C9. [usb_can_cleanup] always returns, and however many times it is
    called in a row the outcome is that of the first call: the second and
    later calls log no libusb call and change nothing.  [libusb_close]
    runs once if a device handle was open and not at all otherwise, the
    handle is null afterwards, and no later sequence of calls of the
    library, further cleanups included, closes anything again. *)
Theorem cleanup_idempotent (w : world) (n : nat) :
  exists w1,
    usb_can_cleanup w = Ok tt w1
    /\ cleanup_times (S n) w = Ok tt w1
    /\ usb_can_cleanup w1 = Ok tt w1
    /\ device_handle w1 = None
    /\ close_count w1 = (close_count w + open_handles w)%nat
    /\ forall (later : list api_call) (w2 : world),
         run_calls later w1 = Some w2 ->
         close_count w2 = close_count w1 /\ device_handle w2 = None.
Proof.
  destruct (cleanup_total w) as (w1 & Hrun & Hh & Hc & Hi & Hcount).
  exists w1. split; [exact Hrun|]. split; [|split; [|split; [|split]]].
  - cbn [cleanup_times]. unfold bind. rewrite Hrun.
    now apply cleanup_times_fixed_point.
  - now apply cleanup_fixed_point.
  - exact Hh.
  - exact Hcount.
  - intros later w2 Hlater.
    destruct (run_calls_balance later w1 w2 Hlater) as (Hb & Hn).
    specialize (Hn Hh). unfold open_handles in Hb. rewrite Hh, Hn in Hb.
    split; [lia | exact Hn].
Qed.

(** ** C10: purge_rx_queue *)

Lemma pending_frames_le (rs : list usb_reply) :
  (pending_frames rs <= Datatypes.length rs)%nat.
Proof.
  induction rs as [|r rs IH]; cbn; [lia|].
  destruct (0 <=? xfer_ret r); lia.
Qed.

(** The attempt that ends the loop failed. *)
Lemma pending_frames_stop (rs : list usb_reply) :
  xfer_ret (nth (pending_frames rs) rs timeout_reply) < 0.
Proof.
  induction rs as [|r rs IH]; cbn [pending_frames].
  - cbn. reflexivity.
  - destruct (0 <=? xfer_ret r) eqn:Hr.
    + exact IH.
    + cbn [nth]. now apply Z.leb_gt.
Qed.

Lemma purge_loop_count (h : nat) (rs : list usb_reply) :
  forall (w : world) (fuel : nat) (purged : Z),
    usb_replies w = rs ->
    (Datatypes.length rs < fuel)%nat ->
    purged + Z.of_nat (pending_frames rs) <= INT_MAX ->
    exists w',
      purge_loop fuel h purged w = Ok (purged + Z.of_nat (pending_frames rs)) w'
      /\ usb_replies w' = skipn (S (pending_frames rs)) rs
      /\ device_handle w' = device_handle w.
Proof.
  induction rs as [|r rs' IH]; intros w fuel purged Hrs Hfuel Hmax;
    (destruct fuel as [|fuel]; [cbn in Hfuel; lia|]);
    cbn [purge_loop]; unfold uninitialized, bind at 1, gets;
    unfold bind at 1; rewrite data_in_eq; cbv beta iota;
    unfold head_reply; rewrite Hrs; cbn [hd].
  - change (0 <=? xfer_ret timeout_reply) with false. cbv iota.
    eexists. split; [|split].
    + cbn [pending_frames]. rewrite Z.add_0_r. reflexivity.
    + cbn. now rewrite Hrs.
    + reflexivity.
  - cbn [pending_frames] in *.
    destruct (0 <=? xfer_ret r) eqn:Hr.
    + assert ((purged <? INT_MAX) = true) as -> by (apply Z.ltb_lt; lia).
      destruct (IH (log_event (BulkTransfer h 129 [] sizeof_host_frame (rep_ret r))
                              (after_reply w))
                   fuel (purged + 1)) as (w' & Hrun & Hrest & Hh).
      * cbn. now rewrite Hrs.
      * cbn in Hfuel. lia.
      * lia.
      * exists w'. split; [|split].
        -- rewrite Hrun. f_equal. lia.
        -- exact Hrest.
        -- exact Hh.
    + eexists. split; [|split].
      * rewrite Z.add_0_r. reflexivity.
      * cbn. now rewrite Hrs.
      * reflexivity.
Qed.

(** C10. With the device handle open, [usb_can_purge_rx_queue] returns
    (any loop bound above the number of scripted completions is enough),
    and what it returns is the number of receive attempts that succeeded
    before the first failing one, hence never negative.  The attempt that
    ends the loop may fail with any negative code, a timeout or another
    transport error: none is reported to the caller. *)
Theorem purge_rx_queue_counts (w : world) (h : nat) (fuel : nat) :
  device_handle w = Some h ->
  (Datatypes.length (usb_replies w) < fuel)%nat ->
  Z.of_nat (Datatypes.length (usb_replies w)) <= INT_MAX ->
  let n := pending_frames (usb_replies w) in
  exists w',
    usb_can_purge_rx_queue fuel w = Ok (Z.of_nat n) w'
    /\ 0 <= Z.of_nat n
    /\ xfer_ret (nth n (usb_replies w) timeout_reply) < 0
    /\ usb_replies w' = skipn (S n) (usb_replies w).
Proof.
  intros Hh Hfuel Hmax n.
  destruct (purge_loop_count h (usb_replies w) w fuel 0 eq_refl Hfuel)
    as (w' & Hrun & Hrest & _).
  - pose proof (pending_frames_le (usb_replies w)). lia.
  - exists w'. split; [|split; [|split]].
    + unfold usb_can_purge_rx_queue, bind, gets. rewrite Hh. exact Hrun.
    + lia.
    + apply pending_frames_stop.
    + exact Hrest.
Qed.

(** C10, instance: two frames pending, then an I/O error. *)
Lemma purge_rx_queue_counts_witness :
  exists w', usb_can_purge_rx_queue 5 purge_world = Ok 2 w'.
Proof.
  destruct (purge_rx_queue_counts purge_world 1 5 eq_refl
              ltac:(cbn; lia) ltac:(cbn; unfold INT_MAX; lia))
    as (w' & Hrun & _).
  exists w'. exact Hrun.
Defined.

(** ** ReadObdPid *)

Lemma obd_value_length (f : gs_host_frame) :
  3 <= can_dlc f <= 8 -> Datatypes.length (data f) = 8%nat ->
  Datatypes.length (obd_value f) = (Z.to_nat (can_dlc f) - 3)%nat.
Proof.
  intros Hd Hl. unfold obd_value. rewrite length_firstn, length_skipn, Hl. lia.
Qed.

Lemma ReadObdPid_eq (this : UsbCanDevice) (pid : Z) (w : world) (h : nat) :
  IsConnected this = true ->
  device_handle w = Some h ->
  let w1 := after_send h pid w in
  let w2 := after_receive h w1 in
  let w3 := after_receive h w2 in
  0 <= can_dlc (received (head_reply w1)) <= 8 ->
  0 <= can_dlc (received (head_reply w2)) <= 8 ->
  ReadObdPid this pid w =
  if xfer_ret (head_reply w) <? 0 then Ok None w1
  else if xfer_ret (head_reply w1) <? 0 then Ok None w2
  else if xfer_ret (head_reply w2) <? 0 then Ok None w3
  else if obd_response_ok pid (received (head_reply w2))
  then Ok (Some (obd_value (received (head_reply w2)))) w3
  else Ok None w3.
Proof.
  intros Hc Hh w1 w2 w3 Hd1 Hd2.
  unfold ReadObdPid. rewrite Hc. cbn [negb]. unfold bind.
  rewrite (read_obd_pid_eq w h pid (repeat 0 8) 0 Hh Hd1 Hd2)
    by (rewrite repeat_length; lia).
  fold w1 w2 w3.
  destruct (xfer_ret (head_reply w) <? 0) eqn:E0.
  { apply Z.ltb_lt in E0.
    assert ((0 <=? xfer_ret (head_reply w)) = false) as -> by (apply Z.leb_gt; lia).
    reflexivity. }
  destruct (xfer_ret (head_reply w1) <? 0) eqn:E1.
  { apply Z.ltb_lt in E1.
    assert ((0 <=? xfer_ret (head_reply w1)) = false) as -> by (apply Z.leb_gt; lia).
    reflexivity. }
  destruct (xfer_ret (head_reply w2) <? 0) eqn:E2.
  { apply Z.ltb_lt in E2.
    assert ((0 <=? xfer_ret (head_reply w2)) = false) as -> by (apply Z.leb_gt; lia).
    reflexivity. }
  destruct (obd_response_ok pid (received (head_reply w2))) eqn:Eok; [|reflexivity].
  set (f := received (head_reply w2)) in *.
  assert (3 <= can_dlc f) as H3.
  { unfold obd_response_ok in Eok.
    destruct (3 <=? can_dlc f) eqn:E3; [now apply Z.leb_le in E3 | discriminate]. }
  cbv beta iota. cbn [deref].
  assert ((0 <=? 0) = true) as -> by reflexivity.
  assert (Datatypes.length (obd_value f) = (Z.to_nat (can_dlc f) - 3)%nat) as Hlen
    by (apply obd_value_length; [lia | reflexivity]).
  replace (Z.to_nat (can_dlc f - 3)) with (Z.to_nat (can_dlc f) - 3)%nat by lia.
  assert ((Z.to_nat (can_dlc f) - 3 <=?
           Datatypes.length (obd_value f
                             ++ skipn (Z.to_nat (can_dlc f) - 3) (repeat 0%Z 8)))%nat = true)
    as -> by (apply Nat.leb_le; rewrite length_app, Hlen; lia).
  rewrite <- Hlen at 1. rewrite firstn_app, Nat.sub_diag, firstn_all. cbn [firstn].
  rewrite app_nil_r. reflexivity.
Qed.

(** ** C8: the RPM scenario *)

(** C8, counterexample. With the response frame of the scenario taken at
    its stated length 4, the value is the single byte [0x1A] and the RPM
    decoder, which needs two bytes, reports failure. *)
Lemma rpm_scenario_length_4 :
  (exists w', ReadObdPid (mk_device true) 12 (rpm_world 4) = Ok (Some [26]) w')
  /\ (exists w', GetEngineRpm (mk_device true) (rpm_world 4) = Ok (inject_Z (-1)) w').
Proof.
  split; eexists; vm_compute; reflexivity.
Qed.

Lemma byte_at_skipn (buf : list Z) (k i : nat) :
  byte_at (skipn k buf) i = byte_at buf (k + i).
Proof. unfold byte_at. apply nth_skipn. Qed.

(** C8, as amended. When the transport delivers an echo frame and then a
    response frame of length at least 5 whose bytes 1 and 2 are 0x41 and
    0x0C, [ReadObdPid 0x0C] returns payload bytes 3 .. length-1 and
    [GetEngineRpm] returns (byte 3 * 256 + byte 4) / 4.  For the scenario
    (response data [04 41 0C 1A F8], taken with length 5) the value bytes
    are [1A F8] and the result is 1726. *)
Theorem engine_rpm_from_response
    (this : UsbCanDevice) (w : world) (h : nat)
    (r_out r_echo r_resp : usb_reply) (rest : list usb_reply) :
  IsConnected this = true ->
  device_handle w = Some h ->
  usb_replies w = r_out :: r_echo :: r_resp :: rest ->
  0 <= xfer_ret r_out -> 0 <= xfer_ret r_echo -> 0 <= xfer_ret r_resp ->
  0 <= can_dlc (received r_echo) <= 8 ->
  let f := received r_resp in
  5 <= can_dlc f <= 8 ->
  byte_at (data f) 1 = 65 -> byte_at (data f) 2 = 12 ->
  exists w',
    ReadObdPid this 12 w
    = Ok (Some (firstn (Z.to_nat (can_dlc f) - 3) (skipn 3 (data f)))) w'
    /\ GetEngineRpm this w
       = Ok (Qmake (byte_at (data f) 3 * 256 + byte_at (data f) 4) 4) w'
    /\ (byte_at (data f) 3 = 26 -> byte_at (data f) 4 = 248 ->
        Qeq (Qmake (byte_at (data f) 3 * 256 + byte_at (data f) 4) 4) (inject_Z 1726)).
Proof.
  intros Hc Hh Hs Ho He Hr Hed f Hfd H1 H2.
  destruct (exchange_heads h 12 w r_out r_echo r_resp rest Hs) as (H0 & H1' & H2' & _).
  pose proof (ReadObdPid_eq this 12 w h Hc Hh) as Heq. cbv zeta in Heq.
  rewrite H0, H1', H2' in Heq. fold f in Heq.
  specialize (Heq Hed ltac:(lia)).
  assert ((xfer_ret r_out <? 0) = false) as E0 by (apply Z.ltb_ge; lia).
  assert ((xfer_ret r_echo <? 0) = false) as E1 by (apply Z.ltb_ge; lia).
  assert ((xfer_ret r_resp <? 0) = false) as E2 by (apply Z.ltb_ge; lia).
  rewrite E0, E1, E2 in Heq.
  assert (obd_response_ok 12 f = true) as Eok.
  { unfold obd_response_ok. rewrite H1, H2.
    assert ((3 <=? can_dlc f) = true) as -> by (apply Z.leb_le; lia). reflexivity. }
  rewrite Eok in Heq.
  eexists. split; [exact Heq|]. split.
  - unfold GetEngineRpm, bind. rewrite Heq.
    assert (Datatypes.length (obd_value f) = (Z.to_nat (can_dlc f) - 3)%nat) as Hlen
      by (apply obd_value_length; [lia | reflexivity]).
    assert ((2 <=? Datatypes.length (obd_value f))%nat = true) as ->
      by (apply Nat.leb_le; lia).
    unfold obd_value.
    rewrite !byte_at_firstn by lia. rewrite !byte_at_skipn.
    rewrite Z.shiftl_mul_pow2 by lia. reflexivity.
  - intros -> ->. reflexivity.
Qed.

(** C8, instance: the response [04 41 0C 1A F8] with frame length 5. *)
Lemma engine_rpm_from_response_witness :
  exists w',
    ReadObdPid (mk_device true) 12 (rpm_world 5) = Ok (Some [26; 248]) w'
    /\ GetEngineRpm (mk_device true) (rpm_world 5) = Ok (Qmake 6904 4) w'
    /\ Qeq (Qmake 6904 4) (inject_Z 1726).
Proof.
  destruct (engine_rpm_from_response (mk_device true) (rpm_world 5) 1
              sent_reply (frame_reply (echo_of 12)) (frame_reply (rpm_response 5)) []
              eq_refl eq_refl eq_refl
              ltac:(vm_compute; discriminate) ltac:(vm_compute; discriminate)
              ltac:(vm_compute; discriminate)
              ltac:(vm_compute; split; discriminate)
              ltac:(vm_compute; split; discriminate)
              eq_refl eq_refl)
    as (w' & Hread & Hrpm & Hq).
  exists w'. split; [exact Hread|]. split; [exact Hrpm|].
  apply Hq; reflexivity.
Defined.

(** ** C7: the supported-PID bitmap *)

Lemma testbit_land_pow2 (b m : Z) :
  0 <= m -> negb (Z.land b (2 ^ m) =? 0) = Z.testbit b m.
Proof.
  intros Hm. destruct (Z.testbit b m) eqn:T.
  - destruct (Z.land b (2 ^ m) =? 0) eqn:E; [|reflexivity].
    apply Z.eqb_eq in E.
    assert (Z.testbit (Z.land b (2 ^ m)) m = true) as Hbit
      by (rewrite Z.land_spec, T, Z.pow2_bits_true by lia; reflexivity).
    rewrite E, Z.bits_0 in Hbit. discriminate.
  - assert (Z.land b (2 ^ m) = 0) as ->; [|reflexivity].
    apply Z.bits_inj'. intros n Hn. rewrite Z.land_spec, Z.bits_0.
    destruct (Z.eq_dec n m) as [-> | Hne].
    + now rewrite T.
    + rewrite (Z.pow2_bits_false m n) by lia. apply andb_false_r.
Qed.

Lemma testbit_outside_byte (b x : Z) :
  is_u8 b -> x < 0 \/ 8 <= x -> Z.testbit b x = false.
Proof.
  unfold is_u8, UINT8_MOD. intros Hb [Hneg | Hhigh].
  - now apply Z.testbit_neg_r.
  - rewrite Z.testbit_odd, Z.shiftr_div_pow2 by lia.
    rewrite Z.div_small; [reflexivity|].
    assert (2 ^ 8 <= 2 ^ x) by (apply Z.pow_le_mono_r; lia).
    change (2 ^ 8) with 256 in *. lia.
Qed.

Lemma byte_at_is_u8 (d : list Z) (q : nat) :
  Forall is_u8 d -> is_u8 (byte_at d q).
Proof.
  intros Hd. unfold byte_at.
  destruct (Nat.lt_ge_cases q (Datatypes.length d)) as [Hlt | Hge].
  - rewrite Forall_forall in Hd. apply Hd. now apply nth_In.
  - rewrite nth_overflow by exact Hge. unfold is_u8, UINT8_MOD. lia.
Qed.

Lemma be32_testbit (d : list Z) (j : nat) (m : Z) :
  Forall is_u8 d -> (j < 4)%nat -> 0 <= m < 8 ->
  Z.testbit (be32 d) (8 * (3 - Z.of_nat j) + m) = Z.testbit (byte_at d j) m.
Proof.
  intros Hd Hj Hm.
  pose proof (byte_at_is_u8 d 0 Hd) as B0. pose proof (byte_at_is_u8 d 1 Hd) as B1.
  pose proof (byte_at_is_u8 d 2 Hd) as B2. pose proof (byte_at_is_u8 d 3 Hd) as B3.
  unfold be32. rewrite !Z.lor_spec, !Z.shiftl_spec by lia.
  destruct j as [|[|[|[|j]]]]; [| | | |lia]; cbn [Z.of_nat Pos.of_succ_nat Pos.succ].
  - replace (8 * (3 - 0) + m - 24) with m by lia.
    rewrite (testbit_outside_byte _ (8 * (3 - 0) + m - 16) B1) by lia.
    rewrite (testbit_outside_byte _ (8 * (3 - 0) + m - 8) B2) by lia.
    rewrite (testbit_outside_byte _ (8 * (3 - 0) + m) B3) by lia.
    now rewrite !orb_false_r.
  - replace (8 * (3 - 1) + m - 16) with m by lia.
    rewrite (testbit_outside_byte _ (8 * (3 - 1) + m - 24) B0) by lia.
    rewrite (testbit_outside_byte _ (8 * (3 - 1) + m - 8) B2) by lia.
    rewrite (testbit_outside_byte _ (8 * (3 - 1) + m) B3) by lia.
    now rewrite !orb_false_r.
  - replace (8 * (3 - 2) + m - 8) with m by lia.
    rewrite (testbit_outside_byte _ (8 * (3 - 2) + m - 24) B0) by lia.
    rewrite (testbit_outside_byte _ (8 * (3 - 2) + m - 16) B1) by lia.
    rewrite (testbit_outside_byte _ (8 * (3 - 2) + m) B3) by lia.
    now rewrite !orb_false_r.
  - replace (8 * (3 - 3) + m) with m by lia.
    rewrite (testbit_outside_byte _ (m - 24) B0) by lia.
    rewrite (testbit_outside_byte _ (m - 16) B1) by lia.
    rewrite (testbit_outside_byte _ (m - 8) B2) by lia.
    reflexivity.
Qed.

(** The loop's test reads bit [31 - i] of the big-endian value: bit 0 of
    the bitmap is the most significant bit of byte 0. *)
Lemma pid_bit_testbit (d : list Z) (i : nat) :
  Forall is_u8 d -> (i < 32)%nat ->
  pid_bit d i = Z.testbit (be32 d) (31 - Z.of_nat i).
Proof.
  intros Hd Hi. unfold pid_bit.
  set (j := (i / 8)%nat). set (k := (i mod 8)%nat).
  assert (i = (8 * j + k)%nat) as Hi8 by (apply Nat.div_mod_eq).
  assert (k < 8)%nat as Hk by (apply Nat.mod_upper_bound; lia).
  assert (j < 4)%nat as Hj by (apply Nat.Div0.div_lt_upper_bound; lia).
  assert (Z.land (Z.of_nat i) 7 = Z.of_nat k) as ->.
  { change 7 with (Z.ones 3). rewrite Z.land_ones by lia.
    change (2 ^ 3) with (Z.of_nat 8). unfold k. now rewrite Nat2Z.inj_mod. }
  assert (Z.shiftr 128 (Z.of_nat k) = 2 ^ (7 - Z.of_nat k)) as ->.
  { do 8 (destruct k as [|k]; [reflexivity|]). lia. }
  rewrite testbit_land_pow2 by lia.
  replace (31 - Z.of_nat i) with (8 * (3 - Z.of_nat j) + (7 - Z.of_nat k)) by lia.
  rewrite be32_testbit by (try assumption; lia).
  reflexivity.
Qed.

Lemma decode_supported_spec (baseId : Z) (d : list Z) (i : nat) :
  Forall is_u8 d -> (i < 32)%nat ->
  In (baseId + Z.of_nat i) (decode_supported baseId d)
  <-> Z.testbit (be32 d) (31 - Z.of_nat i) = true.
Proof.
  intros Hd Hi. rewrite <- (pid_bit_testbit d i Hd Hi).
  unfold decode_supported. rewrite in_map_iff. split.
  - intros (k & Hk & Hin). apply filter_In in Hin as (_ & Hbit).
    assert (k = i) as <- by lia. exact Hbit.
  - intros Hbit. exists i. split; [reflexivity|].
    apply filter_In. split; [|exact Hbit]. apply in_seq. lia.
Qed.

Lemma sent_frames_app (l1 l2 : list usb_event) :
  sent_frames (l1 ++ l2) = sent_frames l1 ++ sent_frames l2.
Proof.
  induction l1 as [|e l1 IH]; [reflexivity|].
  cbn [app sent_frames]. destruct (sent_frame e); rewrite IH; reflexivity.
Qed.

Lemma queried_after_send (h : nat) (pid : Z) (w : world) :
  queried_pids (after_send h pid w) = queried_pids w ++ [pid].
Proof.
  unfold queried_pids.
  destruct (after_send_fields h pid w) as (_ & -> & _).
  rewrite sent_frames_app, map_app. reflexivity.
Qed.

Lemma queried_after_receive (h : nat) (w : world) :
  queried_pids (after_receive h w) = queried_pids w.
Proof.
  unfold queried_pids.
  destruct (after_receive_fields h w) as (_ & -> & _).
  rewrite sent_frames_app, map_app. cbn. apply app_nil_r.
Qed.

Lemma dlc_ok_head (w : world) :
  Forall dlc_ok (usb_replies w) -> dlc_ok (head_reply w).
Proof.
  unfold head_reply. destruct (usb_replies w) as [|r rs]; intros H.
  - unfold dlc_ok. cbn. lia.
  - now inversion H.
Qed.

Lemma dlc_ok_tl (rs : list usb_reply) :
  Forall dlc_ok rs -> Forall dlc_ok (tl rs).
Proof.
  destruct rs as [|r rs]; intros H; [exact H | now inversion H].
Qed.

(** One call of [ReadObdPid] on an open device asks for its PID once,
    whatever the transport answers. *)
Lemma ReadObdPid_query (this : UsbCanDevice) (pid : Z) (w : world) (h : nat) :
  IsConnected this = true ->
  device_handle w = Some h ->
  Forall dlc_ok (usb_replies w) ->
  exists answer w',
    ReadObdPid this pid w = Ok answer w'
    /\ device_handle w' = Some h
    /\ Forall dlc_ok (usb_replies w')
    /\ queried_pids w' = queried_pids w ++ [pid].
Proof.
  intros Hc Hh Hok.
  set (w1 := after_send h pid w).
  set (w2 := after_receive h w1).
  set (w3 := after_receive h w2).
  assert (Forall dlc_ok (usb_replies w1)) as Hok1 by (now apply dlc_ok_tl).
  assert (Forall dlc_ok (usb_replies w2)) as Hok2 by (now apply dlc_ok_tl).
  assert (Forall dlc_ok (usb_replies w3)) as Hok3 by (now apply dlc_ok_tl).
  assert (queried_pids w1 = queried_pids w ++ [pid]) as Hq1
    by apply queried_after_send.
  assert (queried_pids w2 = queried_pids w ++ [pid]) as Hq2
    by (unfold w2; now rewrite queried_after_receive).
  assert (queried_pids w3 = queried_pids w ++ [pid]) as Hq3
    by (unfold w3; now rewrite queried_after_receive).
  pose proof (ReadObdPid_eq this pid w h Hc Hh) as Heq. cbv zeta in Heq.
  fold w1 w2 w3 in Heq. rewrite !received_can_dlc in Heq.
  specialize (Heq (dlc_ok_head w1 Hok1) (dlc_ok_head w2 Hok2)).
  rewrite Heq.
  destruct (xfer_ret (head_reply w) <? 0); [now exists None, w1|].
  destruct (xfer_ret (head_reply w1) <? 0); [now exists None, w2|].
  destruct (xfer_ret (head_reply w2) <? 0); [now exists None, w3|].
  destruct (obd_response_ok pid (received (head_reply w2)));
    eexists; exists w3; auto.
Qed.

Lemma supported_pids_loop_step (fuel : nat) (this : UsbCanDevice)
    (baseId : Z) (acc : list Z) (w : world) :
  0 <= baseId < 96 ->
  supported_pids_loop (S fuel) this baseId acc w =
  match ReadObdPid this baseId w with
  | Ok answer w' =>
      supported_pids_loop fuel this (baseId + 32) (acc ++ supported_in baseId answer) w'
  | Undefined f => Undefined f
  end.
Proof.
  intros Hb. cbn [supported_pids_loop].
  assert ((baseId <? 96) = true) as -> by (apply Z.ltb_lt; lia).
  assert (u8 baseId = baseId) as ->
    by (unfold u8, UINT8_MOD; apply Z.mod_small; lia).
  unfold bind. destruct (ReadObdPid this baseId w) as [[d|] w'|]; try reflexivity.
  - unfold supported_in. destruct (4 <=? Datatypes.length d)%nat;
      rewrite ?app_nil_r; reflexivity.
  - unfold supported_in. rewrite app_nil_r. reflexivity.
Qed.

Lemma supported_pids_loop_exit (fuel : nat) (this : UsbCanDevice)
    (baseId : Z) (acc : list Z) (w : world) :
  96 <= baseId ->
  supported_pids_loop (S fuel) this baseId acc w = Ok acc w.
Proof.
  intros Hb. cbn [supported_pids_loop].
  assert ((baseId <? 96) = false) as -> by (apply Z.ltb_ge; lia).
  reflexivity.
Qed.

Lemma GetSupportedPids_unroll (fuel : nat) (this : UsbCanDevice) (w : world) :
  (4 <= fuel)%nat ->
  GetSupportedPids fuel this w =
  (d0 <- ReadObdPid this 0 ;;
   d1 <- ReadObdPid this 32 ;;
   d2 <- ReadObdPid this 64 ;;
   ret (supported_in 0 d0 ++ supported_in 32 d1 ++ supported_in 64 d2)) w.
Proof.
  intros Hfuel. do 4 (destruct fuel as [|fuel]; [lia|]).
  unfold GetSupportedPids, bind.
  rewrite supported_pids_loop_step by lia.
  destruct (ReadObdPid this 0 w) as [d0 w0|]; [|reflexivity].
  change (0 + 32) with 32.
  rewrite supported_pids_loop_step by lia.
  destruct (ReadObdPid this 32 w0) as [d1 w1|]; [|reflexivity].
  change (32 + 32) with 64.
  rewrite supported_pids_loop_step by lia.
  destruct (ReadObdPid this 64 w1) as [d2 w2|]; [|reflexivity].
  rewrite supported_pids_loop_exit by lia.
  unfold ret. rewrite <- app_assoc. reflexivity.
Qed.

(** C7, counterexample. Although the vehicle would answer all six base
    PIDs, [GetSupportedPids] asks for 0x00, 0x20 and 0x40 only; the nine
    completions of the other three exchanges stay unconsumed and no PID
    from 0x60 on is reported. *)
Lemma supported_pids_stops_at_0x40 :
  exists pids w',
    GetSupportedPids 7 (mk_device true) six_ranges_world = Ok pids w'
    /\ queried_pids w' = [0; 32; 64]
    /\ queried_pids w' <> [0; 32; 64; 96; 128; 160]
    /\ pids = map Z.of_nat (seq 0 96)
    /\ Datatypes.length (usb_replies w') = 9%nat.
Proof.
  eexists. eexists. split; [vm_compute; reflexivity|].
  repeat split; try reflexivity. discriminate.
Qed.

(** C7, as amended. On an open, connected device [GetSupportedPids]
    queries exactly the base PIDs 0x00, 0x20 and 0x40, in that order, and
    returns, for each query answered with at least 4 bytes, the PIDs its
    bitmap marks.  The first four bytes are read as a big-endian 32-bit
    mask: PID base+i is reported exactly when bit i counted from the most
    significant bit (MSB first within each byte) is set.  The answer
    [FF FF FF FF] for base 0x00 marks all of PIDs 0 .. 31. *)
Theorem supported_pids_three_ranges
    (this : UsbCanDevice) (w : world) (h : nat) (fuel : nat) :
  IsConnected this = true ->
  device_handle w = Some h ->
  Forall dlc_ok (usb_replies w) ->
  (4 <= fuel)%nat ->
  (exists d0 d1 d2 w0 w1 w',
     ReadObdPid this 0 w = Ok d0 w0
     /\ ReadObdPid this 32 w0 = Ok d1 w1
     /\ ReadObdPid this 64 w1 = Ok d2 w'
     /\ GetSupportedPids fuel this w
        = Ok (supported_in 0 d0 ++ supported_in 32 d1 ++ supported_in 64 d2) w'
     /\ queried_pids w' = queried_pids w ++ [0; 32; 64])
  /\ (forall (baseId : Z) (d : list Z) (i : nat),
        Forall is_u8 d -> (i < 32)%nat ->
        (In (baseId + Z.of_nat i) (decode_supported baseId d)
         <-> Z.testbit (be32 d) (31 - Z.of_nat i) = true))
  /\ decode_supported 0 [255; 255; 255; 255] = map Z.of_nat (seq 0 32).
Proof.
  intros Hc Hh Hok Hfuel. split; [|split].
  - destruct (ReadObdPid_query this 0 w h Hc Hh Hok) as (d0 & w0 & R0 & Hh0 & Hok0 & Q0).
    destruct (ReadObdPid_query this 32 w0 h Hc Hh0 Hok0) as (d1 & w1 & R1 & Hh1 & Hok1 & Q1).
    destruct (ReadObdPid_query this 64 w1 h Hc Hh1 Hok1) as (d2 & w2 & R2 & _ & _ & Q2).
    exists d0, d1, d2, w0, w1, w2.
    repeat (split; [assumption|]). split.
    + rewrite GetSupportedPids_unroll by exact Hfuel.
      unfold bind. rewrite R0, R1, R2. reflexivity.
    + rewrite Q2, Q1, Q0, <- !app_assoc. reflexivity.
  - intros baseId d i. apply decode_supported_spec.
  - reflexivity.
Qed.

(** C7, instance: a vehicle that would answer all six base PIDs. *)
Lemma supported_pids_three_ranges_witness :
  exists pids w',
    GetSupportedPids 4 (mk_device true) six_ranges_world = Ok pids w'
    /\ queried_pids w' = [0; 32; 64].
Proof.
  destruct (supported_pids_three_ranges (mk_device true) six_ranges_world 1 4 eq_refl eq_refl)
    as ((d0 & d1 & d2 & w0 & w1 & w' & _ & _ & _ & Hrun & Hq) & _ & _).
  - unfold dlc_ok. repeat constructor; vm_compute; discriminate.
  - lia.
  - eexists. exists w'. split; [exact Hrun | exact Hq].
Defined.

(** * Further properties of the library and of the wrapper *)

(** ** The wire image of a frame *)

Lemma byte_split (b k : Z) :
  is_u8 b -> (b + 256 * k) mod 256 = b /\ (b + 256 * k) / 256 = k.
Proof.
  unfold is_u8, UINT8_MOD. intros Hb.
  replace (b + 256 * k) with (b + k * 256) by ring. split.
  - rewrite Z.mod_add by lia. apply Z.mod_small. lia.
  - rewrite Z.div_add by lia. rewrite Z.div_small by lia. reflexivity.
Qed.

Lemma le32_of_bytes (b0 b1 b2 b3 : Z) :
  is_u8 b0 -> is_u8 b1 -> is_u8 b2 -> is_u8 b3 ->
  le32 (b0 + 256 * b1 + 65536 * b2 + 16777216 * b3) = [b0; b1; b2; b3]
  /\ is_u32 (b0 + 256 * b1 + 65536 * b2 + 16777216 * b3).
Proof.
  intros H0 H1 H2 H3. split.
  - unfold le32.
    replace (b0 + 256 * b1 + 65536 * b2 + 16777216 * b3)
      with (b0 + 256 * (b1 + 256 * (b2 + 256 * b3))) by ring.
    replace 65536 with (256 * 256) by reflexivity.
    replace 16777216 with (256 * 256 * 256) by reflexivity.
    rewrite <- !Z.div_div by lia.
    destruct (byte_split b0 (b1 + 256 * (b2 + 256 * b3)) H0) as (-> & ->).
    destruct (byte_split b1 (b2 + 256 * b3) H1) as (-> & ->).
    destruct (byte_split b2 b3 H2) as (-> & ->).
    rewrite Z.mod_small by exact H3. reflexivity.
  - unfold is_u8, is_u32, UINT8_MOD, UINT32_MOD in *. lia.
Qed.

Lemma Forall_is_u8_cons (b : Z) (l : list Z) :
  Forall is_u8 (b :: l) -> is_u8 b /\ Forall is_u8 l.
Proof. intros H. inversion H. now split. Qed.

(** X1. Every buffer of 24 bytes is the memory image of the frame it is
    read as: reading the fields yields values that fit their types, and
    laying them out again gives the buffer back.  With the converse
    direction, frames with valid fields and 24-byte buffers correspond
    one to one. *)
Theorem frame_image_round_trip (buf : list Z) :
  Datatypes.length buf = sizeof_host_frame ->
  Forall is_u8 buf ->
  valid_frame (decode_frame buf)
  /\ encode_frame (decode_frame buf) = buf.
Proof.
  intros Hlen Hbytes.
  do 24 (destruct buf as [|? buf]; [discriminate Hlen|]).
  destruct buf; [clear Hlen | discriminate Hlen].
  repeat match goal with
         | H : Forall is_u8 (_ :: _) |- _ =>
             apply Forall_is_u8_cons in H; destruct H as [? H]
         end.
  unfold decode_frame, encode_frame, valid_frame, rd32, rd_bytes, byte_at.
  cbn [nth Nat.add seq map echo_id can_id can_dlc channel frame_flags reserved
       data timestamp_us Datatypes.length].
  repeat match goal with
         | |- context [le32 (?a + 256 * ?b + 65536 * ?c + 16777216 * ?d)] =>
             let E := fresh "E" in let R := fresh "R" in
             destruct (le32_of_bytes a b c d) as [E R]; [assumption ..|];
             rewrite E; clear E
         end.
  split; [|reflexivity].
  unfold is_u8, is_u32, UINT8_MOD, UINT32_MOD in *.
  repeat split; try lia.
  repeat (constructor; [lia|]). constructor.
Qed.

(** X1, instance: the image of the RPM response. *)
Lemma frame_image_round_trip_witness :
  encode_frame (decode_frame (encode_frame (rpm_response 5)))
  = encode_frame (rpm_response 5).
Proof.
  apply (frame_image_round_trip (encode_frame (rpm_response 5))).
  - reflexivity.
  - repeat (constructor; [unfold is_u8, UINT8_MOD; cbn; lia|]). constructor.
Defined.

(** ** Initialisation and opening *)

Lemma usb_can_init_eq (ans : init_answer) (w : world) :
  usb_can_init ans w =
  if is_initialized w then Ok 0 w
  else if init_ret ans <? 0 then Ok (init_ret ans) w
  else Ok 0 (set_is_initialized true
               (if init_ret ans =? LIBUSB_SUCCESS
                then set_usb_context (Some (init_ctx ans)) w else w)).
Proof.
  unfold usb_can_init, libusb_init, bind, gets, modify, ret.
  destruct (is_initialized w); [reflexivity|].
  destruct (init_ret ans =? LIBUSB_SUCCESS) eqn:E0.
  - apply Z.eqb_eq in E0. rewrite E0. reflexivity.
  - destruct (init_ret ans <? 0); reflexivity.
Qed.

(** X2. [usb_can_init] returns 0 or the negative code of [libusb_init].
    A failed call changes nothing.  After a call that returned 0 the
    library is initialised and every further call returns 0 and changes
    nothing, whatever [libusb_init] would answer.  The constructor of the
    wrapper throws exactly when the call fails, and otherwise yields an
    object that is neither connected nor disposed. *)
Theorem init_once (w : world) (ans : init_answer) :
  exists (r : Z) (w1 : world),
    usb_can_init ans w = Ok r w1
    /\ (r = 0 \/ (r = init_ret ans /\ r < 0 /\ w1 = w))
    /\ (r = 0 ->
        is_initialized w1 = true
        /\ (forall ans', usb_can_init ans' w1 = Ok 0 w1)
        /\ new_UsbCanDevice ans w = Ok (mk_object (mk_device false) 0 0 false) w1)
    /\ (r < 0 -> new_UsbCanDevice ans w = Undefined ManagedException)
    /\ (is_initialized w = true -> r = 0 /\ w1 = w).
Proof.
  assert (forall r w1, usb_can_init ans w = Ok r w1 ->
            new_UsbCanDevice ans w =
            if r <? 0 then Undefined ManagedException
            else Ok (mk_object (mk_device false) 0 0 false) w1) as Hnew.
  { intros r w1 E. unfold new_UsbCanDevice, bind. rewrite E.
    destruct (r <? 0); reflexivity. }
  assert (forall w1, is_initialized w1 = true ->
            forall ans', usb_can_init ans' w1 = Ok 0 w1) as Hagain.
  { intros w1 H1 ans'. rewrite usb_can_init_eq, H1. reflexivity. }
  pose proof (usb_can_init_eq ans w) as E.
  destruct (is_initialized w) eqn:Hi.
  - exists 0, w. split; [exact E|]. split; [now left|].
    split; [|split].
    + intros _. split; [exact Hi|]. split; [now apply Hagain|].
      now rewrite (Hnew _ _ E).
    + lia.
    + now split.
  - destruct (init_ret ans <? 0) eqn:En.
    + exists (init_ret ans), w. apply Z.ltb_lt in En.
      split; [exact E|]. split; [right; repeat split; lia|].
      split; [lia|]. split; [|discriminate].
      intros _. rewrite (Hnew _ _ E).
      assert ((init_ret ans <? 0) = true) as -> by (now apply Z.ltb_lt).
      reflexivity.
    + eexists. eexists. split; [exact E|]. split; [now left|].
      split; [|split; [lia | discriminate]].
      intros _. split; [reflexivity|]. split; [now apply Hagain|].
      now rewrite (Hnew _ _ E).
Qed.

Lemma scan_devices_find (devs : list usb_device) (w : world) :
  scan_devices devs w =
  match find usable devs with
  | Some d => Ok true (set_device_handle (Some (open_handle d)) w)
  | None => Ok false w
  end.
Proof.
  induction devs as [|d devs IH]; [reflexivity|].
  cbn [scan_devices find]. unfold usable.
  destruct (desc_ret d <? 0) eqn:Ed.
  - apply Z.ltb_lt in Ed.
    assert ((0 <=? desc_ret d) = false) as -> by (apply Z.leb_gt; lia).
    cbn [andb]. exact IH.
  - apply Z.ltb_ge in Ed.
    assert ((0 <=? desc_ret d) = true) as -> by (apply Z.leb_le; lia).
    cbn [andb].
    destruct ((idVendor d =? 7504) && (idProduct d =? 24687)); [|exact IH].
    cbn [andb]. destruct (open_ret d =? LIBUSB_SUCCESS); [reflexivity | exact IH].
Qed.

Lemma usb_can_open_device_eq (cnt : Z) (devs : list usb_device) (w : world) :
  usb_can_open_device cnt devs w =
  if negb (is_initialized w) then Ok (-1) w
  else if cnt <? 0 then Ok cnt w
  else match find usable devs with
       | Some d => Ok 0 (set_device_handle (Some (open_handle d)) w)
       | None => Ok (-1) w
       end.
Proof.
  unfold usb_can_open_device, bind at 1, gets.
  destruct (negb (is_initialized w)); [reflexivity|].
  destruct (cnt <? 0); [reflexivity|].
  unfold bind. rewrite scan_devices_find.
  destruct (find usable devs); reflexivity.
Qed.

Lemma find_first {A} (f : A -> bool) (l : list A) (d : A) :
  find f l = Some d ->
  exists pre post,
    l = pre ++ d :: post /\ f d = true /\ Forall (fun x => f x = false) pre.
Proof.
  induction l as [|x l IH]; cbn [find]; [discriminate|].
  destruct (f x) eqn:Ex.
  - intros [= <-]. exists [], l. repeat split; auto.
  - intros Hf. destruct (IH Hf) as (pre & post & -> & Hd & Hpre).
    exists (x :: pre), post. repeat split; auto.
Qed.

(** X3. [usb_can_open_device] returns 0 or a negative value, and it
    returns 0 exactly when the library is initialised, the device listing
    succeeded and the list holds a device whose descriptor can be read,
    whose identifiers are 1d50:606f and which [libusb_open] opens.  It
    then stores the handle of the first such device in list order and
    changes nothing else.  Whenever it fails it leaves the whole state, a
    handle stored earlier included, as it was. *)
Theorem open_device_first_usable (cnt : Z) (devs : list usb_device) (w : world) :
  exists (r : Z) (w' : world),
    usb_can_open_device cnt devs w = Ok r w'
    /\ (r = 0 <->
        is_initialized w = true /\ 0 <= cnt /\ exists d, find usable devs = Some d)
    /\ (r = 0 ->
        exists pre d post,
          devs = pre ++ d :: post /\ usable d = true
          /\ Forall (fun x => usable x = false) pre
          /\ w' = set_device_handle (Some (open_handle d)) w)
    /\ (r <> 0 -> r < 0 /\ w' = w).
Proof.
  rewrite usb_can_open_device_eq.
  destruct (is_initialized w); cbn [negb].
  - destruct (cnt <? 0) eqn:Ec; [apply Z.ltb_lt in Ec | apply Z.ltb_ge in Ec].
    + exists cnt, w. split; [reflexivity|]. repeat split; lia.
    + destruct (find usable devs) as [d|] eqn:Ef.
      * eexists. eexists. split; [reflexivity|]. split; [|split].
        -- split; [|reflexivity]. intros _. repeat split; try lia. now exists d.
        -- intros _. destruct (find_first usable devs d Ef) as (pre & post & E & Hd & Hp).
           exists pre, d, post. repeat split; assumption.
        -- intros H. now contradiction H.
      * exists (-1), w. split; [reflexivity|]. repeat split; try lia.
        intros (_ & _ & d & Hd). discriminate Hd.
  - exists (-1), w. split; [reflexivity|]. repeat split; lia.
Qed.

(** X4. [usb_can_open_device] never closes a handle.  When the library
    already holds one, a successful open replaces it and logs nothing,
    and the [usb_can_cleanup] that follows closes the new handle only:
    the handle held before is never handed to [libusb_close]. *)
Theorem open_device_replaces_without_close
    (cnt : Z) (devs : list usb_device) (d : usb_device) (w : world) (held : nat) :
  is_initialized w = true ->
  0 <= cnt ->
  device_handle w = Some held ->
  find usable devs = Some d ->
  exists w1 w2,
    usb_can_open_device cnt devs w = Ok 0 w1
    /\ device_handle w1 = Some (open_handle d)
    /\ usb_log w1 = usb_log w
    /\ usb_can_cleanup w1 = Ok tt w2
    /\ filter is_close (usb_log w2)
       = filter is_close (usb_log w) ++ [LibusbClose (open_handle d)].
Proof.
  intros Hi Hc Hh Hf.
  rewrite usb_can_open_device_eq, Hi, Hf.
  assert ((cnt <? 0) = false) as -> by (apply Z.ltb_ge; lia).
  cbn [negb]. destruct w as [c dh i rs j l]. cbn in *.
  destruct c as [x|]; eexists; eexists;
    (split; [reflexivity|]); (split; [reflexivity|]); (split; [reflexivity|]);
    (split; [reflexivity|]); cbn;
    rewrite ?filter_app; cbn; rewrite ?app_nil_r; reflexivity.
Qed.

(** X4, instance: a second adapter is opened while a handle is held. *)
Lemma open_device_replaces_without_close_witness :
  exists w1 w2,
    usb_can_open_device 2 [other_device; gs_usb_device 5] (opened_world []) = Ok 0 w1
    /\ usb_can_cleanup w1 = Ok tt w2
    /\ filter is_close (usb_log w2) = [LibusbClose 5].
Proof.
  destruct (open_device_replaces_without_close 2 [other_device; gs_usb_device 5]
              (gs_usb_device 5) (opened_world []) 1 eq_refl ltac:(lia) eq_refl eq_refl)
    as (w1 & w2 & Hopen & _ & _ & Hclean & Hlog).
  exists w1, w2. repeat split; assumption.
Defined.

(** ** Configuration and device information *)





(** ** Closes and handles over any use of the library *)

Lemma keeps_handle_init (ans : init_answer) : keeps_handle (usb_can_init ans).
Proof.
  intros w w' a. rewrite usb_can_init_eq.
  destruct (is_initialized w); [intros [= _ <-]; now split|].
  destruct (init_ret ans <? 0); [intros [= _ <-]; now split|].
  destruct (init_ret ans =? LIBUSB_SUCCESS); intros [= _ <-]; now split.
Qed.

Lemma keeps_handle_configure (ans : configure_answers) :
  keeps_handle (usb_can_configure_device ans).
Proof.
  unfold usb_can_configure_device, control_out. repeat keeps_handle_step.
Qed.

Lemma keeps_handle_get_device_info (hw sw : option Z) :
  keeps_handle (usb_can_get_device_info hw sw).
Proof.
  unfold usb_can_get_device_info, uninitialized, control_in.
  repeat keeps_handle_step.
Qed.

Lemma keeps_handle_identify (enable : Z) : keeps_handle (usb_can_identify enable).
Proof. unfold usb_can_identify, control_out. repeat keeps_handle_step. Qed.

Lemma run_library_call_balance (c : library_call) (w w' : world) :
  run_library_call c w = Some w' ->
  (close_count w' + open_handles w'
   <= close_count w + open_handles w + (if is_open_call c then 1 else 0))%nat.
Proof.
  assert (forall A (m : M A), keeps_handle m ->
            world_after (m w) = Some w' ->
            (close_count w' + open_handles w' <= close_count w + open_handles w + 0)%nat)
    as Hkeep.
  { intros A m Hm Hrun. destruct (m w) as [a w1|] eqn:E; [|discriminate].
    cbn in Hrun. injection Hrun as ->.
    destruct (Hm _ _ _ E) as (Hh & Hc). unfold open_handles.
    rewrite Hh, Hc. lia. }
  destruct c; cbn [run_library_call is_open_call].
  - intros Hrun. destruct (run_call_balance c w w' Hrun) as (Hb & _). lia.
  - apply Hkeep, keeps_handle_init.
  - rewrite usb_can_open_device_eq.
    destruct (negb (is_initialized w)); [intros [= <-]; lia|].
    destruct (cnt <? 0); [intros [= <-]; lia|].
    destruct (find usable devs); intros [= <-]; [|lia].
    unfold close_count, open_handles. cbn. destruct (device_handle w); lia.
  - apply Hkeep, keeps_handle_configure.
  - apply Hkeep, keeps_handle_get_device_info.
  - apply Hkeep, keeps_handle_identify.
Qed.

(** X7. Over any sequence of calls of the library that runs to its end,
    [libusb_close] is called at most once for each handle obtained: the
    calls made of it, together with the handle still held at the end,
    never exceed the handle held at the start plus the number of calls of
    [usb_can_open_device]. *)
Theorem closes_bounded_by_opens (cs : list library_call) :
  forall (w w' : world),
    run_library_calls cs w = Some w' ->
    (close_count w' + open_handles w'
     <= close_count w + open_handles w + Datatypes.length (filter is_open_call cs))%nat.
Proof.
  induction cs as [|c cs IH]; intros w w'; cbn [run_library_calls].
  - intros [= <-]. cbn. lia.
  - destruct (run_library_call c w) as [w1|] eqn:E; [|discriminate].
    intros Hrun. pose proof (run_library_call_balance c w w1 E) as B1.
    pose proof (IH w1 w' Hrun) as B2.
    cbn [filter]. destruct (is_open_call c); cbn [Datatypes.length]; lia.
Qed.

(** X7, instance: open, open again, clean up twice: one close. *)
Lemma closes_bounded_by_opens_witness :
  exists w',
    run_library_calls
      [CallOpenDevice 1 [gs_usb_device 5]; CallOpenDevice 1 [gs_usb_device 6];
       Embedded CallCleanup; Embedded CallCleanup]
      (initialised_world []) = Some w'
    /\ (close_count w' <= 2)%nat.
Proof.
  eexists. split; [reflexivity|].
  pose proof (closes_bounded_by_opens
                [CallOpenDevice 1 [gs_usb_device 5]; CallOpenDevice 1 [gs_usb_device 6];
                 Embedded CallCleanup; Embedded CallCleanup]
                (initialised_world []) _ eq_refl) as H.
  cbn in H. cbn. lia.
Defined.

(** ** Frames on the wire and back *)

Lemma skipn_repeat_zero (n k : nat) :
  (k <= n)%nat -> skipn k (repeat 0 n) = repeat 0 (n - k).
Proof.
  revert k. induction n as [|n IH]; intros k Hk.
  - now destruct k.
  - destruct k as [|k]; [reflexivity|]. cbn [repeat skipn Nat.sub]. apply IH. lia.
Qed.

Lemma Forall_is_u8_repeat_zero (n : nat) : Forall is_u8 (repeat 0 n).
Proof.
  induction n as [|n IH]; cbn; constructor; [|exact IH].
  unfold is_u8, UINT8_MOD. lia.
Qed.

Lemma Forall_firstn {A} (P : A -> Prop) (l : list A) (n : nat) :
  Forall P l -> Forall P (firstn n l).
Proof.
  intros H. revert n. induction H as [|x l Hx Hl IH]; intros [|n]; cbn; auto.
Qed.

Lemma frame_to_send_valid (ident : Z) (bytes : list Z) (len : Z) :
  is_u32 ident -> Forall is_u8 bytes ->
  0 <= len <= 8 -> (Z.to_nat len <= Datatypes.length bytes)%nat ->
  valid_frame (frame_to_send ident bytes len).
Proof.
  intros Hid Hb Hl Hn. unfold valid_frame.
  rewrite frame_to_send_data_length by assumption.
  cbn [frame_to_send echo_id can_id can_dlc channel frame_flags reserved data
       timestamp_us].
  rewrite skipn_repeat_zero by lia.
  unfold is_u32, is_u8, UINT32_MOD, UINT8_MOD in *.
  repeat split; try lia.
  apply Forall_app. split.
  - now apply Forall_firstn.
  - apply Forall_is_u8_repeat_zero.
Qed.

(** X8. With a device open, [usb_can_send_frame] with a length of at
    most 8 hands the transport one buffer of 24 bytes: a zero echo id, the
    identifier, the length, three zero bytes, the first [length] data
    bytes, zeros up to 8 data bytes, and a zero timestamp.  The bytes of
    the caller's array past [length] are never transmitted, and the call
    returns what the transfer returns. *)
Theorem send_frame_wire_image
    (w : world) (h : nat) (ident : Z) (bytes : list Z) (len : Z) :
  device_handle w = Some h ->
  0 <= len <= 8 ->
  (Z.to_nat len <= Datatypes.length bytes)%nat ->
  let n := Z.to_nat len in
  let image := [0; 0; 0; 0] ++ le32 ident ++ [len; 0; 0; 0]
               ++ firstn n bytes ++ repeat 0 (8 - n) ++ [0; 0; 0; 0] in
  Datatypes.length image = 24%nat
  /\ (exists w',
        usb_can_send_frame ident (Some bytes) len w = Ok (xfer_ret (head_reply w)) w'
        /\ usb_log w' = usb_log w ++ [BulkTransfer h 2 image 24 (rep_ret (head_reply w))])
  /\ (forall bytes',
        firstn n bytes' = firstn n bytes ->
        (n <= Datatypes.length bytes')%nat ->
        usb_can_send_frame ident (Some bytes') len w
        = usb_can_send_frame ident (Some bytes) len w).
Proof.
  intros Hh Hl Hn n image.
  assert (encode_frame (frame_to_send ident bytes len) = image) as Himg.
  { unfold encode_frame, image.
    cbn [frame_to_send echo_id can_id can_dlc channel frame_flags reserved data
         timestamp_us].
    fold n. rewrite skipn_repeat_zero by lia.
    change (le32 0) with [0; 0; 0; 0]. rewrite <- !app_assoc. reflexivity. }
  split; [|split].
  - rewrite <- Himg. apply encode_frame_length.
    now apply frame_to_send_data_length.
  - rewrite (send_frame_eq ident bytes len w h Hh Hl Hn).
    eexists. split; [reflexivity|]. unfold bulk_out_event. rewrite Himg. reflexivity.
  - intros bytes' Hsame Hn'.
    rewrite (send_frame_eq ident bytes len w h Hh Hl Hn).
    rewrite (send_frame_eq ident bytes' len w h Hh Hl Hn').
    unfold frame_to_send. fold n. rewrite Hsame. reflexivity.
Qed.

(** X8, instance: two bytes sent out of an array of four. *)
Lemma send_frame_wire_image_witness :
  exists w',
    usb_can_send_frame 291 (Some [17; 34; 51; 68]) 2 (opened_world [sent_reply]) = Ok 24 w'
    /\ usb_log w' =
       [BulkTransfer 1 2 [0; 0; 0; 0; 35; 1; 0; 0; 2; 0; 0; 0;
                          17; 34; 0; 0; 0; 0; 0; 0; 0; 0; 0; 0] 24 0].
Proof.
  destruct (send_frame_wire_image (opened_world [sent_reply]) 1 291 [17; 34; 51; 68] 2
              eq_refl ltac:(lia) ltac:(cbn; lia))
    as (_ & (w' & Hrun & Hlog) & _).
  exists w'. split; [exact Hrun | exact Hlog].
Defined.

(** X9. What is sent is what a looped-back frame reads as.  With a
    device open, when a frame is sent and the transfer that follows
    delivers the 24 bytes that were sent, [usb_can_receive_frame] returns
    0 with the identifier and length that were sent, a zero timestamp,
    and the first [length] bytes of the caller's buffer equal to the
    bytes sent; the rest of the buffer stays as it was. *)
Theorem send_receive_loopback
    (w : world) (h : nat) (ident : Z) (bytes : list Z) (len : Z)
    (a b c : Z) (buf : list Z) (r_out r_in : usb_reply) (rest : list usb_reply) :
  device_handle w = Some h ->
  is_u32 ident -> Forall is_u8 bytes ->
  0 <= len <= 8 -> (Z.to_nat len <= Datatypes.length bytes)%nat ->
  (8 <= Datatypes.length buf)%nat ->
  usb_replies w = r_out :: r_in :: rest ->
  0 <= xfer_ret r_out -> 0 <= xfer_ret r_in ->
  rep_data r_in = encode_frame (frame_to_send ident bytes len) ->
  exists w',
    (sent <- usb_can_send_frame ident (Some bytes) len ;;
     usb_can_receive_frame (mk_rx_out (Some a) (Some buf) (Some b) (Some c))) w
    = Ok (0, mk_rx_out (Some ident)
                       (Some (firstn (Z.to_nat len) bytes ++ skipn (Z.to_nat len) buf))
                       (Some len) (Some 0)) w'
    /\ usb_replies w' = rest.
Proof.
  intros Hh Hid Hb Hl Hn Hbuf Hs Ho Hi Hdata.
  set (f := frame_to_send ident bytes len) in *.
  assert (valid_frame f) as Hvalid by (now apply frame_to_send_valid).
  set (w1 := log_event (bulk_out_event h f (head_reply w)) (after_reply w)).
  assert (device_handle w1 = Some h) as Hh1 by exact Hh.
  assert (head_reply w1 = r_in) as Hr1
    by (unfold head_reply, w1; cbn; rewrite Hs; reflexivity).
  assert (received r_in = f) as Hrx.
  { rewrite received_eq_decode, Hdata.
    rewrite firstn_encode_frame by (now apply frame_to_send_data_length).
    now apply decode_encode_frame. }
  rewrite (bind_eq _ _ _ _ _ (send_frame_eq ident bytes len w h Hh Hl Hn)).
  fold f w1.
  pose proof (receive_frame_in_range a b c buf w1 h Hh1) as Hrecv.
  rewrite Hr1, Hrx in Hrecv.
  specialize (Hrecv Hi ltac:(cbn; lia) Hbuf). cbv zeta in Hrecv.
  rewrite Hrecv. eexists. split.
  - f_equal. f_equal. f_equal.
    unfold f. cbn [can_id frame_to_send can_dlc data timestamp_us].
    rewrite firstn_app, firstn_firstn, Nat.min_id, length_firstn.
    replace (Z.to_nat len - Nat.min (Z.to_nat len) (Datatypes.length bytes))%nat
      with 0%nat by lia.
    cbn [firstn]. rewrite app_nil_r. reflexivity.
  - unfold w1. cbn. rewrite Hs. reflexivity.
Qed.

(** X9, instance: three bytes sent and looped back. *)
Lemma send_receive_loopback_witness :
  exists w',
    (sent <- usb_can_send_frame 291 (Some [17; 34; 51]) 3 ;;
     usb_can_receive_frame (mk_rx_out (Some 0) (Some (repeat 9 8)) (Some 0) (Some 0)))
      (opened_world [sent_reply; frame_reply (frame_to_send 291 [17; 34; 51] 3)])
    = Ok (0, mk_rx_out (Some 291) (Some [17; 34; 51; 9; 9; 9; 9; 9]) (Some 3) (Some 0)) w'.
Proof.
  destruct (send_receive_loopback
              (opened_world [sent_reply; frame_reply (frame_to_send 291 [17; 34; 51] 3)])
              1 291 [17; 34; 51] 3 0 0 0 (repeat 9 8)
              sent_reply (frame_reply (frame_to_send 291 [17; 34; 51] 3)) []
              eq_refl
              ltac:(unfold is_u32, UINT32_MOD; lia)
              ltac:(repeat (constructor; [unfold is_u8, UINT8_MOD; lia|]); constructor)
              ltac:(lia) ltac:(cbn; lia) ltac:(cbn; lia) eq_refl
              ltac:(vm_compute; discriminate) ltac:(vm_compute; discriminate) eq_refl)
    as (w' & Hrun & _).
  exists w'. exact Hrun.
Defined.

(** ** The query, whatever the transport does *)

Lemma head_reply_Forall (P : usb_reply -> Prop) (w : world) :
  P timeout_reply -> Forall P (usb_replies w) -> P (head_reply w).
Proof.
  intros Ht H. unfold head_reply. destruct (usb_replies w) as [|r rs]; [exact Ht|].
  now inversion H.
Qed.

Lemma tl_Forall {A} (P : A -> Prop) (l : list A) :
  Forall P l -> Forall P (tl l).
Proof.
  destruct l as [|x l]; intros H; [exact H | now inversion H].
Qed.

Lemma dlc_ok_timeout : dlc_ok timeout_reply.
Proof. unfold dlc_ok. cbn. lia. Qed.

Lemma bytes_ok_timeout : bytes_ok timeout_reply.
Proof. constructor. Qed.

(** X10. With a device open, valid output buffers and a transport that
    delivers CAN frames, [usb_can_read_obd_pid] always returns, with 0 or
    a negative value.  A negative value leaves both output buffers
    exactly as they were.  On 0 the value stored has at most 5 bytes, the
    stored length is its length, and the buffer past the value stays as
    it was.  When the send fails, its code is returned and nothing is
    received. *)
Theorem read_obd_pid_all_or_nothing
    (w : world) (h : nat) (pid : Z) (resp : list Z) (len0 : Z) :
  device_handle w = Some h ->
  Forall dlc_ok (usb_replies w) ->
  (5 <= Datatypes.length resp)%nat ->
  exists (code : Z) (outs : option (list Z) * option Z) (w' : world),
    usb_can_read_obd_pid pid (Some resp) (Some len0) w = Ok (code, outs) w'
    /\ code <= 0
    /\ (code < 0 -> outs = (Some resp, Some len0))
    /\ (code = 0 ->
        exists value,
          (Datatypes.length value <= 5)%nat
          /\ outs = (Some (value ++ skipn (Datatypes.length value) resp),
                     Some (Z.of_nat (Datatypes.length value))))
    /\ (xfer_ret (head_reply w) < 0 ->
        code = xfer_ret (head_reply w) /\ w' = after_send h pid w).
Proof.
  intros Hh Hok Hroom.
  set (w1 := after_send h pid w).
  set (w2 := after_receive h w1).
  assert (Forall dlc_ok (usb_replies w1)) as Hok1 by (now apply tl_Forall).
  assert (Forall dlc_ok (usb_replies w2)) as Hok2 by (now apply tl_Forall).
  pose proof (head_reply_Forall dlc_ok w1 dlc_ok_timeout Hok1) as Hd1.
  pose proof (head_reply_Forall dlc_ok w2 dlc_ok_timeout Hok2) as Hd2.
  unfold dlc_ok in Hd1, Hd2. rewrite <- received_can_dlc in Hd1, Hd2.
  pose proof (read_obd_pid_eq w h pid resp len0 Hh Hd1 Hd2 Hroom) as Heq.
  cbv zeta in Heq. fold w1 w2 in Heq. rewrite Heq. clear Heq.
  set (f := received (head_reply w2)) in *.
  destruct (xfer_ret (head_reply w) <? 0) eqn:E0;
    [apply Z.ltb_lt in E0 | apply Z.ltb_ge in E0].
  { eexists. eexists. eexists. split; [reflexivity|].
    repeat split; try lia; auto. }
  destruct (xfer_ret (head_reply w1) <? 0) eqn:E1;
    [apply Z.ltb_lt in E1 | apply Z.ltb_ge in E1].
  { eexists. eexists. eexists. split; [reflexivity|].
    repeat split; try lia; auto. }
  destruct (xfer_ret (head_reply w2) <? 0) eqn:E2;
    [apply Z.ltb_lt in E2 | apply Z.ltb_ge in E2].
  { eexists. eexists. eexists. split; [reflexivity|].
    repeat split; try lia; auto. }
  destruct (obd_response_ok pid f) eqn:Eok.
  - assert (3 <= can_dlc f) as H3.
    { unfold obd_response_ok in Eok.
      destruct (3 <=? can_dlc f) eqn:E3; [now apply Z.leb_le in E3 | discriminate]. }
    assert (Datatypes.length (obd_value f) = (Z.to_nat (can_dlc f) - 3)%nat) as Hlen
      by (apply obd_value_length; [lia | reflexivity]).
    eexists. eexists. eexists. split; [reflexivity|].
    split; [lia|]. split; [lia|]. split; [|lia].
    intros _. exists (obd_value f). rewrite Hlen. split; [lia|].
    f_equal. f_equal. lia.
  - eexists. eexists. eexists. split; [reflexivity|].
    repeat split; try lia; auto.
Qed.

(** X10, instance: the echo arrives and then the transport times out. *)
Lemma read_obd_pid_all_or_nothing_witness :
  exists w',
    usb_can_read_obd_pid 12 (Some (repeat 7 8)) (Some 9)
      (opened_world [sent_reply; frame_reply (echo_of 12)])
    = Ok (LIBUSB_ERROR_TIMEOUT, (Some (repeat 7 8), Some 9)) w'.
Proof.
  destruct (read_obd_pid_all_or_nothing
              (opened_world [sent_reply; frame_reply (echo_of 12)]) 1 12 (repeat 7 8) 9
              eq_refl
              ltac:(unfold dlc_ok; repeat constructor; vm_compute; discriminate)
              ltac:(cbn; lia))
    as (code & outs & w' & Hrun & _ & Hneg & _).
  assert (code = LIBUSB_ERROR_TIMEOUT) as Hc
    by (vm_compute in Hrun; now injection Hrun as Hc _ _).
  exists w'. rewrite Hrun. rewrite (Hneg ltac:(rewrite Hc; reflexivity)), Hc. reflexivity.
Defined.

(** ** The wrapper when it is not connected *)

Lemma ReadObdPid_disconnected (this : UsbCanDevice) (pid : Z) (w : world) :
  IsConnected this = false -> ReadObdPid this pid w = Ok None w.
Proof. intros Hc. unfold ReadObdPid. now rewrite Hc. Qed.

(** X11. A wrapper object that is not connected never reaches the
    native library: every method that talks to the device returns its
    failure value ([false], [null], -1, or an empty array) and makes no
    libusb call, whatever the state of the library. *)
Theorem disconnected_wrapper_is_inert (this : UsbCanDevice) (w : world) :
  IsConnected this = false ->
  (forall enable, SetIdentify this enable w = Ok false w)
  /\ (forall bitrate, SetBitrate this bitrate w = Ok false w)
  /\ (forall loopback, StartCan this loopback w = Ok false w)
  /\ StopCan this w = Ok false w
  /\ (forall canId payload, SendFrame this canId payload w = Ok false w)
  /\ ReceiveFrame this w = Ok (mk_received_frame false 0 None 0) w
  /\ (forall fuel, PurgeReceiveQueue fuel this w = Ok (-1) w)
  /\ (forall pid, ReadObdPid this pid w = Ok None w)
  /\ GetEngineRpm this w = Ok (inject_Z (-1)) w
  /\ GetVehicleSpeed this w = Ok (-1) w
  /\ GetThrottlePosition this w = Ok (-1) w
  /\ (forall fuel, (4 <= fuel)%nat -> GetSupportedPids fuel this w = Ok [] w).
Proof.
  intros Hc.
  repeat split; intros;
    try (unfold SetIdentify, SetBitrate, StartCan, StopCan, ReceiveFrame,
                PurgeReceiveQueue; rewrite Hc; reflexivity).
  - unfold SendFrame. destruct payload; [|reflexivity]. now rewrite Hc.
  - now apply ReadObdPid_disconnected.
  - unfold GetEngineRpm, bind. now rewrite ReadObdPid_disconnected.
  - unfold GetVehicleSpeed, bind. now rewrite ReadObdPid_disconnected.
  - unfold GetThrottlePosition, bind. now rewrite ReadObdPid_disconnected.
  - rewrite GetSupportedPids_unroll by assumption.
    unfold bind. rewrite !ReadObdPid_disconnected by assumption. reflexivity.
Qed.

(** X11, instance: a fresh object on an opened session with traffic
    pending. *)
Lemma disconnected_wrapper_is_inert_witness :
  SendFrame (mk_device false) 291 (Some [1; 2]) (rpm_world 5) = Ok false (rpm_world 5)
  /\ GetSupportedPids 4 (mk_device false) (rpm_world 5) = Ok [] (rpm_world 5).
Proof.
  destruct (disconnected_wrapper_is_inert (mk_device false) (rpm_world 5) eq_refl)
    as (_ & _ & _ & _ & Hsend & _ & _ & _ & _ & _ & _ & Hpids).
  split; [apply Hsend | apply Hpids; lia].
Defined.

(** ** SendFrame and ReceiveFrame *)

(** X12. [SendFrame] never makes the native copy leave the caller's
    array: it always returns.  A null array or one longer than 8 bytes
    is refused without any libusb call.  Otherwise, on an open device,
    the whole array is sent as one frame whose length is the length of
    the array, and the result is [true] exactly when the transfer
    succeeded; with no device open the result is [false]. *)
Theorem SendFrame_sends_whole_array
    (this : UsbCanDevice) (canId : Z) (payload : option (list Z)) (w : world) :
  IsConnected this = true ->
  match payload with
  | None => SendFrame this canId payload w = Ok false w
  | Some bytes =>
      if (8 <? Datatypes.length bytes)%nat then SendFrame this canId payload w = Ok false w
      else match device_handle w with
           | None => SendFrame this canId payload w = Ok false w
           | Some h =>
               let f := mk_frame 0 canId (Z.of_nat (Datatypes.length bytes)) 0 0 0
                                 (bytes ++ repeat 0 (8 - Datatypes.length bytes)) 0 in
               SendFrame this canId payload w
               = Ok (0 <=? xfer_ret (head_reply w))
                    (log_event (bulk_out_event h f (head_reply w)) (after_reply w))
           end
  end.
Proof.
  intros Hc. destruct payload as [bytes|]; [|reflexivity].
  unfold SendFrame. rewrite Hc. cbn [negb orb].
  destruct (8 <? Datatypes.length bytes)%nat eqn:El; [reflexivity|].
  apply Nat.ltb_ge in El.
  assert (u8 (Z.of_nat (Datatypes.length bytes)) = Z.of_nat (Datatypes.length bytes)) as ->
    by (unfold u8, UINT8_MOD; apply Z.mod_small; lia).
  destruct (device_handle w) as [h|] eqn:Hh.
  - cbv zeta. unfold bind.
    rewrite (send_frame_eq canId bytes _ w h Hh) by lia.
    unfold frame_to_send. rewrite Nat2Z.id, firstn_all, skipn_repeat_zero by lia.
    reflexivity.
  - unfold bind. rewrite send_frame_null_handle by exact Hh. reflexivity.
Qed.

(** X12, instance: two bytes sent on an opened session. *)
Lemma SendFrame_sends_whole_array_witness :
  exists w', SendFrame (mk_device true) 291 (Some [17; 34]) (opened_world [sent_reply])
             = Ok true w'.
Proof.
  pose proof (SendFrame_sends_whole_array (mk_device true) 291 (Some [17; 34])
                (opened_world [sent_reply]) eq_refl) as H.
  cbn [Datatypes.length Nat.ltb Nat.leb device_handle opened_world] in H. cbv zeta in H.
  eexists. exact H.
Defined.

(** X13. On a connected wrapper with a device open, [ReceiveFrame] makes
    one bulk-in transfer.  When it fails the result is [false] with a
    null array and zero identifier and timestamp.  When it delivers a CAN
    frame the result is [true] with the frame's identifier and
    timestamp and a fresh array holding exactly the first [dlc] data
    bytes of the frame. *)
Theorem ReceiveFrame_returns_payload (this : UsbCanDevice) (w : world) (h : nat) :
  IsConnected this = true ->
  device_handle w = Some h ->
  0 <= can_dlc (received (head_reply w)) <= 8 ->
  let f := received (head_reply w) in
  let w' := log_event (bulk_in_event h (head_reply w)) (after_reply w) in
  ReceiveFrame this w =
  if xfer_ret (head_reply w) <? 0
  then Ok (mk_received_frame false 0 None 0) w'
  else Ok (mk_received_frame true (can_id f)
             (Some (firstn (Z.to_nat (can_dlc f)) (data f))) (timestamp_us f)) w'.
Proof.
  intros Hc Hh Hd f w'. subst f w'. unfold ReceiveFrame. rewrite Hc. cbn [negb].
  unfold bind. rewrite (receive_frame_eq _ _ _ _ _ h Hh). cbv zeta.
  set (f := received (head_reply w)) in *.
  assert (Datatypes.length (data f) = 8%nat) as Hdata by reflexivity.
  destruct (xfer_ret (head_reply w) <? 0) eqn:E.
  - apply Z.ltb_lt in E.
    assert ((0 <=? xfer_ret (head_reply w)) = false) as -> by (apply Z.leb_gt; lia).
    reflexivity.
  - rewrite memcpy_ok by (rewrite ?Hdata, ?repeat_length; lia).
    cbv beta iota. cbn [deref rx_can_id rx_data rx_length rx_timestamp].
    assert ((0 <=? 0) = true) as -> by reflexivity.
    set (n := Z.to_nat (can_dlc f)).
    assert (n <= 8)%nat as Hn by (subst n; lia).
    set (copied := firstn n (data f) ++ skipn n (repeat 0 8)).
    assert (Datatypes.length copied = 8%nat) as Hcopied.
    { unfold copied. rewrite length_app, length_firstn, length_skipn, repeat_length, Hdata.
      lia. }
    assert ((n <=? Datatypes.length copied)%nat = true) as ->
      by (apply Nat.leb_le; lia).
    unfold copied.
    rewrite firstn_app, firstn_firstn, Nat.min_id, length_firstn, Hdata.
    replace (n - Nat.min n 8)%nat with 0%nat by lia.
    cbn [firstn]. rewrite app_nil_r. reflexivity.
Qed.

(** X13, instance: the 5-byte RPM response. *)
Lemma ReceiveFrame_returns_payload_witness :
  exists w',
    ReceiveFrame (mk_device true) (opened_world [frame_reply (rpm_response 5)])
    = Ok (mk_received_frame true 2024 (Some [4; 65; 12; 26; 248]) 0) w'.
Proof.
  eexists.
  rewrite (ReceiveFrame_returns_payload (mk_device true)
             (opened_world [frame_reply (rpm_response 5)]) 1 eq_refl eq_refl
             ltac:(vm_compute; split; discriminate)).
  reflexivity.
Defined.

(** ** The typed decoders *)

Lemma Forall_skipn {A} (P : A -> Prop) (l : list A) (n : nat) :
  Forall P l -> Forall P (skipn n l).
Proof.
  intros H. revert n. induction H as [|x l Hx Hl IH]; intros [|n]; cbn; auto.
Qed.

Lemma received_data_bytes (r : usb_reply) :
  bytes_ok r -> Forall is_u8 (data (received r)).
Proof.
  intros Hb. rewrite received_eq_decode. cbn [decode_frame data]. unfold rd_bytes.
  apply Forall_map, Forall_forall. intros i _.
  apply byte_at_is_u8. now apply Forall_firstn.
Qed.

(** What [ReadObdPid] answers on a transport that delivers CAN frames
    made of bytes: nothing, or at most 5 bytes. *)
Lemma ReadObdPid_answer (this : UsbCanDevice) (pid : Z) (w : world) (h : nat) :
  IsConnected this = true ->
  device_handle w = Some h ->
  Forall dlc_ok (usb_replies w) ->
  Forall bytes_ok (usb_replies w) ->
  exists answer w',
    ReadObdPid this pid w = Ok answer w'
    /\ match answer with
       | None => True
       | Some d => (Datatypes.length d <= 5)%nat /\ Forall is_u8 d
       end.
Proof.
  intros Hc Hh Hok Hbytes.
  set (w1 := after_send h pid w).
  set (w2 := after_receive h w1).
  assert (Forall dlc_ok (usb_replies w1)) as Hok1 by (now apply tl_Forall).
  assert (Forall dlc_ok (usb_replies w2)) as Hok2 by (now apply tl_Forall).
  assert (Forall bytes_ok (usb_replies w2)) as Hb2
    by (apply tl_Forall; now apply tl_Forall).
  pose proof (head_reply_Forall dlc_ok w1 dlc_ok_timeout Hok1) as Hd1.
  pose proof (head_reply_Forall dlc_ok w2 dlc_ok_timeout Hok2) as Hd2.
  pose proof (head_reply_Forall bytes_ok w2 bytes_ok_timeout Hb2) as Hbr.
  unfold dlc_ok in Hd1, Hd2. rewrite <- received_can_dlc in Hd1, Hd2.
  pose proof (ReadObdPid_eq this pid w h Hc Hh) as Heq. cbv zeta in Heq.
  fold w1 w2 in Heq. specialize (Heq Hd1 Hd2). rewrite Heq. clear Heq.
  destruct (xfer_ret (head_reply w) <? 0); [now eexists; eexists|].
  destruct (xfer_ret (head_reply w1) <? 0); [now eexists; eexists|].
  destruct (xfer_ret (head_reply w2) <? 0); [now eexists; eexists|].
  destruct (obd_response_ok pid (received (head_reply w2))); [|now eexists; eexists].
  eexists. eexists. split; [reflexivity|]. split.
  - unfold obd_value. rewrite length_firstn, length_skipn, received_data_length. lia.
  - unfold obd_value. apply Forall_firstn, Forall_skipn.
    now apply received_data_bytes.
Qed.

(** X14. On a connected wrapper with a device open and a transport that
    delivers CAN frames made of bytes, [GetVehicleSpeed] returns -1 or a
    speed from 0 to 255, and [GetThrottlePosition] returns -1 or a
    percentage from 0 to 100: the failure value never collides with a
    reading. *)
Theorem speed_and_throttle_ranges (this : UsbCanDevice) (w : world) (h : nat) :
  IsConnected this = true ->
  device_handle w = Some h ->
  Forall dlc_ok (usb_replies w) ->
  Forall bytes_ok (usb_replies w) ->
  (exists v w', GetVehicleSpeed this w = Ok v w' /\ (v = -1 \/ 0 <= v <= 255))
  /\ (exists v w', GetThrottlePosition this w = Ok v w' /\ (v = -1 \/ 0 <= v <= 100)).
Proof.
  intros Hc Hh Hok Hbytes. split.
  - destruct (ReadObdPid_answer this 13 w h Hc Hh Hok Hbytes) as (ans & w' & E & Hans).
    unfold GetVehicleSpeed, bind. rewrite E.
    destruct ans as [d|]; [|exists (-1), w'; split; [reflexivity | now left]].
    destruct Hans as (_ & Hd).
    destruct (1 <=? Datatypes.length d)%nat;
      [|exists (-1), w'; split; [reflexivity | now left]].
    eexists. eexists. split; [reflexivity|]. right.
    pose proof (byte_at_is_u8 d 0 Hd) as Hb. unfold is_u8, UINT8_MOD in Hb. lia.
  - destruct (ReadObdPid_answer this 17 w h Hc Hh Hok Hbytes) as (ans & w' & E & Hans).
    unfold GetThrottlePosition, bind. rewrite E.
    destruct ans as [d|]; [|exists (-1), w'; split; [reflexivity | now left]].
    destruct Hans as (_ & Hd).
    destruct (1 <=? Datatypes.length d)%nat;
      [|exists (-1), w'; split; [reflexivity | now left]].
    eexists. eexists. split; [reflexivity|]. right.
    pose proof (byte_at_is_u8 d 0 Hd) as Hb. unfold is_u8, UINT8_MOD in Hb.
    split.
    + apply Z.div_pos; lia.
    + apply Z.div_le_upper_bound; lia.
Qed.

(** X14, instance: the reading 255 is 100 percent. *)
Lemma speed_and_throttle_ranges_witness :
  exists v w',
    GetThrottlePosition (mk_device true) (throttle_world 255) = Ok v w'
    /\ (v = -1 \/ 0 <= v <= 100).
Proof.
  destruct (speed_and_throttle_ranges (mk_device true) (throttle_world 255) 1
              eq_refl eq_refl) as (_ & H).
  - unfold dlc_ok. repeat constructor; vm_compute; discriminate.
  - unfold bytes_ok, throttle_world, opened_world, usb_replies.
    repeat (constructor; [repeat (constructor; [unfold is_u8, UINT8_MOD; cbn; lia|]);
                          constructor|]).
    constructor.
  - exact H.
Defined.

(** X15. Under the same conditions [GetEngineRpm] returns -1 or a
    multiple of one quarter between 0 and 65535/4 = 16383.75. *)
Theorem engine_rpm_range (this : UsbCanDevice) (w : world) (h : nat) :
  IsConnected this = true ->
  device_handle w = Some h ->
  Forall dlc_ok (usb_replies w) ->
  Forall bytes_ok (usb_replies w) ->
  exists q w',
    GetEngineRpm this w = Ok q w'
    /\ (q = inject_Z (-1) \/ exists k, 0 <= k <= 65535 /\ q = Qmake k 4).
Proof.
  intros Hc Hh Hok Hbytes.
  destruct (ReadObdPid_answer this 12 w h Hc Hh Hok Hbytes) as (ans & w' & E & Hans).
  unfold GetEngineRpm, bind. rewrite E.
  destruct ans as [d|]; [|eexists; exists w'; split; [reflexivity | now left]].
  destruct Hans as (_ & Hd).
  destruct (2 <=? Datatypes.length d)%nat;
    [|eexists; exists w'; split; [reflexivity | now left]].
  eexists. eexists. split; [reflexivity|]. right.
  exists (Z.shiftl (byte_at d 0) 8 + byte_at d 1). split; [|reflexivity].
  pose proof (byte_at_is_u8 d 0 Hd) as B0. pose proof (byte_at_is_u8 d 1 Hd) as B1.
  unfold is_u8, UINT8_MOD in *. rewrite Z.shiftl_mul_pow2 by lia.
  change (2 ^ 8) with 256. lia.
Qed.

(** X15, instance: the 5-byte RPM response. *)
Lemma engine_rpm_range_witness :
  exists q w',
    GetEngineRpm (mk_device true) (rpm_world 5) = Ok q w'
    /\ (q = inject_Z (-1) \/ exists k, 0 <= k <= 65535 /\ q = Qmake k 4).
Proof.
  apply (engine_rpm_range (mk_device true) (rpm_world 5) 1 eq_refl eq_refl).
  - unfold dlc_ok. repeat constructor; vm_compute; discriminate.
  - unfold bytes_ok, rpm_world, opened_world, usb_replies.
    repeat (constructor; [repeat (constructor; [unfold is_u8, UINT8_MOD; cbn; lia|]);
                          constructor|]).
    constructor.
Defined.

(** ** The list of supported PIDs *)

Lemma StronglySorted_seq (a n : nat) : StronglySorted lt (seq a n).
Proof.
  revert a. induction n as [|n IH]; intros a; cbn; constructor.
  - apply IH.
  - apply Forall_forall. intros x Hx. apply in_seq in Hx. lia.
Qed.

Lemma StronglySorted_filter {A} (R : A -> A -> Prop) (p : A -> bool) (l : list A) :
  StronglySorted R l -> StronglySorted R (filter p l).
Proof.
  induction 1 as [|x l Hl IH Hx]; cbn; [constructor|].
  destruct (p x); [|exact IH].
  constructor; [exact IH|].
  apply Forall_forall. intros y Hy. apply filter_In in Hy.
  rewrite Forall_forall in Hx. now apply Hx.
Qed.

Lemma StronglySorted_map_Z (f : nat -> Z) (l : list nat) :
  (forall i j, (i < j)%nat -> f i < f j) ->
  StronglySorted lt l -> StronglySorted Z.lt (map f l).
Proof.
  intros Hf. induction 1 as [|x l Hl IH Hx]; cbn; constructor; [exact IH|].
  apply Forall_map. eapply Forall_impl; [|exact Hx]. intros y. apply Hf.
Qed.

Lemma StronglySorted_app_Z (l1 l2 : list Z) :
  StronglySorted Z.lt l1 -> StronglySorted Z.lt l2 ->
  (forall x y, In x l1 -> In y l2 -> x < y) ->
  StronglySorted Z.lt (l1 ++ l2).
Proof.
  intros H1 H2 H12. induction H1 as [|x l Hl IH Hx]; cbn; [exact H2|].
  constructor.
  - apply IH. intros a b Ha Hb. apply H12; [now right | exact Hb].
  - apply Forall_app. split; [exact Hx|].
    apply Forall_forall. intros y Hy. apply H12; [now left | exact Hy].
Qed.

(** What one iteration appends is increasing and lies in the range of
    its base PID, whatever the answer was. *)
Lemma supported_in_sorted (baseId : Z) (answer : option (list Z)) :
  StronglySorted Z.lt (supported_in baseId answer)
  /\ (forall p, In p (supported_in baseId answer) -> baseId <= p < baseId + 32).
Proof.
  unfold supported_in.
  destruct answer as [d|]; [|split; [constructor | intros p []]].
  destruct (4 <=? Datatypes.length d)%nat; [|split; [constructor | intros p []]].
  unfold decode_supported. split.
  - apply StronglySorted_map_Z; [intros i j Hij; lia|].
    apply StronglySorted_filter, StronglySorted_seq.
  - intros p Hp. apply in_map_iff in Hp. destruct Hp as (i & <- & Hi).
    apply filter_In in Hi. destruct Hi as (Hi & _). apply in_seq in Hi. lia.
Qed.

(** X16. On a connected wrapper with a device open and a transport that
    delivers CAN frames, [GetSupportedPids] returns a strictly increasing
    list of numbers from 0 to 95, hence one without repetitions, whatever
    the vehicle answers: a range that is not answered contributes nothing
    and never shifts the numbering of the ranges after it. *)
Theorem supported_pids_increasing
    (this : UsbCanDevice) (w : world) (h : nat) (fuel : nat) :
  IsConnected this = true ->
  device_handle w = Some h ->
  Forall dlc_ok (usb_replies w) ->
  (4 <= fuel)%nat ->
  exists pids w',
    GetSupportedPids fuel this w = Ok pids w'
    /\ StronglySorted Z.lt pids
    /\ (forall p, In p pids -> 0 <= p < 96)
    /\ NoDup pids.
Proof.
  intros Hc Hh Hok Hfuel.
  destruct (ReadObdPid_query this 0 w h Hc Hh Hok) as (d0 & w0 & R0 & Hh0 & Hok0 & _).
  destruct (ReadObdPid_query this 32 w0 h Hc Hh0 Hok0) as (d1 & w1 & R1 & Hh1 & Hok1 & _).
  destruct (ReadObdPid_query this 64 w1 h Hc Hh1 Hok1) as (d2 & w2 & R2 & _ & _ & _).
  destruct (supported_in_sorted 0 d0) as (S0 & B0).
  destruct (supported_in_sorted 32 d1) as (S1 & B1).
  destruct (supported_in_sorted 64 d2) as (S2 & B2).
  assert (StronglySorted Z.lt
            (supported_in 0 d0 ++ supported_in 32 d1 ++ supported_in 64 d2)) as Hs.
  { apply StronglySorted_app_Z; [exact S0| |].
    - apply StronglySorted_app_Z; [exact S1 | exact S2 |].
      intros x y Hx Hy. apply B1 in Hx. apply B2 in Hy. lia.
    - intros x y Hx Hy. apply B0 in Hx. apply in_app_or in Hy.
      destruct Hy as [Hy|Hy]; [apply B1 in Hy | apply B2 in Hy]; lia. }
  eexists. exists w2. split; [|split; [exact Hs | split]].
  - rewrite GetSupportedPids_unroll by exact Hfuel.
    unfold bind. rewrite R0, R1, R2. reflexivity.
  - intros p Hp. apply in_app_or in Hp. destruct Hp as [Hp|Hp]; [apply B0 in Hp; lia|].
    apply in_app_or in Hp. destruct Hp as [Hp|Hp]; [apply B1 in Hp | apply B2 in Hp]; lia.
  - revert Hs. generalize (supported_in 0 d0 ++ supported_in 32 d1 ++ supported_in 64 d2).
    induction 1 as [|x l Hl IH Hx]; constructor; [|exact IH].
    intros Hin. rewrite Forall_forall in Hx. apply Hx in Hin. lia.
Qed.

(** X16, instance: a vehicle that answers every range with all ones. *)
Lemma supported_pids_increasing_witness :
  exists pids w',
    GetSupportedPids 4 (mk_device true) six_ranges_world = Ok pids w'
    /\ StronglySorted Z.lt pids
    /\ (forall p, In p pids -> 0 <= p < 96)
    /\ NoDup pids.
Proof.
  apply (supported_pids_increasing (mk_device true) six_ranges_world 1 4 eq_refl eq_refl).
  - unfold dlc_ok. repeat constructor; vm_compute; discriminate.
  - lia.
Defined.

(** ** Connecting, disconnecting and disposing *)

Lemma closed_after_control_transfer (h : nat) (t req : Z) (p : list Z) (n : nat)
    (r : Z) (w : world) :
  closed_handles (log_event (ControlTransfer h t req p n r) (after_reply w))
  = closed_handles w.
Proof.
  unfold closed_handles. cbn. rewrite filter_app. cbn. apply app_nil_r.
Qed.

Lemma configure_device_eq (ans : configure_answers) (w : world) (h : nat) :
  device_handle w = Some h ->
  steps_ok ans = true ->
  usb_can_configure_device ans w =
  Ok (if rep_ret (head_reply w) <? 0 then rep_ret (head_reply w) else 0)
     (log_event (host_format_event h (head_reply w)) (after_reply w)).
Proof.
  intros Hh Hs. unfold steps_ok in Hs.
  apply andb_prop in Hs. destruct Hs as (Hs & H4).
  apply andb_prop in Hs. destruct Hs as (Hs & H3).
  apply andb_prop in Hs. destruct Hs as (H1 & H2).
  apply Z.leb_le in H1, H2, H3, H4.
  unfold usb_can_configure_device, bind at 1, gets. rewrite Hh.
  assert ((get_config_ret ans <? 0) = false) as -> by (apply Z.ltb_ge; lia).
  assert ((set_configuration_ret ans <? 0) = false) as -> by (apply Z.ltb_ge; lia).
  assert ((claim_interface_ret ans <? 0) = false) as -> by (apply Z.ltb_ge; lia).
  assert ((set_alt_setting_ret ans <? 0) = false) as -> by (apply Z.ltb_ge; lia).
  unfold bind. rewrite control_out_eq.
  destruct (rep_ret (head_reply w) <? 0); reflexivity.
Qed.

Lemma configure_device_failed_step (ans : configure_answers) (w : world) (h : nat) :
  device_handle w = Some h ->
  steps_ok ans = false ->
  exists r, r < 0 /\ usb_can_configure_device ans w = Ok r w.
Proof.
  intros Hh Hs. unfold steps_ok in Hs.
  unfold usb_can_configure_device, bind at 1, gets. rewrite Hh.
  destruct (get_config_ret ans <? 0) eqn:E1;
    [apply Z.ltb_lt in E1; eexists; split; [exact E1 | reflexivity]|].
  destruct (set_configuration_ret ans <? 0) eqn:E2;
    [apply Z.ltb_lt in E2; eexists; split; [exact E2 | reflexivity]|].
  destruct (claim_interface_ret ans <? 0) eqn:E3;
    [apply Z.ltb_lt in E3; eexists; split; [exact E3 | reflexivity]|].
  destruct (set_alt_setting_ret ans <? 0) eqn:E4;
    [apply Z.ltb_lt in E4; eexists; split; [exact E4 | reflexivity]|].
  apply Z.ltb_ge in E1, E2, E3, E4.
  apply Z.leb_le in E1, E2, E3, E4. rewrite E1, E2, E3, E4 in Hs. discriminate Hs.
Qed.

Lemma get_device_info_eq (w : world) (h : nat) (hw0 sw0 : Z) :
  device_handle w = Some h ->
  let r := head_reply w in
  let buf := overlay (firstn sizeof_device_config (rep_data r))
                     (firstn sizeof_device_config
                             (stack_junk w ++ repeat 0 sizeof_device_config)) in
  let w' := log_event (device_config_event h r) (after_reply w) in
  usb_can_get_device_info (Some hw0) (Some sw0) w
  = if rep_ret r <? 0 then Ok (rep_ret r, (Some hw0, Some sw0)) w'
    else Ok (0, (Some (hw_version (decode_device_config buf)),
                 Some (sw_version (decode_device_config buf)))) w'.
Proof.
  intros Hh r buf w'. subst r buf w'.
  unfold usb_can_get_device_info, bind at 1, gets. rewrite Hh.
  unfold uninitialized, bind at 1, gets.
  unfold bind. rewrite control_in_eq.
  destruct (rep_ret (head_reply w) <? 0); reflexivity.
Qed.

(** What [Connect] does on an object that is not connected when the
    library is initialised and the bus holds a usable adapter. *)
Lemma Connect_eq (this : UsbCanObject) (ans : connect_answers) (d : usb_device)
    (w : world) :
  IsConnected (connection this) = false ->
  is_initialized w = true ->
  0 <= list_ret ans ->
  find usable (list_devs ans) = Some d ->
  let h := open_handle d in
  let w1 := set_device_handle (Some h) w in
  let r1 := head_reply w in
  let w2 := log_event (host_format_event h r1) (after_reply w1) in
  let r2 := head_reply w2 in
  let w3 := log_event (device_config_event h r2) (after_reply w2) in
  let buf := overlay (firstn sizeof_device_config (rep_data r2))
                     (firstn sizeof_device_config
                             (stack_junk w ++ repeat 0 sizeof_device_config)) in
  Connect this ans w =
  if steps_ok (configure ans) then
    if rep_ret r1 <? 0 then Ok (false, this) w2
    else if rep_ret r2 <? 0 then Ok (false, this) w3
    else Ok (true, mk_object (mk_device true)
                             (hw_version (decode_device_config buf))
                             (sw_version (decode_device_config buf))
                             (_disposed this)) w3
  else Ok (false, this) w1.
Proof.
  intros Hc Hi Hcnt Hf h w1 r1 w2 r2 w3 buf.
  unfold Connect. rewrite Hc. unfold bind at 1.
  rewrite usb_can_open_device_eq, Hi, Hf.
  assert ((list_ret ans <? 0) = false) as -> by (apply Z.ltb_ge; lia).
  cbn [negb]. change (0 <? 0) with false. cbv iota. fold h. fold w1.
  assert (device_handle w1 = Some h) as Hh1 by reflexivity.
  unfold bind at 1.
  destruct (steps_ok (configure ans)) eqn:Es.
  - rewrite (configure_device_eq _ w1 h Hh1 Es).
    change (head_reply w1) with r1. fold w2.
    destruct (rep_ret r1 <? 0) eqn:E1; [rewrite E1; reflexivity|].
    change (0 <? 0) with false. cbv iota.
    unfold bind.
    assert (device_handle w2 = Some h) as Hh2 by reflexivity.
    rewrite (get_device_info_eq w2 h 0 0 Hh2). cbv zeta.
    fold r2. fold w3. change (stack_junk w2) with (stack_junk w). fold buf.
    destruct (rep_ret r2 <? 0) eqn:E2; [cbv beta iota; rewrite E2; reflexivity|].
    reflexivity.
  - destruct (configure_device_failed_step _ w1 h Hh1 Es) as (r & Hr & ->).
    assert ((r <? 0) = true) as -> by (apply Z.ltb_lt; lia).
    reflexivity.
Qed.

(** X17. On an initialised library, with a usable adapter on the bus,
    all set-up steps and both control transfers succeeding and the device
    delivering a device-config record, [Connect] on an unconnected object
    returns true, marks the object connected and stores that record's
    hardware and software versions.  It leaves the handle of the adapter
    open and has made exactly two transfers: the host-format request and
    the device-config request, in this order. *)
Theorem Connect_reads_versions (this : UsbCanObject) (ans : connect_answers)
    (d : usb_device) (c : gs_device_config) (w : world) :
  IsConnected (connection this) = false ->
  is_initialized w = true ->
  0 <= list_ret ans ->
  find usable (list_devs ans) = Some d ->
  steps_ok (configure ans) = true ->
  0 <= rep_ret (head_reply w) ->
  0 <= rep_ret (head_reply (after_reply w)) ->
  valid_device_config c ->
  firstn sizeof_device_config (rep_data (head_reply (after_reply w)))
  = encode_device_config c ->
  exists w',
    Connect this ans w
    = Ok (true, mk_object (mk_device true) (hw_version c) (sw_version c)
                          (_disposed this)) w'
    /\ device_handle w' = Some (open_handle d)
    /\ usb_log w' = usb_log w ++ [host_format_event (open_handle d) (head_reply w);
                                  device_config_event (open_handle d)
                                                      (head_reply (after_reply w))]
    /\ usb_replies w' = tl (tl (usb_replies w)).
Proof.
  intros Hc Hi Hcnt Hf Hs H1 H2 Hv Hdata.
  rewrite (Connect_eq this ans d w Hc Hi Hcnt Hf). cbv zeta. rewrite Hs.
  change (head_reply (log_event _ (after_reply (set_device_handle _ w))))
    with (head_reply (after_reply w)).
  assert ((rep_ret (head_reply w) <? 0) = false) as -> by (apply Z.ltb_ge; lia).
  assert ((rep_ret (head_reply (after_reply w)) <? 0) = false) as ->
    by (apply Z.ltb_ge; lia).
  rewrite Hdata.
  assert (overlay (encode_device_config c)
            (firstn sizeof_device_config
               (stack_junk w ++ repeat 0 sizeof_device_config))
          = encode_device_config c) as ->.
  { assert (Datatypes.length (encode_device_config c) = sizeof_device_config) as Hl
      by reflexivity.
    unfold overlay. rewrite skipn_all2; [apply app_nil_r|].
    rewrite Hl, length_firstn. apply Nat.le_min_l. }
  rewrite decode_encode_device_config by exact Hv.
  eexists. split; [reflexivity|]. split; [reflexivity|]. split; [|reflexivity].
  cbn. rewrite <- app_assoc. reflexivity.
Qed.

(** X17, instance: one adapter that reports versions 1 and 2. *)
Lemma Connect_reads_versions_witness :
  exists w',
    Connect fresh_object (one_adapter 5) (initialised_world connect_script)
    = Ok (true, mk_object (mk_device true) 1 2 false) w'
    /\ device_handle w' = Some 5%nat.
Proof.
  destruct (Connect_reads_versions fresh_object (one_adapter 5) (gs_usb_device 5)
              candle_config (initialised_world connect_script)
              eq_refl eq_refl ltac:(cbn; lia) eq_refl eq_refl
              ltac:(cbn; lia) ltac:(cbn; lia) ltac:(solve_valid) eq_refl)
    as (w' & Hrun & Hh & _).
  exists w'. split; [exact Hrun | exact Hh].
Defined.

Lemma Connect_uninitialised (this : UsbCanObject) (ans : connect_answers) (w : world) :
  is_initialized w = false ->
  Connect this ans w = Ok (IsConnected (connection this), this) w.
Proof.
  intros Hi. unfold Connect.
  destruct (IsConnected (connection this)); [reflexivity|].
  unfold bind. rewrite usb_can_open_device_eq, Hi. reflexivity.
Qed.

(** X18. [Connect] always returns.  On a connected object it returns
    true and does nothing at all.  When it returns false the object is as
    it was; when it returns true the object is connected and, if it was
    not connected before, the library was initialised and now holds the
    handle of the first usable adapter.  [Connect] never closes a handle
    and never touches the libusb context. *)
Theorem Connect_outcomes (this : UsbCanObject) (ans : connect_answers) (w : world) :
  exists b this' w',
    Connect this ans w = Ok (b, this') w'
    /\ (IsConnected (connection this) = true -> b = true /\ this' = this /\ w' = w)
    /\ (b = false -> this' = this)
    /\ (b = true ->
        IsConnected (connection this') = true /\ _disposed this' = _disposed this)
    /\ (b = true -> IsConnected (connection this) = false ->
        is_initialized w = true
        /\ exists d, find usable (list_devs ans) = Some d
                     /\ device_handle w' = Some (open_handle d))
    /\ closed_handles w' = closed_handles w
    /\ usb_context w' = usb_context w
    /\ is_initialized w' = is_initialized w.
Proof.
  destruct (IsConnected (connection this)) eqn:Hc.
  { exists true, this, w. unfold Connect. rewrite Hc.
    repeat split; auto; discriminate. }
  destruct (is_initialized w) eqn:Hi.
  2:{ exists false, this, w. rewrite Connect_uninitialised, Hc by exact Hi.
      repeat split; auto; discriminate. }
  assert (Connect this ans w =
          (result <- usb_can_open_device (list_ret ans) (list_devs ans) ;;
           if result <? 0 then ret (false, this) else
           result <- usb_can_configure_device (configure ans) ;;
           if result <? 0 then ret (false, this) else
           '(result, (hw_version, sw_version)) <-
              usb_can_get_device_info (Some 0) (Some 0) ;;
           if result <? 0 then ret (false, this) else
           ret (true, mk_object (mk_device true) (deref 0 hw_version)
                                (deref 0 sw_version) (_disposed this))) w) as Hunf
    by (unfold Connect; rewrite Hc; reflexivity).
  destruct (list_ret ans <? 0) eqn:Ecnt.
  { exists false, this, w. rewrite Hunf. unfold bind at 1.
    rewrite usb_can_open_device_eq, Hi, Ecnt. cbn [negb]. rewrite Ecnt.
    repeat split; auto; discriminate. }
  destruct (find usable (list_devs ans)) as [d|] eqn:Ef.
  2:{ exists false, this, w. rewrite Hunf. unfold bind at 1.
      rewrite usb_can_open_device_eq, Hi, Ecnt, Ef.
      repeat split; auto; discriminate. }
  apply Z.ltb_ge in Ecnt.
  rewrite (Connect_eq this ans d w Hc Hi Ecnt Ef). cbv zeta.
  destruct (steps_ok (configure ans)).
  - destruct (rep_ret (head_reply w) <? 0).
    + eexists. eexists. eexists. split; [reflexivity|].
      unfold host_format_event, device_config_event.
      rewrite closed_after_control_transfer.
      repeat split; auto; discriminate.
    + destruct (rep_ret _ <? 0).
      * eexists. eexists. eexists. split; [reflexivity|].
        unfold host_format_event, device_config_event.
        rewrite !closed_after_control_transfer.
        repeat split; auto; discriminate.
      * eexists. eexists. eexists. split; [reflexivity|].
        unfold host_format_event, device_config_event.
        rewrite !closed_after_control_transfer.
        repeat split; auto; try discriminate.
        exists d. split; reflexivity.
  - eexists. eexists. eexists. split; [reflexivity|].
    repeat split; auto; discriminate.
Qed.

(** With a usable adapter on the bus, [Connect] on an unconnected object
    leaves the adapter's handle in the library whether or not it
    succeeds. *)
Lemma Connect_opens (this : UsbCanObject) (ans : connect_answers) (d : usb_device)
    (w : world) :
  IsConnected (connection this) = false ->
  is_initialized w = true ->
  0 <= list_ret ans ->
  find usable (list_devs ans) = Some d ->
  exists b this' w',
    Connect this ans w = Ok (b, this') w'
    /\ device_handle w' = Some (open_handle d)
    /\ closed_handles w' = closed_handles w
    /\ is_initialized w' = true
    /\ usb_context w' = usb_context w
    /\ _disposed this' = _disposed this
    /\ (b = false -> this' = this).
Proof.
  intros Hc Hi Hcnt Hf.
  rewrite (Connect_eq this ans d w Hc Hi Hcnt Hf). cbv zeta.
  unfold host_format_event, device_config_event.
  destruct (steps_ok (configure ans)).
  - destruct (rep_ret (head_reply w) <? 0).
    + eexists. eexists. eexists. split; [reflexivity|].
      rewrite closed_after_control_transfer. repeat split; auto.
    + destruct (rep_ret _ <? 0);
        eexists; eexists; eexists; (split; [reflexivity|]);
        rewrite !closed_after_control_transfer; repeat split; auto; discriminate.
  - eexists. eexists. eexists. split; [reflexivity|]. repeat split; auto.
Qed.

Lemma Disconnect_eq (this : UsbCanObject) (w : world) (h : nat) :
  IsConnected (connection this) = true ->
  device_handle w = Some h ->
  Disconnect this w =
  Ok (set_connected false this) (log_event (reset_event h (head_reply w)) (after_reply w)).
Proof.
  intros Hc Hh. unfold Disconnect. rewrite Hc. unfold bind.
  rewrite (stop_eq w h Hh). reflexivity.
Qed.

(** What the first [Dispose] of an object does. *)
Lemma Dispose_closes (disposing : bool) (this : UsbCanObject) (w : world) :
  _disposed this = false ->
  exists this' w',
    Dispose_bool disposing this w = Ok this' w'
    /\ _disposed this' = true
    /\ IsConnected (connection this')
       = (if disposing then false else IsConnected (connection this))
    /\ device_handle w' = None /\ usb_context w' = None /\ is_initialized w' = false
    /\ closed_handles w'
       = closed_handles w ++ match device_handle w with
                             | Some h => [LibusbClose h]
                             | None => []
                             end.
Proof.
  intros Hd. unfold Dispose_bool. rewrite Hd. unfold bind at 1.
  assert (forall this1 w1,
            device_handle w1 = device_handle w ->
            closed_handles w1 = closed_handles w ->
            exists this' w',
              (_ <- usb_can_cleanup ;;
               ret (mk_object (connection this1) (HardwareVersion this1)
                              (SoftwareVersion this1) true)) w1 = Ok this' w'
              /\ _disposed this' = true
              /\ IsConnected (connection this') = IsConnected (connection this1)
              /\ device_handle w' = None /\ usb_context w' = None
              /\ is_initialized w' = false
              /\ closed_handles w'
                 = closed_handles w ++ match device_handle w with
                                       | Some h => [LibusbClose h]
                                       | None => []
                                       end) as Hclean.
  { intros this1 w1 Hh Hcl. rewrite <- Hh, <- Hcl. clear Hh Hcl.
    destruct w1 as [c dh i rs j l]. unfold closed_handles.
    destruct dh as [x|], c as [y|]; eexists; eexists; (split; [reflexivity|]); cbn;
      rewrite ?filter_app; cbn; rewrite ?app_nil_r; repeat split; reflexivity. }
  destruct disposing.
  - unfold Disconnect. destruct (IsConnected (connection this)) eqn:Hc.
    + unfold bind at 1. destruct (device_handle w) as [h|] eqn:Hh.
      * rewrite (stop_eq w h Hh). cbv beta iota.
        destruct (Hclean (set_connected false this)
                    (log_event (reset_event h (head_reply w)) (after_reply w)))
          as (this' & w' & Hrun & H); [exact Hh | apply closed_after_control_transfer |].
        exists this', w'. split; [exact Hrun | exact H].
      * rewrite (stop_null_handle w Hh). cbv beta iota.
        destruct (Hclean (set_connected false this) w) as (this' & w' & Hrun & H);
          [exact Hh | reflexivity |].
        exists this', w'. split; [exact Hrun | exact H].
    + destruct (Hclean this w) as (this' & w' & Hrun & H); [reflexivity | reflexivity |].
      exists this', w'. split; [exact Hrun|].
      rewrite Hc in H. exact H.
  - destruct (Hclean this w) as (this' & w' & Hrun & H); [reflexivity | reflexivity |].
    exists this', w'. split; [exact Hrun | exact H].
Qed.

(** X19. A [Connect] that finds and opens an adapter but then fails, at
    a set-up step or at one of its two transfers, returns false and
    leaves the object unconnected, yet the adapter stays open in the
    library: nothing is closed.  A later [Connect] opens an adapter again
    and overwrites that handle, and the [Dispose] that follows closes the
    later handle only; the first one is never handed to [libusb_close]. *)
Theorem failed_Connect_leaves_device_open
    (this : UsbCanObject) (ans ans2 : connect_answers) (d d2 : usb_device) (w : world) :
  IsConnected (connection this) = false ->
  _disposed this = false ->
  is_initialized w = true ->
  0 <= list_ret ans ->
  find usable (list_devs ans) = Some d ->
  steps_ok (configure ans) = false
  \/ rep_ret (head_reply w) < 0
  \/ rep_ret (head_reply (after_reply w)) < 0 ->
  0 <= list_ret ans2 ->
  find usable (list_devs ans2) = Some d2 ->
  exists w1 b this2 w2 this3 w3,
    Connect this ans w = Ok (false, this) w1
    /\ device_handle w1 = Some (open_handle d)
    /\ closed_handles w1 = closed_handles w
    /\ Connect this ans2 w1 = Ok (b, this2) w2
    /\ device_handle w2 = Some (open_handle d2)
    /\ Dispose this2 w2 = Ok this3 w3
    /\ closed_handles w3 = closed_handles w ++ [LibusbClose (open_handle d2)].
Proof.
  intros Hc Hd Hi Hcnt Hf Hfail Hcnt2 Hf2.
  assert (exists w1,
            Connect this ans w = Ok (false, this) w1
            /\ device_handle w1 = Some (open_handle d)
            /\ closed_handles w1 = closed_handles w
            /\ is_initialized w1 = true) as (w1 & Hrun1 & Hh1 & Hcl1 & Hi1).
  { rewrite (Connect_eq this ans d w Hc Hi Hcnt Hf). cbv zeta.
    unfold host_format_event, device_config_event.
    destruct (steps_ok (configure ans)).
    - destruct (rep_ret (head_reply w) <? 0) eqn:E1.
      + eexists. split; [reflexivity|].
        rewrite closed_after_control_transfer. repeat split; auto.
      + apply Z.ltb_ge in E1.
        change (head_reply (log_event _ (after_reply (set_device_handle _ w))))
          with (head_reply (after_reply w)).
        assert ((rep_ret (head_reply (after_reply w)) <? 0) = true) as ->.
        { apply Z.ltb_lt. destruct Hfail as [Hfail|[Hfail|Hfail]];
            [discriminate Hfail | lia | exact Hfail]. }
        eexists. split; [reflexivity|].
        rewrite !closed_after_control_transfer. repeat split; auto.
    - eexists. split; [reflexivity|]. repeat split; auto. }
  destruct (Connect_opens this ans2 d2 w1 Hc Hi1 Hcnt2 Hf2)
    as (b & this2 & w2 & Hrun2 & Hh2 & Hcl2 & _ & _ & Hd2 & _).
  rewrite Hd in Hd2.
  destruct (Dispose_closes true this2 w2 Hd2)
    as (this3 & w3 & Hrun3 & _ & _ & _ & _ & _ & Hcl3).
  exists w1, b, this2, w2, this3, w3.
  repeat (split; [assumption|]).
  rewrite Hcl3, Hh2, Hcl2, Hcl1. reflexivity.
Qed.

(** X19, instance: the interface is claimed by another program at the
    first attempt and free at the second. *)
Lemma failed_Connect_leaves_device_open_witness :
  exists w1 w2 this3 w3,
    Connect fresh_object (claimed_adapter 5) (initialised_world connect_script)
    = Ok (false, fresh_object) w1
    /\ Connect fresh_object (one_adapter 6) w1 = Ok (true, connected_object) w2
    /\ Dispose connected_object w2 = Ok this3 w3
    /\ closed_handles w3 = [LibusbClose 6].
Proof.
  destruct (failed_Connect_leaves_device_open fresh_object
              (claimed_adapter 5) (one_adapter 6) (gs_usb_device 5) (gs_usb_device 6)
              (initialised_world connect_script)
              eq_refl eq_refl eq_refl ltac:(cbn; lia) eq_refl
              (or_introl eq_refl) ltac:(cbn; lia) eq_refl)
    as (w1 & b & this2 & w2 & this3 & w3 & H1 & _ & _ & H2 & _ & H3 & H4).
  assert (w1 = set_device_handle (Some 5%nat) (initialised_world connect_script)) as Hw1.
  { vm_compute in H1. injection H1 as <-. reflexivity. }
  subst w1.
  assert (b = true /\ this2 = connected_object) as (-> & ->).
  { vm_compute in H2. injection H2 as <- <- _. split; reflexivity. }
  eexists. exists w2, this3, w3.
  split; [exact H1|]. split; [exact H2|]. split; [exact H3 | exact H4].
Defined.

(** X20. [Disconnect] sends the reset command and clears the
    connection flag whatever the transfer returned, but it does not close
    the device.  A [Connect] after it opens an adapter again and
    overwrites the handle, so the [Dispose] at the end closes the handle
    of the second open only. *)
Theorem reconnect_leaves_first_handle_open
    (this : UsbCanObject) (ans : connect_answers) (d : usb_device)
    (w : world) (h : nat) :
  IsConnected (connection this) = true ->
  _disposed this = false ->
  is_initialized w = true ->
  device_handle w = Some h ->
  0 <= list_ret ans ->
  find usable (list_devs ans) = Some d ->
  exists this1 w1 b this2 w2 this3 w3,
    Disconnect this w = Ok this1 w1
    /\ IsConnected (connection this1) = false
    /\ device_handle w1 = Some h
    /\ usb_log w1 = usb_log w ++ [reset_event h (head_reply w)]
    /\ Connect this1 ans w1 = Ok (b, this2) w2
    /\ device_handle w2 = Some (open_handle d)
    /\ Dispose this2 w2 = Ok this3 w3
    /\ closed_handles w3 = closed_handles w ++ [LibusbClose (open_handle d)].
Proof.
  intros Hc Hd Hi Hh Hcnt Hf.
  set (this1 := set_connected false this).
  set (w1 := log_event (reset_event h (head_reply w)) (after_reply w)).
  assert (IsConnected (connection this1) = false) as Hc1 by reflexivity.
  assert (is_initialized w1 = true) as Hi1 by exact Hi.
  destruct (Connect_opens this1 ans d w1 Hc1 Hi1 Hcnt Hf)
    as (b & this2 & w2 & Hrun2 & Hh2 & Hcl2 & _ & _ & Hd2 & _).
  change (_disposed this1) with (_disposed this) in Hd2. rewrite Hd in Hd2.
  destruct (Dispose_closes true this2 w2 Hd2)
    as (this3 & w3 & Hrun3 & _ & _ & _ & _ & _ & Hcl3).
  exists this1, w1, b, this2, w2, this3, w3.
  split; [exact (Disconnect_eq this w h Hc Hh)|].
  split; [reflexivity|]. split; [exact Hh|]. split; [reflexivity|].
  split; [exact Hrun2|]. split; [exact Hh2|]. split; [exact Hrun3|].
  rewrite Hcl3, Hh2, Hcl2. unfold w1, reset_event.
  rewrite closed_after_control_transfer. reflexivity.
Qed.

(** X20, instance: handle 1 is held, handle 6 is opened on reconnect. *)
Lemma reconnect_leaves_first_handle_open_witness :
  exists this1 w1 b this2 w2 this3 w3,
    Disconnect connected_object (opened_world (mk_reply 8 0 [] :: connect_script))
    = Ok this1 w1
    /\ device_handle w1 = Some 1%nat
    /\ Connect this1 (one_adapter 6) w1 = Ok (b, this2) w2
    /\ Dispose this2 w2 = Ok this3 w3
    /\ closed_handles w3 = [LibusbClose 6].
Proof.
  destruct (reconnect_leaves_first_handle_open connected_object (one_adapter 6)
              (gs_usb_device 6) (opened_world (mk_reply 8 0 [] :: connect_script)) 1
              eq_refl eq_refl eq_refl eq_refl ltac:(cbn; lia) eq_refl)
    as (this1 & w1 & b & this2 & w2 & this3 & w3
        & H1 & _ & H2 & _ & H3 & _ & H4 & H5).
  exists this1, w1, b, this2, w2, this3, w3.
  repeat (split; [assumption|]). exact H5.
Defined.

(** X21. [Dispose] always returns, and only the first call on an object
    does anything: it leaves the object disposed and the library without
    handle, without context and uninitialised, having closed the handle
    it held, if any, and nothing else; every later call, from user code
    or from the finalizer, changes neither the object nor the library.
    Called from user code on a connected object whose device is open, it
    sends the reset command, then closes the handle, then releases the
    context, in this order.  Called from the finalizer it makes no
    transfer. *)
Theorem Dispose_once (disposing : bool) (this : UsbCanObject) (w : world) :
  exists this' w',
    Dispose_bool disposing this w = Ok this' w'
    /\ _disposed this' = true
    /\ (forall again, Dispose_bool again this' w' = Ok this' w')
    /\ (_disposed this = true -> this' = this /\ w' = w)
    /\ (_disposed this = false ->
        device_handle w' = None /\ usb_context w' = None /\ is_initialized w' = false
        /\ closed_handles w'
           = closed_handles w ++ match device_handle w with
                                 | Some h => [LibusbClose h]
                                 | None => []
                                 end
        /\ (disposing = true -> IsConnected (connection this') = false)
        /\ (disposing = false -> usb_replies w' = usb_replies w)
        /\ (forall h c,
              disposing = true -> IsConnected (connection this) = true ->
              device_handle w = Some h -> usb_context w = Some c ->
              usb_log w' = usb_log w ++ [reset_event h (head_reply w);
                                         LibusbClose h; LibusbExit c])).
Proof.
  destruct (_disposed this) eqn:Hd.
  { exists this, w. unfold Dispose_bool. rewrite Hd.
    repeat split; auto; discriminate. }
  destruct (Dispose_closes disposing this w Hd)
    as (this' & w' & Hrun & Hd' & Hc' & Hh' & Hx' & Hi' & Hcl').
  exists this', w'. split; [exact Hrun|]. split; [exact Hd'|]. split; [|split].
  - intros again. unfold Dispose_bool. rewrite Hd'. reflexivity.
  - discriminate.
  - intros _. repeat (split; [assumption|]). split; [|split].
    + intros ->. exact Hc'.
    + intros ->. revert Hrun. unfold Dispose_bool. rewrite Hd.
      destruct w as [c dh i rs j l].
      destruct dh as [x|], c as [y|]; intros [= _ <-]; reflexivity.
    + intros h c -> Hc Hh Hctx. revert Hrun. unfold Dispose_bool. rewrite Hd.
      unfold bind at 1. rewrite (Disconnect_eq this w h Hc Hh).
      destruct w as [c0 dh i rs j l]. cbn in Hh, Hctx. subst c0 dh.
      intros [= _ <-]. cbn. rewrite <- !app_assoc. reflexivity.
Qed.

Lemma start_null_handle (l : Z) (w : world) :
  device_handle w = None -> usb_can_start l w = Ok (-1) w.
Proof.
  intros Hh. unfold usb_can_start, bind, gets. now rewrite Hh.
Qed.

Lemma identify_null_handle (e : Z) (w : world) :
  device_handle w = None -> usb_can_identify e w = Ok (-1) w.
Proof.
  intros Hh. unfold usb_can_identify, bind, gets. now rewrite Hh.
Qed.

Lemma purge_null_handle (fuel : nat) (w : world) :
  device_handle w = None -> usb_can_purge_rx_queue fuel w = Ok (-1) w.
Proof.
  intros Hh. unfold usb_can_purge_rx_queue, bind, gets. now rewrite Hh.
Qed.

Lemma read_obd_pid_null_handle (pid : Z) (d : option (list Z)) (n : option Z)
    (w : world) :
  device_handle w = None -> usb_can_read_obd_pid pid d n w = Ok (-1, (d, n)) w.
Proof.
  intros Hh. unfold usb_can_read_obd_pid, bind, gets. now rewrite Hh.
Qed.

Lemma ReadObdPid_null_handle (other : UsbCanDevice) (pid : Z) (w : world) :
  device_handle w = None -> ReadObdPid other pid w = Ok None w.
Proof.
  intros Hh. unfold ReadObdPid.
  destruct (IsConnected other); [|reflexivity]. cbn [negb].
  unfold bind. rewrite (read_obd_pid_null_handle _ _ _ w Hh). reflexivity.
Qed.

(** Without a device handle in the library every method fails, whatever
    the object's connection flag says. *)
Lemma null_handle_wrapper_fails (other : UsbCanDevice) (w : world) :
  device_handle w = None -> wrapper_fails other w.
Proof.
  intros Hh. unfold wrapper_fails. repeat split.
  - intros e. unfold SetIdentify. destruct (IsConnected other); [|reflexivity].
    cbn [negb]. unfold bind. rewrite (identify_null_handle _ w Hh). reflexivity.
  - intros b. unfold SetBitrate. destruct (IsConnected other); [|reflexivity].
    cbn [negb]. unfold bind. rewrite (set_bitrate_null_handle _ w Hh). reflexivity.
  - intros l. unfold StartCan. destruct (IsConnected other); [|reflexivity].
    cbn [negb]. unfold bind. rewrite (start_null_handle _ w Hh). reflexivity.
  - unfold StopCan. destruct (IsConnected other); [|reflexivity].
    cbn [negb]. unfold bind. rewrite (stop_null_handle w Hh). reflexivity.
  - intros canId bytes. unfold SendFrame. destruct bytes as [bytes|]; [|reflexivity].
    destruct (negb (IsConnected other) || (8 <? Datatypes.length bytes)%nat);
      [reflexivity|].
    unfold bind. rewrite (send_frame_null_handle _ _ _ w Hh). reflexivity.
  - unfold ReceiveFrame. destruct (IsConnected other); [|reflexivity].
    cbn [negb]. unfold bind. rewrite (receive_frame_null_handle _ w Hh). reflexivity.
  - intros fuel. unfold PurgeReceiveQueue. destruct (IsConnected other); [|reflexivity].
    cbn [negb]. exact (purge_null_handle fuel w Hh).
  - intros pid. exact (ReadObdPid_null_handle other pid w Hh).
  - unfold GetVehicleSpeed, bind. rewrite (ReadObdPid_null_handle other _ w Hh).
    reflexivity.
  - unfold GetThrottlePosition, bind. rewrite (ReadObdPid_null_handle other _ w Hh).
    reflexivity.
  - unfold GetEngineRpm, bind. rewrite (ReadObdPid_null_handle other _ w Hh).
    reflexivity.
Qed.

(** X22. The library's state is shared by all wrapper objects.  Once one
    object has been disposed, every method of every other object fails
    without a transfer, also on an object whose connection flag is still
    set; [Connect] on such an object returns true and does nothing, and
    on an unconnected one it returns false, whatever adapters are on the
    bus, because only a constructor initialises the library again. *)
Theorem Dispose_disables_all_objects
    (disposing : bool) (this other : UsbCanObject) (w : world) :
  _disposed this = false ->
  exists this' w',
    Dispose_bool disposing this w = Ok this' w'
    /\ wrapper_fails (connection other) w'
    /\ (forall ans,
          Connect other ans w' = Ok (IsConnected (connection other), other) w')
    /\ (forall ans fresh w'',
          new_UsbCanDevice ans w' = Ok fresh w'' ->
          is_initialized w'' = true /\ 0 <= init_ret ans).
Proof.
  intros Hd.
  destruct (Dispose_closes disposing this w Hd)
    as (this' & w' & Hrun & _ & _ & Hh' & Hx' & Hi' & _).
  exists this', w'. split; [exact Hrun|]. split; [|split].
  - exact (null_handle_wrapper_fails (connection other) w' Hh').
  - intros ans. exact (Connect_uninitialised other ans w' Hi').
  - intros ans fresh w''. unfold new_UsbCanDevice, bind.
    rewrite usb_can_init_eq, Hi'.
    destruct (init_ret ans <? 0) eqn:E1; [cbv beta iota; rewrite E1; discriminate|].
    change (0 <? 0) with false. cbv beta iota. intros [= _ <-].
    split; [reflexivity|]. apply Z.ltb_ge in E1. exact E1.
Qed.

(** X22, instance: a second object is still marked connected when the
    first one is disposed. *)
Lemma Dispose_disables_all_objects_witness :
  exists this' w',
    Dispose connected_object (opened_world connect_script) = Ok this' w'
    /\ StartCan (connection connected_object) false w' = Ok false w'
    /\ Connect connected_object (one_adapter 6) w' = Ok (true, connected_object) w'
    /\ Connect fresh_object (one_adapter 6) w' = Ok (false, fresh_object) w'.
Proof.
  destruct (Dispose_disables_all_objects true connected_object connected_object
              (opened_world connect_script) eq_refl)
    as (this' & w' & Hrun & Hfails & Hconn & _).
  exists this', w'. split; [exact Hrun|]. split; [|split].
  - destruct Hfails as (_ & _ & Hstart & _). exact (Hstart false).
  - exact (Hconn (one_adapter 6)).
  - vm_compute in Hrun. injection Hrun as <- <-. reflexivity.
Defined.

(** ** The control commands of the wrapper *)

Lemma last_mode_command_app (log : list usb_event) (e : usb_event) :
  last_mode_command (log ++ [e])
  = if is_mode_command e then Some e else last_mode_command log.
Proof.
  unfold last_mode_command. rewrite filter_app. cbn [filter].
  destruct (is_mode_command e).
  - rewrite rev_app_distr. reflexivity.
  - rewrite app_nil_r. reflexivity.
Qed.

Lemma session_after_command (h : nat) (req : Z) (p : list Z) (n : nat) (r : Z)
    (w : world) :
  device_handle w = Some h ->
  session_running (log_event (ControlTransfer h 65 req p n r) (after_reply w))
  = if (req =? GS_USB_BREQ_MODE) && (0 <=? r)
    then rd32 p 0 =? GS_CAN_MODE_START
    else session_running w.
Proof.
  intros Hh. unfold session_running.
  change (device_handle (log_event _ (after_reply w))) with (device_handle w).
  change (usb_log (log_event (ControlTransfer h 65 req p n r) (after_reply w)))
    with (usb_log w ++ [ControlTransfer h 65 req p n r]).
  rewrite Hh, last_mode_command_app.
  change (is_mode_command (ControlTransfer h 65 req p n r))
    with ((req =? GS_USB_BREQ_MODE) && (0 <=? r)).
  destruct ((req =? GS_USB_BREQ_MODE) && (0 <=? r)); reflexivity.
Qed.

(** X23. On a connected wrapper with a device open, [StartCan],
    [StopCan] and [SetIdentify] each make exactly one control-out
    transfer and return true exactly when it did not fail.  [StartCan]
    sends mode 1 with the hardware-timestamp flag, and the loop-back flag
    as well when asked to (flags 16 or 18); [StopCan] sends mode 0 with no
    flags; [SetIdentify] sends 1 or 0.  A start or stop the device accepts
    makes the session running or not running; one that fails, and every
    identify command, leaves that as it was. *)
Theorem control_commands_of_the_wrapper (this : UsbCanDevice) (w : world) (h : nat) :
  IsConnected this = true ->
  device_handle w = Some h ->
  let r := rep_ret (head_reply w) in
  (forall enableLoopback, exists w',
      StartCan this enableLoopback w = Ok (0 <=? r) w'
      /\ usb_log w' = usb_log w ++
           [ControlTransfer h 65 GS_USB_BREQ_MODE
              [1; 0; 0; 0; if enableLoopback : bool then 18 else 16; 0; 0; 0] 8 r]
      /\ session_running w' = if 0 <=? r then true else session_running w)
  /\ (exists w',
        StopCan this w = Ok (0 <=? r) w'
        /\ usb_log w' = usb_log w ++
             [ControlTransfer h 65 GS_USB_BREQ_MODE [0; 0; 0; 0; 0; 0; 0; 0] 8 r]
        /\ session_running w' = if 0 <=? r then false else session_running w)
  /\ (forall enable, exists w',
        SetIdentify this enable w = Ok (0 <=? r) w'
        /\ usb_log w' = usb_log w ++
             [ControlTransfer h 65 GS_USB_BREQ_IDENTIFY
                [if enable : bool then 1 else 0; 0; 0; 0] 4 r]
        /\ session_running w' = session_running w).
Proof.
  intros Hc Hh r. subst r. split; [|split].
  - intros lb. unfold StartCan. rewrite Hc. cbn [negb].
    unfold bind at 1. unfold usb_can_start, bind at 1, gets. rewrite Hh.
    rewrite control_out_eq. eexists. split; [reflexivity|]. split.
    + destruct lb; reflexivity.
    + rewrite (session_after_command h _ _ _ _ w Hh).
      change (GS_USB_BREQ_MODE =? GS_USB_BREQ_MODE) with true. cbn [andb].
      destruct (0 <=? rep_ret (head_reply w)); [|reflexivity].
      destruct lb; reflexivity.
  - unfold StopCan. rewrite Hc. cbn [negb].
    unfold bind at 1. rewrite (stop_eq w h Hh).
    eexists. split; [reflexivity|]. split; [reflexivity|].
    unfold reset_event. rewrite (session_after_command h _ _ _ _ w Hh).
    change (GS_USB_BREQ_MODE =? GS_USB_BREQ_MODE) with true. cbn [andb].
    destruct (0 <=? rep_ret (head_reply w)); reflexivity.
  - intros e. unfold SetIdentify. rewrite Hc. cbn [negb].
    unfold bind at 1. unfold usb_can_identify, bind at 1, gets. rewrite Hh.
    rewrite control_out_eq. eexists. split; [reflexivity|]. split.
    + destruct e; reflexivity.
    + rewrite (session_after_command h _ _ _ _ w Hh). reflexivity.
Qed.

(** X23, instance: a start with loop-back that the device accepts. *)
Lemma control_commands_of_the_wrapper_witness :
  exists w',
    StartCan (mk_device true) true (opened_world [mk_reply 8 0 []]) = Ok true w'
    /\ usb_log w' = [ControlTransfer 1 65 2 [1; 0; 0; 0; 18; 0; 0; 0] 8 8]
    /\ session_running w' = true.
Proof.
  destruct (control_commands_of_the_wrapper (mk_device true)
              (opened_world [mk_reply 8 0 []]) 1 eq_refl eq_refl) as (Hstart & _ & _).
  destruct (Hstart true) as (w' & Hrun & Hlog & Hs).
  exists w'. split; [exact Hrun|]. split; [exact Hlog | exact Hs].
Defined.

(** X24. On a connected wrapper with a device open, [SetBitrate] first
    reads the timing constraints.  When that transfer fails it returns
    false and makes no other transfer.  Otherwise the native division is
    by the 32-bit product [bitrate * 16]: when that product is 0, for
    bitrate 0 and for every multiple of 2^28, the call does not return
    (the division is undefined); in all other cases the bit timing is
    written and the result is true exactly when that second transfer did
    not fail. *)
Theorem SetBitrate_outcomes (this : UsbCanDevice) (w : world) (h : nat) (bitrate : Z) :
  IsConnected this = true ->
  device_handle w = Some h ->
  let w1 := log_event (bt_const_event h (head_reply w)) (after_reply w) in
  (rep_ret (head_reply w) < 0 -> SetBitrate this bitrate w = Ok false w1)
  /\ (0 <= rep_ret (head_reply w) ->
      (bitrate mod 2 ^ 28 = 0 ->
       SetBitrate this bitrate w = Undefined DivisionByZero)
      /\ (bitrate mod 2 ^ 28 <> 0 ->
          exists w2,
            SetBitrate this bitrate w = Ok (0 <=? rep_ret (head_reply w1)) w2
            /\ Datatypes.length (usb_log w2) = (Datatypes.length (usb_log w) + 2)%nat)).
Proof.
  intros Hc Hh w1.
  assert (SetBitrate this bitrate w
          = (r <- usb_can_set_bitrate bitrate ;; ret (0 <=? r)) w) as ->
    by (unfold SetBitrate; rewrite Hc; reflexivity).
  unfold bind. rewrite (set_bitrate_eq bitrate w h Hh). cbv zeta. fold w1.
  assert (u32 (bitrate * 16) = 0 <-> bitrate mod 2 ^ 28 = 0) as Hdiv.
  { unfold u32, UINT32_MOD. change 4294967296 with (2 ^ 28 * 16).
    rewrite Z.mul_mod_distr_r by lia. lia. }
  split.
  - intros Hr. assert ((rep_ret (head_reply w) <? 0) = true) as Hlt
      by (apply Z.ltb_lt; exact Hr).
    rewrite Hlt. unfold ret. f_equal. apply Z.leb_gt. exact Hr.
  - intros Hr. assert ((rep_ret (head_reply w) <? 0) = false) as ->
      by (apply Z.ltb_ge; exact Hr).
    unfold calc_bit_timing. cbv zeta. split.
    + intros Hz. apply Hdiv in Hz. rewrite Hz. reflexivity.
    + intros Hz. destruct (u32 (bitrate * 16) =? 0) eqn:E.
      * apply Z.eqb_eq in E. apply Hdiv in E. contradiction.
      * eexists. split; [reflexivity|]. cbn. rewrite !length_app. cbn. lia.
Qed.

(** X24, instance: 2^28 bit/s on a device that reports its
    constraints. *)
Lemma SetBitrate_outcomes_witness :
  SetBitrate (mk_device true) 268435456 bitrate_world = Undefined DivisionByZero.
Proof.
  destruct (SetBitrate_outcomes (mk_device true) bitrate_world 1 268435456
              eq_refl eq_refl) as (_ & H).
  destruct (H ltac:(cbn; lia)) as (Hzero & _).
  apply Hzero. reflexivity.
Defined.
